(** * Cafe Fausse admin seeding routes ([backend/seed_routes.py])

    A shallow embedding of the seeding module: the slot generator, the demo
    customer provisioner, the reservation seeder, the capacity scenario and
    the three Flask handlers, followed by the properties of the
    specification that concern them. *)

From Stdlib Require Import ZArith List String Ascii Bool Lia Permutation Sorted.
From Stdlib Require Import DecimalString.
Import ListNotations.
Local Open Scope string_scope.
Local Open Scope list_scope.
Local Open Scope Z_scope.

(** ** Exceptions and outcomes *)

(** The exception classes the module can meet; each carries [str(e)]. *)
Inductive exn : Type :=
| ValueError (msg : string)
| OverflowError (msg : string)
| IndexError (msg : string)
| ZeroDivisionError (msg : string)
| DBError (msg : string).

Definition str (e : exn) : string :=
  match e with
  | ValueError m | OverflowError m | IndexError m | ZeroDivisionError m
  | DBError m => m
  end.

(** Outcome of a Python computation: a value, a raised exception, or
    [OutOfFuel] when the bounded unrolling of a [while] loop is exhausted. *)
Inductive res (A : Type) : Type :=
| Val (a : A)
| Exc (e : exn)
| OutOfFuel.
Arguments Val {A} a.
Arguments Exc {A} e.
Arguments OutOfFuel {A}.

Definition rbind {A B} (m : res A) (k : A -> res B) : res B :=
  match m with
  | Val a => k a
  | Exc e => Exc e
  | OutOfFuel => OutOfFuel
  end.

Declare Scope res_scope.
Delimit Scope res_scope with res.
Notation "x <~ m ; k" := (rbind m (fun x => k))
  (at level 61, m at next level, right associativity) : res_scope.

(** ** [datetime]: dates, times of day, time deltas

    A [date] is its proleptic Gregorian ordinal ([date.toordinal()]), a
    [datetime] with zero seconds is the number of minutes since midnight of
    ordinal 0.  All datetimes of the module carry the same [tzinfo]
    ([LOCAL_TZ]); Python then compares them and adds time deltas on the
    wall-clock fields alone, so the zone does not enter the arithmetic. *)

Definition date := Z.
Definition datetime := Z.

Definition MINORD : Z := 1.            (* date.min = 0001-01-01 *)
Definition MAXORD : Z := 3652059.      (* date.max = 9999-12-31 *)
Definition MINDT : datetime := MINORD * 1440.
Definition MAXDT : datetime := MAXORD * 1440 + 1439.  (* 9999-12-31 23:59 *)

Definition valid_date (d : date) : Prop := MINORD <= d <= MAXORD.
Definition valid_dateb (d : date) : bool := (MINORD <=? d) && (d <=? MAXORD).
Definition valid_datetimeb (t : datetime) : bool := (MINDT <=? t) && (t <=? MAXDT).

Definition dt_hour (t : datetime) : Z := (t mod 1440) / 60.
Definition dt_minute (t : datetime) : Z := t mod 60.

Definition decimal (z : Z) : string := NilZero.string_of_int (Z.to_int z).

(** Conversion of a Python int to a C [int], as the constructors of the
    [datetime] module do (messages as CPython 3.11 words them). *)
Definition as_c_int (v : Z) : res Z :=
  if (v >? 9223372036854775807) || (v <? -9223372036854775808)
  then Exc (OverflowError "Python int too large to convert to C long")
  else if v >? 2147483647
  then Exc (OverflowError "signed integer is greater than maximum")
  else if v <? -2147483648
  then Exc (OverflowError "signed integer is less than minimum")
  else Val v.

(** [time(hour, minute)]: the minute of the day. *)
Definition time (hour minute : Z) : res Z :=
  (h <~ as_c_int hour;
   m <~ as_c_int minute;
   if negb ((0 <=? h) && (h <=? 23))
   then Exc (ValueError "hour must be in 0..23")
   else if negb ((0 <=? m) && (m <=? 59))
   then Exc (ValueError "minute must be in 0..59")
   else Val (h * 60 + m))%res.

(** [datetime.combine(day, t, tzinfo=LOCAL_TZ)]. *)
Definition combine (day : date) (t : Z) : datetime := day * 1440 + t.

(** [timedelta(days=d, minutes=m)], in minutes; its normalised day count
    must fit a C int and have magnitude at most 999999999. *)
Definition timedelta (days minutes : Z) : res Z :=
  let total := days * 1440 + minutes in
  let nd := total / 1440 in
  if (nd >? 2147483647) || (nd <? -2147483648)
  then Exc (OverflowError "Python int too large to convert to C int")
  else if (nd >? 999999999) || (nd <? -999999999)
  then Exc (OverflowError ("days=" ++ decimal nd ++ "; must have magnitude <= 999999999")%string)
  else Val total.

(** [date + timedelta] uses the delta's day count. *)
Definition date_add (d : date) (td : Z) : res date :=
  let r := d + td / 1440 in
  if valid_dateb r then Val r else Exc (OverflowError "date value out of range").

(** [datetime + timedelta]. *)
Definition dt_add (t : datetime) (td : Z) : res datetime :=
  let r := t + td in
  if valid_datetimeb r then Val r else Exc (OverflowError "date value out of range").

(** ** [_slots_for_day] *)

(** The [while cur <= end] loop, unrolled at most [fuel] times. *)
Fixpoint slots_loop (fuel : nat) (end_ : datetime) (step_minutes : Z)
         (cur : datetime) (slots : list datetime) : res (list datetime) :=
  match fuel with
  | O => OutOfFuel
  | S fuel' =>
      if cur <=? end_ then
        (let slots' := slots ++ [cur] in
         td <~ timedelta 0 step_minutes;
         cur' <~ dt_add cur td;
         slots_loop fuel' end_ step_minutes cur' slots')%res
      else Val slots
  end.

Definition _slots_for_day (fuel : nat) (day : date)
           (start_hour end_hour step_minutes : Z) : res (list datetime) :=
  (ts <~ time start_hour 0;
   let start := combine day ts in
   te <~ time end_hour 0;
   let end_ := combine day te in
   slots_loop fuel end_ step_minutes start [])%res.

(** ** The database and its session

    The rows, with the columns the module reads and writes. *)

Record Customer : Type := mkCustomer
  { c_id : Z; c_name : string; c_email : string; c_phone : string;
    c_newsletter_signup : bool }.

Record Reservation : Type := mkReservation
  { r_id : Z; r_customer_id : Z; r_party_size : Z; r_time_slot : datetime;
    r_table_number : Z }.

(** The two tables with their identity sequences (next value to hand out). *)
Record tables : Type := mkTables
  { customers : list Customer; reservations : list Reservation;
    customers_seq : Z; reservations_seq : Z }.

(** Modelled from the spec: [SessionLocal] ([database.py]) and the column
    declarations ([models.py]) are not among the sources.  A session is one
    transaction over the persisted tables: [committed] is what the database
    holds, [current] is what the session sees (section 5 of the
    specification: one session and transaction per request; section 4.3: a
    table is skipped when a reservation already exists for the slot, so a
    query sees the rows the session has added).  [faults] schedules database
    errors: every round trip to the database consumes the head of the
    list, and [Some msg] makes that round trip raise.

    The rows are transactional, the identity values are not: what a session
    has drawn from a sequence stays drawn when its work is rolled back, so
    the sequences of [current] are those of the database, and those of
    [committed] only record where they stood at the last commit.  RESTART
    IDENTITY is transactional (PostgreSQL restarts the sequence in new
    storage and takes the old one back on a rollback): [customers_held] and
    [reservations_held] keep the value a sequence had when a TRUNCATE that
    is not committed yet restarted it. *)
Record session : Type := mkSession
  { committed : tables; current : tables; faults : list (option string);
    customers_held : option Z; reservations_held : option Z }.

Definition M (A : Type) : Type := session -> res A * session.

Definition ret {A} (a : A) : M A := fun s => (Val a, s).

Definition bind {A B} (m : M A) (k : A -> M B) : M B :=
  fun s => match m s with
           | (Val a, s') => k a s'
           | (Exc e, s') => (Exc e, s')
           | (OutOfFuel, s') => (OutOfFuel, s')
           end.

Definition lift {A} (r : res A) : M A := fun s => (r, s).

Declare Scope m_scope.
Delimit Scope m_scope with M.
Notation "x <- m ;; k" := (bind m (fun x => k))
  (at level 61, m at next level, right associativity) : m_scope.
Notation "m ;; k" := (bind m (fun _ => k))
  (at level 61, right associativity) : m_scope.

(** [try: body except Exception as e: handler(e)]. *)
Definition try_except {A} (body : M A) (handler : exn -> M A) : M A :=
  fun s => match body s with
           | (Exc e, s') => handler e s'
           | r => r
           end.

(** [try: body finally: fin]; [fin] runs on a return and on a raise. *)
Definition try_finally {A} (body : M A) (fin : M unit) : M A :=
  fun s => match body s with
           | (OutOfFuel, s') => (OutOfFuel, s')
           | (r, s') =>
               match fin s' with
               | (Val _, s'') => (r, s'')
               | (Exc e, s'') => (Exc e, s'')
               | (OutOfFuel, s'') => (OutOfFuel, s'')
               end
           end.

(** A [for] loop threading its local variables. *)
Fixpoint foldM {A B} (body : B -> A -> M B) (l : list A) (acc : B) : M B :=
  match l with
  | [] => ret acc
  | x :: l' => (acc' <- body acc x ;; foldM body l' acc')%M
  end.

(** [range(a, b)]. *)
Definition range (a b : Z) : list Z :=
  map (fun k => a + Z.of_nat k) (seq 0 (Z.to_nat (b - a))).

Definition len {A} (l : list A) : Z := Z.of_nat (List.length l).

(** [l[i]] with Python's negative indices. *)
Definition py_index {A} (l : list A) (i : Z) : res A :=
  let j := if i <? 0 then len l + i else i in
  if j <? 0 then Exc (IndexError "list index out of range")
  else match nth_error l (Z.to_nat j) with
       | Some a => Val a
       | None => Exc (IndexError "list index out of range")
       end.

(** [a % b] on Python ints: the sign of the divisor, as [Z.modulo]. *)
Definition py_mod (a b : Z) : res Z :=
  if b =? 0 then Exc (ZeroDivisionError "integer division or modulo by zero")
  else Val (a mod b).

Definition set_current (t : tables) : M unit :=
  fun s => (Val tt, mkSession (committed s) t (faults s)
                              (customers_held s) (reservations_held s)).

Definition get_current : M tables := fun s => (Val (current s), s).

(** One round trip to the database. *)
Definition db_roundtrip : M unit :=
  fun s => match faults s with
           | Some msg :: rest =>
               (Exc (DBError msg),
                mkSession (committed s) (current s) rest
                          (customers_held s) (reservations_held s))
           | None :: rest =>
               (Val tt,
                mkSession (committed s) (current s) rest
                          (customers_held s) (reservations_held s))
           | [] => (Val tt, s)
           end.

(** Where a sequence stands once the transaction is given up: at the value
    held aside by a restart that has not been committed, else where the
    session has left it. *)
Definition live (held : option Z) (seq : Z) : Z :=
  match held with Some v => v | None => seq end.

(** The tables a session sees once its transaction is given up: the
    persisted rows, and the sequences of the database. *)
Definition rolled_back (s : session) : tables :=
  mkTables (customers (committed s)) (reservations (committed s))
           (live (customers_held s) (customers_seq (current s)))
           (live (reservations_held s) (reservations_seq (current s))).

Definition rollback : M unit :=
  fun s => (Val tt, mkSession (committed s) (rolled_back s) (faults s) None None).

(** [SessionLocal()]: a fresh session over the persisted tables; the
    session of the request before has been closed. *)
Definition SessionLocal : M unit := rollback.

Definition commit : M unit :=
  (db_roundtrip ;;
   fun s => (Val tt, mkSession (current s) (current s) (faults s) None None))%M.

(** [session.close()] releases the connection; uncommitted work is lost. *)
Definition close : M unit := rollback.

(** RESTART IDENTITY on a sequence: the first restart of a transaction
    holds the value aside. *)
Definition hold (held : option Z) (seq : Z) : option Z :=
  match held with Some v => Some v | None => Some seq end.

Definition hold_customers : M unit :=
  fun s => (Val tt, mkSession (committed s) (current s) (faults s)
                              (hold (customers_held s) (customers_seq (current s)))
                              (reservations_held s)).

Definition hold_reservations : M unit :=
  fun s => (Val tt, mkSession (committed s) (current s) (faults s)
                              (customers_held s)
                              (hold (reservations_held s)
                                    (reservations_seq (current s)))).

(** [TRUNCATE TABLE reservations RESTART IDENTITY CASCADE]. *)
Definition truncate_reservations : M unit :=
  (db_roundtrip ;;
   hold_reservations ;;
   t <- get_current ;;
   set_current (mkTables (customers t) [] (customers_seq t) 1))%M.

(** [TRUNCATE TABLE customers RESTART IDENTITY CASCADE]: the reservations
    reference the customers and go with them. *)
Definition truncate_customers : M unit :=
  (db_roundtrip ;;
   hold_customers ;;
   hold_reservations ;;
   set_current (mkTables [] [] 1 1))%M.

(** [Customer.email.like("%@example.com")]. *)
Definition ends_with (suffix s : string) : bool :=
  let n := String.length s in
  let m := String.length suffix in
  (m <=? n)%nat && String.eqb (substring (n - m) m s) suffix.

Definition is_demo_email (e : string) : bool := ends_with "@example.com" e.

(** [order_by(Customer.id)]. *)
Fixpoint insert_by_id (c : Customer) (l : list Customer) : list Customer :=
  match l with
  | [] => [c]
  | x :: l' => if c_id c <=? c_id x then c :: l else x :: insert_by_id c l'
  end.

Definition order_by_id (l : list Customer) : list Customer :=
  fold_right insert_by_id [] l.

Definition query_demo_emails : M (list string) :=
  (db_roundtrip ;;
   t <- get_current ;;
   ret (map c_email (filter (fun c => is_demo_email (c_email c)) (customers t))))%M.

Definition query_demo_customers : M (list Customer) :=
  (db_roundtrip ;;
   t <- get_current ;;
   ret (order_by_id (filter (fun c => is_demo_email (c_email c)) (customers t))))%M.

(** [session.query(Reservation.id).filter_by(time_slot=dt,
    table_number=table_n).first()], as a truth value.  Two slots are told
    apart by their wall-clock fields, as the module builds and compares
    them; the database compares their instants, which differ as the fields
    do unless one of the two falls in an hour that the zone skips (the
    night daylight saving time starts). *)
Definition query_reservation_exists (dt : datetime) (table_n : Z) : M bool :=
  (db_roundtrip ;;
   t <- get_current ;;
   ret (existsb (fun r => (r_time_slot r =? dt) && (r_table_number r =? table_n))
                (reservations t)))%M.

(** [session.add(Customer(...))] / [session.add(Reservation(...))]: the row
    takes the next identity value. *)
Definition add_customer (d : string * string * string * bool) : M unit :=
  let '(n, e, p, ns) := d in
  (t <- get_current ;;
   set_current (mkTables (customers t ++ [mkCustomer (customers_seq t) n e p ns])
                         (reservations t) (customers_seq t + 1) (reservations_seq t)))%M.

Definition add_all (ds : list (string * string * string * bool)) : M unit :=
  foldM (fun _ d => add_customer d) ds tt.

Definition flush : M unit := db_roundtrip.

Definition add_reservation (customer_id party_size : Z) (time_slot : datetime)
           (table_number : Z) : M unit :=
  (t <- get_current ;;
   set_current (mkTables (customers t)
                         (reservations t ++
                            [mkReservation (reservations_seq t) customer_id party_size
                                           time_slot table_number])
                         (customers_seq t) (reservations_seq t + 1)))%M.

(** ** JSON values of the responses *)

Inductive json : Type :=
| JBool (b : bool)
| JInt (z : Z)
| JStr (s : string).

Definition dict := list (string * json).

Record response : Type := mkResponse { body : dict; status : Z }.

(** The request: the [X-Admin-Token] header and the query parameters, the
    integer ones as [int(...)] converts them (a parameter that is not an
    integer makes [int] raise before the session is opened). *)
Record request : Type := mkRequest
  { x_admin_token : option string;
    int_args : string -> option Z;
    str_args : string -> option string }.

Definition get_int (req : request) (name : string) (default : Z) : Z :=
  match int_args req name with Some v => v | None => default end.

Definition get_str (req : request) (name : string) (default : string) : string :=
  match str_args req name with Some v => v | None => default end.

Definition lower_ascii (c : ascii) : ascii :=
  let n := nat_of_ascii c in
  if (65 <=? n)%nat && (n <=? 90)%nat then ascii_of_nat (n + 32) else c.

(** [str.lower()], on the ASCII letters: no other character lowers to a
    letter of ["true"]. *)
Fixpoint lower (s : string) : string :=
  match s with
  | EmptyString => EmptyString
  | String c s' => String (lower_ascii c) (lower s')
  end.

(** ** The module *)

Definition MAX_PER_SLOT : Z := 30.

Definition demo_data : list (string * string * string * bool) :=
  [ ("Avery Chen",  "avery.chen@example.com",  "202-555-0101", true);
    ("Jordan Patel","jordan.patel@example.com","202-555-0102", false);
    ("Riley Nguyen","riley.nguyen@example.com","202-555-0103", true);
    ("Samira Ali",  "samira.ali@example.com",  "202-555-0104", false);
    ("Diego Romero","diego.romero@example.com","202-555-0105", false);
    ("Priya Shah",  "priya.shah@example.com",  "202-555-0106", true);
    ("Maya Thompson","maya.thompson@example.com","202-555-0107", true);
    ("Ethan Rivera","ethan.rivera@example.com","202-555-0108", false);
    ("Zoe Park",    "zoe.park@example.com",    "202-555-0109", true);
    ("Leo Carter",  "leo.carter@example.com",  "202-555-0110", false) ].

Definition demo_email (d : string * string * string * bool) : string :=
  let '(_, e, _, _) := d in e.

Definition mem_str (e : string) (l : list string) : bool :=
  existsb (String.eqb e) l.

Definition _ensure_demo_customers : M (list Customer) :=
  (existing <- query_demo_emails ;;
   let to_add := filter (fun d => negb (mem_str (demo_email d) existing)) demo_data in
   (match to_add with
    | [] => ret tt
    | _ :: _ => add_all to_add ;; flush
    end) ;;
   query_demo_customers)%M.

Definition party_pattern : list Z := [2; 4; 3; 5; 2; 6].

(** The body of the [for table_n in range(...)] loops of the seeder and of
    [_fill_slot]; [created] is the running counter. *)
Definition seed_table (customers : list Customer) (dt : datetime)
           (created : Z) (table_n : Z) : M Z :=
  (found <- query_reservation_exists dt table_n ;;
   if found then ret created
   else
     i <- lift (py_mod (table_n - 1) (len customers)) ;;
     c <- lift (py_index customers i) ;;
     j <- lift (py_mod (table_n - 1) (len party_pattern)) ;;
     ps <- lift (py_index party_pattern j) ;;
     add_reservation (c_id c) ps dt table_n ;;
     ret (created + 1))%M.

Section SeedRoutes.

(** [datetime.now(LOCAL_TZ).date()], the shared secret, and
    [datetime.isoformat] for the zone of the deployment. *)
Variable today : date.
Variable ADMIN_TOKEN : string.
Variable isoformat : datetime -> string.

(** The target occupancy of a slot. *)
Definition slot_target (mode : string) (fully_book_demo : bool)
           (full_day_idx d : Z) (dt : datetime) : Z :=
  let full_slot_hour := 19 in
  let full_slot_min := 0 in
  if String.eqb mode "small" then Z.min 3 MAX_PER_SLOT
  else if fully_book_demo && (d =? full_day_idx) && (dt_hour dt =? full_slot_hour)
          && (dt_minute dt =? full_slot_min)
  then MAX_PER_SLOT
  else
    let h := dt_hour dt in
    if h <? 18 then 8
    else if h =? 18 then 12
    else if h =? 19 then 18
    else if h =? 20 then 16
    else 10.

(** One slot: [acc] is [(created_slots, created_res)]. *)
Definition seed_slot (customers : list Customer) (mode : string)
           (fully_book_demo : bool) (full_day_idx d : Z)
           (acc : Z * Z) (dt : datetime) : M (Z * Z) :=
  let '(created_slots, created_res) := acc in
  let target := slot_target mode fully_book_demo full_day_idx d dt in
  (seeded_this_slot <-
       foldM (seed_table customers dt) (range 1 (Z.min target MAX_PER_SLOT + 1)) 0 ;;
   let created_res := created_res + seeded_this_slot in
   if seeded_this_slot >? 0
   then ret (created_slots + 1, created_res)
   else ret (created_slots, created_res))%M.

(** One day of the outer loop. *)
Definition seed_day (fuel : nat) (customers : list Customer)
           (start_hour end_hour step_minutes : Z) (mode : string)
           (fully_book_demo : bool) (full_day_idx : Z)
           (acc : Z * Z) (d : Z) : M (Z * Z) :=
  (td <- lift (timedelta d 0) ;;
   day <- lift (date_add today td) ;;
   slots <- lift (_slots_for_day fuel day start_hour end_hour step_minutes) ;;
   foldM (seed_slot customers mode fully_book_demo full_day_idx d) slots acc)%M.

Definition _seed_reservations (fuel : nat)
           (days start_hour end_hour step_minutes : Z) (mode : string)
           (fully_book_demo : bool) : M dict :=
  (customers <- _ensure_demo_customers ;;
   match customers with
   | [] => ret [("created_slots", JInt 0); ("created_reservations", JInt 0)]
   | _ :: _ =>
       let full_day_idx := Z.min 2 (Z.max 0 (days - 1)) in
       acc <- foldM (seed_day fuel customers start_hour end_hour step_minutes
                              mode fully_book_demo full_day_idx)
                    (range 0 days) (0, 0) ;;
       ret [("created_slots", JInt (fst acc));
            ("created_reservations", JInt (snd acc))]
   end)%M.

Definition unauthorized : response :=
  mkResponse [("error", JStr "unauthorized")] 401.

Definition server_error (e : exn) : response :=
  mkResponse [("ok", JBool false); ("error", JStr (str e))] 500.

(** [token != ADMIN_TOKEN], where a missing header reads as [None]. *)
Definition token_differs (token : option string) : bool :=
  match token with
  | Some t => negb (String.eqb t ADMIN_TOKEN)
  | None => true
  end.

Definition admin_seed (fuel : nat) (req : request) : M response :=
  let token := x_admin_token req in
  if token_differs token then ret unauthorized
  else
    let days := get_int req "days" 7 in
    let start_hour := get_int req "start_hour" 17 in
    let end_hour := get_int req "end_hour" 23 in
    let step := get_int req "step" 30 in
    let fully_book_demo :=
      String.eqb (lower (get_str req "fully_book_demo" "true")) "true" in
    let wipe_customers :=
      String.eqb (lower (get_str req "wipe_customers" "false")) "true" in
    (SessionLocal ;;
     try_finally
       (try_except
          (truncate_reservations ;;
           (if wipe_customers then truncate_customers else ret tt) ;;
           commit ;;
           result <- _seed_reservations fuel days start_hour end_hour step
                                        "normal" fully_book_demo ;;
           commit ;;
           ret (mkResponse ([("ok", JBool true);
                             ("wiped_customers", JBool wipe_customers)]
                              ++ result) 200))
          (fun e => rollback ;; ret (server_error e)))
       close)%M.

Definition admin_small_seed (fuel : nat) (req : request) : M response :=
  let token := x_admin_token req in
  if token_differs token then ret unauthorized
  else
    let days := get_int req "days" 1 in
    let start_hour := get_int req "start_hour" 17 in
    let end_hour := get_int req "end_hour" 23 in
    let step := get_int req "step" 30 in
    let wipe_customers :=
      String.eqb (lower (get_str req "wipe_customers" "false")) "true" in
    (SessionLocal ;;
     try_finally
       (try_except
          (truncate_reservations ;;
           (if wipe_customers then truncate_customers else ret tt) ;;
           commit ;;
           result <- _seed_reservations fuel days start_hour end_hour step
                                        "small" false ;;
           commit ;;
           ret (mkResponse ([("ok", JBool true);
                             ("wiped_customers", JBool wipe_customers)]
                              ++ result) 200))
          (fun e => rollback ;; ret (server_error e)))
       close)%M.

(** [_fill_slot(dt, target_tables)] of the capacity scenario. *)
Definition _fill_slot (customers : list Customer) (dt : datetime)
           (target_tables : Z) : M Z :=
  foldM (seed_table customers dt) (range 1 (target_tables + 1)) 0.

Definition _seed_capacity_scenario (day_offset hour minute step_minutes : Z)
  : M dict :=
  (customers <- _ensure_demo_customers ;;
   match customers with
   | [] => ret [("error", JStr "no demo customers available")]
   | _ :: _ =>
       td <- lift (timedelta day_offset 0) ;;
       base_day <- lift (date_add today td) ;;
       t <- lift (time hour minute) ;;
       let slot_full := combine base_day t in
       ts <- lift (timedelta 0 step_minutes) ;;
       slot_almost <- lift (dt_add slot_full ts) ;;
       truncate_reservations ;;
       commit ;;
       created_full <- _fill_slot customers slot_full 30 ;;
       created_almost <- _fill_slot customers slot_almost 29 ;;
       commit ;;
       ret [("ok", JBool true);
            ("slot_full", JStr (isoformat slot_full));
            ("slot_almost", JStr (isoformat slot_almost));
            ("created_full", JInt created_full);
            ("created_almost", JInt created_almost);
            ("note", JStr "slot_full has 30 reservations; slot_almost has 29.")]
   end)%M.

Definition admin_seed_capacity (req : request) : M response :=
  let token := x_admin_token req in
  let day_offset := get_int req "day" 0 in
  let hour := get_int req "hour" 19 in
  let minute := get_int req "minute" 0 in
  let step_minutes := get_int req "step" 30 in
  (SessionLocal ;;
   try_finally
     (try_except
        (result <- _seed_capacity_scenario day_offset hour minute step_minutes ;;
         ret (mkResponse result 200))
        (fun e => rollback ;; ret (server_error e)))
     close)%M.

End SeedRoutes.

(** ** Sample data *)

(** 2026-11-04. *)
Definition a_day : date := 739924.

Definition a_customer : Customer :=
  mkCustomer 1 "Avery Chen" "avery.chen@example.com" "202-555-0101" true.

(** Table 4 at 19:00 on [a_day], booked by [a_customer]. *)
Definition a_reservation : Reservation :=
  mkReservation 1 1 2 (combine a_day (19 * 60)) 4.

Definition booked_tables : tables := mkTables [a_customer] [a_reservation] 2 2.

(** A session over [booked_tables] with a healthy database. *)
Definition booked_session : session :=
  mkSession booked_tables booked_tables [] None None.

(** The same, where the third round trip to the database fails. *)
Definition failing_session : session :=
  mkSession booked_tables booked_tables [None; None; Some "connection lost"]
            None None.

Definition no_iso (t : datetime) : string := "".

(** A request with no header and no parameter, and one with the secret. *)
Definition anonymous_request : request :=
  mkRequest None (fun _ => None) (fun _ => None).

Definition admin_request : request :=
  mkRequest (Some "dev-secret-123") (fun _ => None) (fun _ => None).

(** A session with a customer and no reservation. *)
Definition quiet_session : session :=
  mkSession (mkTables [a_customer] [] 2 1) (mkTables [a_customer] [] 2 1) []
            None None.

(** * Properties *)

(** ** Arithmetic of the [datetime] model *)

Ltac zbool :=
  repeat match goal with
         | |- context [?a >? ?b] => rewrite (Z.gtb_ltb a b)
         | |- context [?a <=? ?b] => destruct (Z.leb_spec a b)
         | |- context [?a <? ?b] => destruct (Z.ltb_spec a b)
         | |- context [?a =? ?b] => destruct (Z.eqb_spec a b)
         end; simpl; try lia.

Lemma as_c_int_ok (v : Z) :
  -2147483648 <= v <= 2147483647 -> as_c_int v = Val v.
Proof. intros H. unfold as_c_int. zbool; reflexivity. Qed.

Lemma time_ok (h : Z) : 0 <= h <= 23 -> time h 0 = Val (h * 60).
Proof.
  intros H. unfold time. rewrite as_c_int_ok by lia. simpl.
  zbool. f_equal. lia.
Qed.

Lemma time_hm_ok (h m : Z) :
  0 <= h <= 23 -> 0 <= m <= 59 -> time h m = Val (h * 60 + m).
Proof.
  intros Hh Hm. unfold time. rewrite !as_c_int_ok by lia. simpl.
  zbool. reflexivity.
Qed.

Lemma time_bad_hour (h : Z) : h < 0 \/ 23 < h -> exists e, time h 0 = Exc e.
Proof.
  intros H. unfold time, as_c_int.
  zbool; simpl; eauto; zbool; eauto.
Qed.

Lemma timedelta_minutes_ok (m : Z) :
  -999999999 * 1440 <= m < 1000000000 * 1440 -> timedelta 0 m = Val m.
Proof.
  intros H. unfold timedelta. cbv zeta.
  replace (0 * 1440 + m) with m by lia.
  assert (-999999999 <= m / 1440 <= 999999999).
  { split.
    - apply Z.div_le_lower_bound; lia.
    - apply Z.lt_succ_r. apply Z.div_lt_upper_bound; lia. }
  zbool; reflexivity.
Qed.

Lemma timedelta_days_ok (d : Z) :
  -999999999 <= d <= 999999999 -> timedelta d 0 = Val (d * 1440).
Proof.
  intros H. unfold timedelta. cbv zeta.
  replace (d * 1440 + 0) with (d * 1440) by lia.
  rewrite Z.div_mul by lia.
  zbool; reflexivity.
Qed.

Lemma dt_add_ok (t td : Z) :
  MINDT <= t + td <= MAXDT -> dt_add t td = Val (t + td).
Proof.
  intros H. unfold dt_add, valid_datetimeb. cbv zeta. zbool; reflexivity.
Qed.

Lemma dt_add_overflow (t td : Z) :
  t + td < MINDT \/ MAXDT < t + td ->
  dt_add t td = Exc (OverflowError "date value out of range").
Proof.
  intros H. unfold dt_add, valid_datetimeb. cbv zeta. zbool; reflexivity.
Qed.

Lemma date_add_ok (d k : Z) :
  MINORD <= d + k <= MAXORD -> date_add d (k * 1440) = Val (d + k).
Proof.
  intros H. unfold date_add, valid_dateb. cbv zeta.
  rewrite Z.div_mul by lia. zbool; reflexivity.
Qed.

Lemma timedelta_minutes_val (m td : Z) : timedelta 0 m = Val td -> td = m.
Proof.
  unfold timedelta. cbv zeta. intros E.
  repeat match type of E with
         | (if ?c then _ else _) = _ => destruct c; try discriminate
         end.
  injection E as <-. lia.
Qed.

Lemma timedelta_terminates (d m : Z) : timedelta d m <> OutOfFuel.
Proof.
  unfold timedelta. cbv zeta.
  repeat match goal with
         | |- (if ?c then _ else _) <> _ => destruct c; try discriminate
         end.
Qed.

Lemma time_terminates (h m : Z) : time h m <> OutOfFuel.
Proof.
  unfold time, as_c_int.
  repeat match goal with
         | |- context [if ?c then _ else _] => destruct c; cbn [rbind]; try discriminate
         end.
Qed.

(** ** The slot generator *)

(** The instants [cur, cur + step, ...], [n] of them. *)
Definition stepped (cur step : Z) (n : nat) : list datetime :=
  map (fun k => cur + Z.of_nat k * step) (seq 0 n).

Lemma stepped_S (cur step : Z) (n : nat) :
  stepped cur step (S n) = cur :: stepped (cur + step) step n.
Proof.
  unfold stepped. simpl. f_equal; [lia|].
  rewrite <- seq_shift, map_map. apply map_ext. intros k. lia.
Qed.

Lemma stepped_length cur step n : List.length (stepped cur step n) = n.
Proof. unfold stepped. now rewrite length_map, length_seq. Qed.

Lemma stepped_In cur step n t :
  In t (stepped cur step n) <->
  exists k, (k < n)%nat /\ t = cur + Z.of_nat k * step.
Proof.
  unfold stepped. rewrite in_map_iff. split.
  - intros (k & <- & Hk). apply in_seq in Hk. exists k. split; [lia|reflexivity].
  - intros (k & Hk & ->). exists k. split; [reflexivity|]. apply in_seq. lia.
Qed.

Lemma stepped_sorted cur step n :
  0 < step -> StronglySorted Z.lt (stepped cur step n).
Proof.
  intros Hs. revert cur. induction n as [|n IH]; intros cur.
  - constructor.
  - rewrite stepped_S. constructor; [apply IH|].
    apply Forall_forall. intros t Ht. apply stepped_In in Ht.
    destruct Ht as (k & _ & ->). nia.
Qed.

Lemma stepped_last cur step n d :
  last (stepped cur step (S n)) d = cur + Z.of_nat n * step.
Proof.
  revert cur. induction n as [|n IH]; intros cur.
  - simpl. lia.
  - rewrite stepped_S.
    change (last (cur :: stepped (cur + step) step (S n)) d)
      with (match stepped (cur + step) step (S n) with
            | [] => cur
            | _ :: _ => last (stepped (cur + step) step (S n)) d
            end).
    rewrite (stepped_S (cur + step)) at 1. rewrite IH. lia.
Qed.

(** The loop with [n] iterations left: every cursor up to the one that
    leaves the window must be a representable datetime. *)
Lemma slots_loop_run (n : nat) :
  forall fuel end_ step cur acc,
    0 < step ->
    MINDT <= cur ->
    cur + Z.of_nat n * step <= MAXDT ->
    cur + (Z.of_nat n - 1) * step <= end_ < cur + Z.of_nat n * step ->
    (n < fuel)%nat ->
    slots_loop fuel end_ step cur acc = Val (acc ++ stepped cur step n).
Proof.
  induction n as [|n IH]; intros fuel end_ step cur acc Hs Hlo Hhi Hwin Hf.
  - destruct fuel as [|fuel]; [lia|]. simpl.
    destruct (Z.leb_spec cur end_); [lia|].
    unfold stepped. simpl. now rewrite app_nil_r.
  - destruct fuel as [|fuel]; [lia|].
    cbn [slots_loop].
    destruct (Z.leb_spec cur end_); [|nia].
    assert (Hstep : step <= MAXDT - MINDT) by nia.
    rewrite timedelta_minutes_ok by (unfold MAXDT, MINDT, MAXORD, MINORD in *; lia).
    cbn [rbind]. rewrite dt_add_ok by nia. cbn [rbind].
    rewrite IH; try lia; try nia.
    rewrite stepped_S, <- app_assoc. reflexivity.
Qed.

(** The loop leaves as soon as the cursor is past the end. *)
Lemma slots_loop_past fuel end_ step cur acc :
  end_ < cur -> slots_loop (S fuel) end_ step cur acc = Val acc.
Proof. intros H. simpl. destruct (Z.leb_spec cur end_); [lia|reflexivity]. Qed.

(** With a zero step the cursor never moves. *)
Lemma slots_loop_zero_step fuel :
  forall end_ cur acc,
    MINDT <= cur <= MAXDT -> cur <= end_ ->
    slots_loop fuel end_ 0 cur acc = OutOfFuel.
Proof.
  induction fuel as [|fuel IH]; intros end_ cur acc Hv Hle; [reflexivity|].
  cbn [slots_loop]. destruct (Z.leb_spec cur end_); [|lia].
  rewrite timedelta_minutes_ok by lia. cbn [rbind].
  rewrite dt_add_ok by lia. cbn [rbind].
  replace (cur + 0) with cur by lia. apply IH; assumption.
Qed.

(** With a positive step the loop is over within [end - cur + 2] rounds. *)
Lemma slots_loop_terminates_pos (k : nat) :
  forall fuel end_ step cur acc,
    0 < step -> end_ - cur < Z.of_nat k -> (k < fuel)%nat ->
    slots_loop fuel end_ step cur acc <> OutOfFuel.
Proof.
  induction k as [|k IH]; intros fuel end_ step cur acc Hs Hk Hf;
    (destruct fuel as [|fuel]; [lia|]); cbn [slots_loop];
    destruct (Z.leb_spec cur end_); try lia; try discriminate.
  destruct (timedelta 0 step) as [td| |] eqn:Etd; cbn [rbind]; try discriminate.
  - apply timedelta_minutes_val in Etd. subst td.
    unfold dt_add. cbv zeta. destruct (valid_datetimeb (cur + step));
      cbn [rbind]; [|discriminate].
    apply IH; lia.
  - now apply timedelta_terminates in Etd.
Qed.

(** With a negative step the cursor runs down to [datetime.min] and the
    addition raises; the loop never returns a list. *)
Lemma slots_loop_neg_raises (k : nat) :
  forall fuel end_ step cur acc,
    step < 0 -> cur <= end_ -> cur - MINDT < Z.of_nat k -> (k <= fuel)%nat ->
    (0 < fuel)%nat ->
    exists e, slots_loop fuel end_ step cur acc = Exc e.
Proof.
  induction k as [|k IH]; intros fuel end_ step cur acc Hs Hle Hk Hf Hpos;
    (destruct fuel as [|fuel]; [lia|]); cbn [slots_loop];
    (destruct (Z.leb_spec cur end_); [|lia]);
    (destruct (timedelta 0 step) as [td| |] eqn:Etd; cbn [rbind]; eauto;
     [|now apply timedelta_terminates in Etd]);
    apply timedelta_minutes_val in Etd; subst td.
  - rewrite dt_add_overflow by lia. cbn [rbind]. eauto.
  - unfold dt_add. cbv zeta.
    destruct (valid_datetimeb (cur + step)) eqn:Ev; cbn [rbind]; eauto.
    unfold valid_datetimeb in Ev. apply andb_prop in Ev. destruct Ev as [E1 E2].
    apply Z.leb_le in E1.
    destruct fuel as [|fuel]; [lia|].
    apply IH; lia.
Qed.

(** When the instant one step after the last slot is not a representable
    datetime, the loop ends in OverflowError: the hypothesis of
    [slots_loop_run] on the last cursor cannot be dropped. *)
Lemma slots_loop_overflows (n : nat) :
  forall fuel end_ step cur acc,
    0 < step -> MINDT <= cur -> end_ <= MAXDT ->
    cur + Z.of_nat n * step <= end_ ->
    MAXDT < cur + (Z.of_nat n + 1) * step ->
    (n < fuel)%nat ->
    exists msg, slots_loop fuel end_ step cur acc = Exc (OverflowError msg).
Proof.
  induction n as [|n IH]; intros fuel end_ step cur acc Hs Hlo Hend Hin Hout Hf;
    (destruct fuel as [|fuel]; [lia|]); cbn [slots_loop];
    (destruct (Z.leb_spec cur end_); [|nia]).
  - destruct (timedelta 0 step) as [td|e|] eqn:Etd; cbn [rbind].
    + apply timedelta_minutes_val in Etd. subst td.
      rewrite dt_add_overflow by lia. cbn [rbind]. eauto.
    + unfold timedelta in Etd. cbv zeta in Etd.
      repeat match type of Etd with
             | (if ?c then _ else _) = _ => destruct c; try discriminate
             end; injection Etd as <-; eauto.
    + now apply timedelta_terminates in Etd.
  - rewrite timedelta_minutes_ok
      by (unfold MAXDT, MINDT, MAXORD, MINORD in *; nia).
    cbn [rbind]. rewrite dt_add_ok by nia. cbn [rbind].
    apply IH; try lia; nia.
Qed.

Lemma slots_for_day_overflows fuel day sh eh step :
  valid_date day -> 0 <= sh -> sh <= eh -> eh <= 23 -> 0 < step ->
  MAXDT < combine day (sh * 60) + ((eh - sh) * 60 / step + 1) * step ->
  (Z.to_nat ((eh - sh) * 60 / step + 1) <= fuel)%nat ->
  exists msg, _slots_for_day fuel day sh eh step = Exc (OverflowError msg).
Proof.
  intros Hd Hsh Hle Heh Hs Hmax Hf.
  unfold _slots_for_day. rewrite !time_ok by lia. cbn [rbind].
  set (q := (eh - sh) * 60 / step) in *.
  assert (Hq0 : 0 <= q) by (apply Z.div_pos; lia).
  assert (Hq1 : step * q <= (eh - sh) * 60) by (apply Z.mul_div_le; lia).
  unfold valid_date, MINORD, MAXORD in Hd. unfold combine in *.
  apply (slots_loop_overflows (Z.to_nat q));
    unfold MINDT, MAXDT, MINORD, MAXORD in *; try lia; nia.
Qed.

Lemma slots_for_day_closed_form fuel day sh eh step :
  valid_date day -> 0 <= sh -> sh <= eh -> eh <= 23 -> 0 < step ->
  combine day (sh * 60) + ((eh - sh) * 60 / step + 1) * step <= MAXDT ->
  (Z.to_nat ((eh - sh) * 60 / step + 1) < fuel)%nat ->
  _slots_for_day fuel day sh eh step =
  Val (stepped (combine day (sh * 60)) step (Z.to_nat ((eh - sh) * 60 / step + 1))).
Proof.
  intros Hd Hsh Hle Heh Hs Hmax Hf.
  unfold _slots_for_day. rewrite !time_ok by lia. cbn [rbind].
  set (q := (eh - sh) * 60 / step) in *.
  assert (Hq0 : 0 <= q) by (apply Z.div_pos; lia).
  assert (Hq1 : step * q <= (eh - sh) * 60) by (apply Z.mul_div_le; lia).
  assert (Hq2 : (eh - sh) * 60 < step * Z.succ q) by (apply Z.mul_succ_div_gt; lia).
  unfold valid_date, MINORD in Hd. unfold combine in *.
  rewrite (slots_loop_run (Z.to_nat (q + 1))); try assumption.
  - reflexivity.
  - unfold MINDT, MINORD. lia.
  - rewrite Z2Nat.id by lia. exact Hmax.
  - rewrite Z2Nat.id by lia. nia.
Qed.

(** C3 (amended): for a day of the calendar, hours 0 <= start_hour <=
    end_hour <= 23 and a step > 0 such that the instant one step after the
    last slot is still a representable datetime, the slot generator returns
    exactly floor((end_hour - start_hour) * 60 / step) + 1 timestamps, in
    increasing order, the first at start_hour:00 of the day, the last at most
    end_hour:00, and end_hour:00 itself when it falls on a step boundary. *)
Theorem slots_for_day_count :
  forall fuel day sh eh step,
    valid_date day -> 0 <= sh -> sh <= eh -> eh <= 23 -> 0 < step ->
    combine day (sh * 60) + ((eh - sh) * 60 / step + 1) * step <= MAXDT ->
    (Z.to_nat ((eh - sh) * 60 / step + 1) < fuel)%nat ->
    exists slots,
      _slots_for_day fuel day sh eh step = Val slots /\
      len slots = (eh - sh) * 60 / step + 1 /\
      StronglySorted Z.lt slots /\
      hd_error slots = Some (combine day (sh * 60)) /\
      last slots 0 <= combine day (eh * 60) /\
      ((eh - sh) * 60 mod step = 0 -> last slots 0 = combine day (eh * 60)).
Proof.
  intros fuel day sh eh step Hd Hsh Hle Heh Hs Hmax Hf.
  rewrite slots_for_day_closed_form by assumption.
  eexists. split; [reflexivity|].
  set (q := (eh - sh) * 60 / step) in *.
  assert (Hq0 : 0 <= q) by (apply Z.div_pos; lia).
  assert (Hq1 : step * q <= (eh - sh) * 60) by (apply Z.mul_div_le; lia).
  assert (Hn : Z.to_nat (q + 1) = S (Z.to_nat q)) by lia.
  split; [|split; [|split; [|split]]].
  - unfold len. rewrite stepped_length. lia.
  - apply stepped_sorted. exact Hs.
  - rewrite Hn, stepped_S. reflexivity.
  - rewrite Hn, stepped_last. rewrite Z2Nat.id by lia. unfold combine. lia.
  - intros Hmod. rewrite Hn, stepped_last. rewrite Z2Nat.id by lia.
    assert ((eh - sh) * 60 = step * q).
    { unfold q. apply Z.div_exact; lia. }
    unfold combine. lia.
Qed.

Lemma slots_for_day_count_witness :
  exists slots,
    _slots_for_day 14 a_day 17 23 30 = Val slots /\
    len slots = (23 - 17) * 60 / 30 + 1 /\
    StronglySorted Z.lt slots /\
    hd_error slots = Some (combine a_day (17 * 60)) /\
    last slots 0 <= combine a_day (23 * 60) /\
    ((23 - 17) * 60 mod 30 = 0 -> last slots 0 = combine a_day (23 * 60)).
Proof.
  apply (slots_for_day_count 14 a_day 17 23 30); try lia.
  - unfold valid_date, a_day, MINORD, MAXORD. lia.
  - vm_compute. discriminate.
  - vm_compute. lia.
Defined.

(** C3, as stated, fails: on 2026-11-04 with the default window, a step of
    5000000000 minutes carries the cursor past [datetime.max] and the
    addition raises; with start_hour = end_hour = 24 the [time] constructor
    raises. *)
Lemma slots_for_day_count_fails :
  (17 <= 23 /\ 0 < 5000000000 /\
   forall fuel, _slots_for_day (S fuel) a_day 17 23 5000000000
                = Exc (OverflowError "date value out of range")) /\
  (24 <= 24 /\ 0 < 30 /\
   forall fuel, _slots_for_day fuel a_day 24 24 30
                = Exc (ValueError "hour must be in 0..23")).
Proof.
  repeat split; try lia; intros fuel; reflexivity.
Qed.

(** C4 (amended): for hours 0 <= end_hour < start_hour <= 23 the slot
    generator returns the empty sequence, whatever the day and the step. *)
Theorem slots_for_day_empty :
  forall fuel day sh eh step,
    0 <= eh -> eh < sh -> sh <= 23 ->
    _slots_for_day (S fuel) day sh eh step = Val [].
Proof.
  intros fuel day sh eh step H0 Hlt H23.
  unfold _slots_for_day. rewrite !time_ok by lia. cbn [rbind].
  apply slots_loop_past. unfold combine. lia.
Qed.

Lemma slots_for_day_empty_witness :
  _slots_for_day 1 a_day 23 17 30 = Val [].
Proof.
  apply (slots_for_day_empty 0 a_day 23 17 30); lia.
Defined.

(** C4, as stated, fails: with end_hour = 24 before start_hour = 25 the
    [time] constructor raises ValueError. *)
Lemma slots_for_day_empty_fails :
  24 < 25 /\
  forall fuel, _slots_for_day fuel a_day 25 24 30
               = Exc (ValueError "hour must be in 0..23").
Proof.
  split; [lia|]. intros fuel. reflexivity.
Qed.

Lemma slots_loop_neg_never_returns fuel :
  forall end_ step cur acc slots,
    step < 0 -> cur <= end_ ->
    slots_loop fuel end_ step cur acc <> Val slots.
Proof.
  induction fuel as [|fuel IH]; intros end_ step cur acc slots Hs Hle;
    [discriminate|].
  cbn [slots_loop]. destruct (Z.leb_spec cur end_); [|lia].
  destruct (timedelta 0 step) as [td| |] eqn:Etd; cbn [rbind]; try discriminate.
  apply timedelta_minutes_val in Etd. subst td.
  unfold dt_add. cbv zeta.
  destruct (valid_datetimeb (cur + step)); cbn [rbind]; [|discriminate].
  apply IH; lia.
Qed.

(** C9 (amended): the slot generator terminates for every input with a
    step other than 0, in a return or in an exception; with step 0, a day of
    the calendar and hours 0 <= start_hour <= end_hour <= 23 it does not
    terminate; with a negative step and such hours it never returns a list
    (the cursor moves away from the end bound until the datetime addition
    raises OverflowError). *)
Theorem slots_for_day_termination :
  forall day sh eh step,
    (step <> 0 ->
     exists fuel0, forall fuel, (fuel0 <= fuel)%nat ->
       _slots_for_day fuel day sh eh step <> OutOfFuel) /\
    (step = 0 -> valid_date day -> 0 <= sh -> sh <= eh -> eh <= 23 ->
     forall fuel, _slots_for_day fuel day sh eh step = OutOfFuel) /\
    (step < 0 -> 0 <= sh -> sh <= eh -> eh <= 23 ->
     forall fuel slots, _slots_for_day fuel day sh eh step <> Val slots).
Proof.
  intros day sh eh step. split; [|split].
  - intros Hs. unfold _slots_for_day.
    destruct (time sh 0) as [ts|e|] eqn:Es; cbn [rbind];
      [| exists O; intros; discriminate | now apply time_terminates in Es].
    destruct (time eh 0) as [te|e|] eqn:Ee; cbn [rbind];
      [| exists O; intros; discriminate | now apply time_terminates in Ee].
    set (cur := combine day ts). set (end_ := combine day te).
    destruct (Z.lt_trichotomy step 0) as [Hneg|[H0|Hpos]]; [|lia|].
    + destruct (Z.le_gt_cases cur end_) as [Hle|Hgt].
      * exists (S (Z.to_nat (cur - MINDT + 1))). intros fuel Hf.
        destruct (slots_loop_neg_raises (Z.to_nat (cur - MINDT + 1))
                    fuel end_ step cur [] Hneg Hle) as [e He]; try lia.
        rewrite He. discriminate.
      * exists 1%nat. intros fuel Hf. destruct fuel as [|fuel]; [lia|].
        rewrite slots_loop_past by lia. discriminate.
    + exists (S (Z.to_nat (end_ - cur + 1))). intros fuel Hf.
      apply (slots_loop_terminates_pos (Z.to_nat (end_ - cur + 1))); lia.
  - intros -> Hd Hsh Hle Heh fuel. unfold _slots_for_day.
    rewrite !time_ok by lia. cbn [rbind].
    unfold valid_date, MINORD, MAXORD in Hd.
    apply slots_loop_zero_step; unfold combine, MINDT, MAXDT, MINORD, MAXORD; lia.
  - intros Hs Hsh Hle Heh fuel slots. unfold _slots_for_day.
    rewrite !time_ok by lia. cbn [rbind].
    apply slots_loop_neg_never_returns; unfold combine; lia.
Qed.

Lemma slots_for_day_termination_witness :
  (exists fuel0, forall fuel, (fuel0 <= fuel)%nat ->
     _slots_for_day fuel a_day 17 23 30 <> OutOfFuel) /\
  (forall fuel, _slots_for_day fuel a_day 17 23 0 = OutOfFuel) /\
  (forall fuel slots, _slots_for_day fuel a_day 17 23 (-30) <> Val slots).
Proof.
  split; [|split].
  - apply (proj1 (slots_for_day_termination a_day 17 23 30)). lia.
  - apply (proj1 (proj2 (slots_for_day_termination a_day 17 23 0)));
      unfold valid_date, a_day, MINORD, MAXORD; lia.
  - apply (proj2 (proj2 (slots_for_day_termination a_day 17 23 (-30)))); lia.
Defined.

(** C9, as stated, fails: on 2026-11-04 with the default window and the
    step -5000000000 (at most 0, start_hour <= end_hour) the generator
    terminates: its first addition raises OverflowError. *)
Lemma slots_for_day_negative_step_terminates :
  17 <= 23 /\ -5000000000 <= 0 /\
  _slots_for_day 1 a_day 17 23 (-5000000000)
  = Exc (OverflowError "date value out of range").
Proof.
  split; [lia|]. split; [lia|]. reflexivity.
Qed.

(** ** Running the session monad *)

Lemma bind_val {A B} (m : M A) (k : A -> M B) s a s' :
  m s = (Val a, s') -> bind m k s = k a s'.
Proof. intros H. unfold bind. now rewrite H. Qed.

Lemma bind_exc {A B} (m : M A) (k : A -> M B) s e s' :
  m s = (Exc e, s') -> bind m k s = (Exc e, s').
Proof. intros H. unfold bind. now rewrite H. Qed.

Lemma bind_oof {A B} (m : M A) (k : A -> M B) s s' :
  m s = (OutOfFuel, s') -> bind m k s = (OutOfFuel, s').
Proof. intros H. unfold bind. now rewrite H. Qed.

Definition with_current (s : session) (t : tables) : session :=
  mkSession (committed s) t (faults s) (customers_held s) (reservations_held s).

Lemma with_current_same s : with_current s (current s) = s.
Proof. now destruct s. Qed.

Lemma db_roundtrip_ok s : faults s = [] -> db_roundtrip s = (Val tt, s).
Proof. intros H. unfold db_roundtrip. now rewrite H. Qed.

Definition demo_rows (t : tables) : list Customer :=
  filter (fun c => is_demo_email (c_email c)) (customers t).

Lemma query_demo_emails_ok s :
  faults s = [] ->
  query_demo_emails s = (Val (map c_email (demo_rows (current s))), s).
Proof.
  intros H. unfold query_demo_emails.
  rewrite (bind_val _ _ _ _ _ (db_roundtrip_ok s H)). reflexivity.
Qed.

Lemma query_demo_customers_ok s :
  faults s = [] ->
  query_demo_customers s = (Val (order_by_id (demo_rows (current s))), s).
Proof.
  intros H. unfold query_demo_customers.
  rewrite (bind_val _ _ _ _ _ (db_roundtrip_ok s H)). reflexivity.
Qed.

Definition has_reservation (t : tables) (dt : datetime) (table_n : Z) : bool :=
  existsb (fun r => (r_time_slot r =? dt) && (r_table_number r =? table_n))
          (reservations t).

Lemma query_reservation_exists_ok s dt n :
  faults s = [] ->
  query_reservation_exists dt n s = (Val (has_reservation (current s) dt n), s).
Proof.
  intros H. unfold query_reservation_exists.
  rewrite (bind_val _ _ _ _ _ (db_roundtrip_ok s H)). reflexivity.
Qed.

Definition insert_customer (t : tables) (d : string * string * string * bool)
  : tables :=
  let '(n, e, p, ns) := d in
  mkTables (customers t ++ [mkCustomer (customers_seq t) n e p ns])
           (reservations t) (customers_seq t + 1) (reservations_seq t).

Lemma add_customer_run d s :
  add_customer d s = (Val tt, with_current s (insert_customer (current s) d)).
Proof. destruct d as [[[n e] p] ns]. reflexivity. Qed.

Lemma add_all_run ds :
  forall s,
    add_all ds s = (Val tt, with_current s (fold_left insert_customer ds (current s))).
Proof.
  unfold add_all. induction ds as [|d ds IH]; intros s.
  - simpl. unfold ret. now rewrite with_current_same.
  - cbn [foldM fold_left].
    rewrite (bind_val _ _ _ _ _ (add_customer_run d s)).
    rewrite IH. reflexivity.
Qed.

Lemma insert_customers_emails ds :
  forall t,
    map c_email (customers (fold_left insert_customer ds t))
    = map c_email (customers t) ++ map demo_email ds.
Proof.
  induction ds as [|[[[n e] p] ns] ds IH]; intros t.
  - simpl. now rewrite app_nil_r.
  - cbn [fold_left]. rewrite IH. simpl. rewrite map_app, <- app_assoc. reflexivity.
Qed.

Lemma insert_customers_reservations ds :
  forall t, reservations (fold_left insert_customer ds t) = reservations t.
Proof.
  induction ds as [|[[[n e] p] ns] ds IH]; intros t; [reflexivity|].
  cbn [fold_left]. now rewrite IH.
Qed.

(** The demo entries whose email the table does not hold yet. *)
Definition missing_demo (t : tables) : list (string * string * string * bool) :=
  filter (fun d => negb (mem_str (demo_email d) (map c_email (demo_rows t))))
         demo_data.

Definition provisioned (t : tables) : tables :=
  fold_left insert_customer (missing_demo t) t.

Lemma ensure_demo_customers_run s :
  faults s = [] ->
  _ensure_demo_customers s
  = (Val (order_by_id (demo_rows (provisioned (current s)))),
     with_current s (provisioned (current s))).
Proof.
  intros H. unfold _ensure_demo_customers.
  rewrite (bind_val _ _ _ _ _ (query_demo_emails_ok s H)).
  fold (missing_demo (current s)). unfold provisioned.
  destruct (missing_demo (current s)) as [|d ds] eqn:E.
  - unfold bind at 1. unfold ret. cbn [fold_left].
    rewrite query_demo_customers_ok by assumption.
    now rewrite with_current_same.
  - unfold bind at 1. unfold bind at 1. rewrite add_all_run.
    unfold flush. rewrite db_roundtrip_ok by assumption.
    rewrite query_demo_customers_ok by assumption. reflexivity.
Qed.

(** ** The demo customer provisioner *)

Definition emails (t : tables) : list string := map c_email (customers t).

Lemma mem_str_In e l : mem_str e l = true <-> In e l.
Proof.
  unfold mem_str. rewrite existsb_exists. split.
  - intros (x & Hx & Heq). apply String.eqb_eq in Heq. now subst.
  - intros H. exists e. split; [assumption|apply String.eqb_refl].
Qed.

Lemma demo_rows_emails t :
  map c_email (demo_rows t) = filter is_demo_email (emails t).
Proof.
  unfold demo_rows, emails. induction (customers t) as [|c l IH]; [reflexivity|].
  simpl. destruct (is_demo_email (c_email c)); simpl; now rewrite IH.
Qed.

Lemma demo_data_emails_are_demo :
  forall d, In d demo_data -> is_demo_email (demo_email d) = true.
Proof.
  assert (H : forallb (fun d => is_demo_email (demo_email d)) demo_data = true)
    by reflexivity.
  intros d Hd. rewrite forallb_forall in H. now apply H.
Qed.

Lemma demo_data_emails_distinct : NoDup (map demo_email demo_data).
Proof.
  simpl. repeat (constructor; [simpl; intuition discriminate|]). constructor.
Qed.

(** Selecting demo entries keeps their emails distinct. *)
Lemma selected_emails_distinct (keep : string * string * string * bool -> bool) ds :
  NoDup (map demo_email ds) -> NoDup (map demo_email (filter keep ds)).
Proof.
  induction ds as [|d ds IH]; intros H; [constructor|].
  cbn [map filter] in *. inversion H as [|? ? Hd Hds]; subst.
  destruct (keep d); [|now apply IH].
  cbn [map]. constructor; [|now apply IH].
  intros Hin. apply Hd. apply in_map_iff in Hin. destruct Hin as (y & Hy & Hin).
  apply filter_In in Hin. apply in_map_iff. exists y. tauto.
Qed.

Lemma provisioned_emails t :
  emails (provisioned t) = emails t ++ map demo_email (missing_demo t).
Proof. unfold emails, provisioned. apply insert_customers_emails. Qed.

Lemma provisioned_reservations t :
  reservations (provisioned t) = reservations t.
Proof. apply insert_customers_reservations. Qed.

Lemma missing_demo_In t d :
  In d (missing_demo t) <->
  In d demo_data /\ ~ In (demo_email d) (emails t).
Proof.
  unfold missing_demo. rewrite filter_In. split.
  - intros [Hd Hm]. split; [assumption|]. intros Hin.
    apply negb_true_iff in Hm.
    assert (mem_str (demo_email d) (map c_email (demo_rows t)) = true).
    { apply mem_str_In. rewrite demo_rows_emails. apply filter_In.
      split; [assumption|]. now apply demo_data_emails_are_demo. }
    congruence.
  - intros [Hd Hm]. split; [assumption|]. apply negb_true_iff.
    destruct (mem_str (demo_email d) (map c_email (demo_rows t))) eqn:E;
      [|reflexivity].
    apply mem_str_In in E. rewrite demo_rows_emails in E.
    apply filter_In in E. tauto.
Qed.

(** After a run every demo email is in the table. *)
Lemma provisioned_has_demo t d :
  In d demo_data -> In (demo_email d) (emails (provisioned t)).
Proof.
  intros Hd. rewrite provisioned_emails. apply in_or_app.
  destruct (in_dec string_dec (demo_email d) (emails t)) as [Hin|Hnin].
  - now left.
  - right. apply in_map. apply missing_demo_In. tauto.
Qed.

Lemma missing_demo_provisioned t : missing_demo (provisioned t) = [].
Proof.
  destruct (missing_demo (provisioned t)) as [|d l] eqn:E; [reflexivity|].
  assert (Hd : In d (missing_demo (provisioned t))) by (rewrite E; now left).
  apply missing_demo_In in Hd. destruct Hd as [Hd Hn].
  exfalso. apply Hn. now apply provisioned_has_demo.
Qed.

(** A second run finds nothing to add. *)
Lemma provisioned_idempotent t : provisioned (provisioned t) = provisioned t.
Proof.
  unfold provisioned at 1. now rewrite missing_demo_provisioned.
Qed.

(** A run adds only emails the table does not hold, each once. *)
Lemma provisioned_NoDup t : NoDup (emails t) -> NoDup (emails (provisioned t)).
Proof.
  intros H. rewrite provisioned_emails. apply NoDup_app.
  - assumption.
  - unfold missing_demo. apply selected_emails_distinct, demo_data_emails_distinct.
  - intros e He Hin. apply in_map_iff in Hin. destruct Hin as (d & <- & Hd).
    apply missing_demo_In in Hd. tauto.
Qed.

Definition by_id (a b : Customer) : Prop := c_id a <= c_id b.

Lemma insert_by_id_perm c l : Permutation (c :: l) (insert_by_id c l).
Proof.
  induction l as [|x l IH]; [apply Permutation_refl|].
  simpl. destruct (c_id c <=? c_id x); [apply Permutation_refl|].
  eapply perm_trans; [apply perm_swap|]. now apply perm_skip.
Qed.

Lemma order_by_id_perm l : Permutation l (order_by_id l).
Proof.
  induction l as [|x l IH]; [constructor|].
  simpl. eapply perm_trans; [|apply insert_by_id_perm]. now apply perm_skip.
Qed.

Lemma insert_by_id_sorted c l :
  Sorted by_id l -> Sorted by_id (insert_by_id c l).
Proof.
  induction l as [|x l IH]; intros H.
  - repeat constructor.
  - simpl. destruct (Z.leb_spec (c_id c) (c_id x)).
    + constructor; [assumption|]. constructor. assumption.
    + inversion H as [|? ? Hl Hx]; subst. constructor; [now apply IH|].
      destruct l as [|y l]; simpl.
      * constructor. unfold by_id. lia.
      * destruct (Z.leb_spec (c_id c) (c_id y)); constructor; unfold by_id.
        -- lia.
        -- inversion Hx; subst. assumption.
Qed.

Lemma order_by_id_sorted l : Sorted by_id (order_by_id l).
Proof.
  induction l as [|x l IH]; [constructor|]. simpl. now apply insert_by_id_sorted.
Qed.

Lemma order_by_id_length {l} : List.length (order_by_id l) = List.length l.
Proof. symmetry. apply Permutation_length, order_by_id_perm. Qed.

(** C5: without database errors, from any state of the tables, two runs of
    the demo customer provisioner in sequence both return; the first adds
    only emails that the table did not hold, each once, so a table without
    duplicate emails has none after either run; the second run changes
    nothing and returns the same list, so the sizes agree; and each run
    returns all the rows with a demo email that the table then holds, the
    ten demo emails among them, ordered by identifier. *)
Theorem ensure_demo_customers_idempotent :
  forall s,
    faults s = [] ->
    exists cs1 s1 cs2 s2,
      _ensure_demo_customers s = (Val cs1, s1) /\
      _ensure_demo_customers s1 = (Val cs2, s2) /\
      (exists added,
          emails (current s1) = emails (current s) ++ added /\
          NoDup added /\
          forall e, In e added -> ~ In e (emails (current s))) /\
      (NoDup (emails (current s)) ->
       NoDup (emails (current s1)) /\ NoDup (emails (current s2))) /\
      s2 = s1 /\ cs2 = cs1 /\ len cs1 = len cs2 /\
      Permutation cs1 (demo_rows (current s1)) /\ Sorted by_id cs1 /\
      Permutation cs2 (demo_rows (current s2)) /\ Sorted by_id cs2 /\
      (forall d, In d demo_data -> In (demo_email d) (map c_email cs1)).
Proof.
  intros s Hf.
  set (s1 := with_current s (provisioned (current s))).
  assert (Hf1 : faults s1 = []) by exact Hf.
  assert (E1 := ensure_demo_customers_run s Hf).
  assert (E2 := ensure_demo_customers_run s1 Hf1).
  assert (Hs2 : with_current s1 (provisioned (current s1)) = s1).
  { unfold s1 at 2. cbn [current with_current].
    rewrite provisioned_idempotent. reflexivity. }
  rewrite Hs2 in E2.
  assert (Hcs : order_by_id (demo_rows (provisioned (current s1)))
                = order_by_id (demo_rows (provisioned (current s)))).
  { unfold s1. cbn [current with_current]. now rewrite provisioned_idempotent. }
  rewrite Hcs in E2.
  exists (order_by_id (demo_rows (provisioned (current s)))), s1,
         (order_by_id (demo_rows (provisioned (current s)))), s1.
  split; [exact E1|]. split; [exact E2|]. split.
  { exists (map demo_email (missing_demo (current s))).
    split; [apply provisioned_emails|]. split.
    - unfold missing_demo.
      apply selected_emails_distinct, demo_data_emails_distinct.
    - intros e He. apply in_map_iff in He. destruct He as (d & <- & Hd).
      now apply missing_demo_In in Hd. }
  repeat split; try assumption; try reflexivity.
  - now apply provisioned_NoDup.
  - now apply provisioned_NoDup.
  - apply Permutation_sym, order_by_id_perm.
  - apply order_by_id_sorted.
  - apply Permutation_sym, order_by_id_perm.
  - apply order_by_id_sorted.
  - intros d Hd.
    apply (Permutation_in (l := map c_email (demo_rows (provisioned (current s))))).
    + apply Permutation_map, order_by_id_perm.
    + rewrite demo_rows_emails. apply filter_In. split.
      * now apply provisioned_has_demo.
      * now apply demo_data_emails_are_demo.
Qed.

(** ** One table of one slot *)

(** The (time_slot, table_number) pairs of the reservations. *)
Definition key (r : Reservation) : datetime * Z :=
  (r_time_slot r, r_table_number r).

Definition keys (t : tables) : list (datetime * Z) := map key (reservations t).

Definition insert_reservation (t : tables) (customer_id party_size : Z)
           (dt : datetime) (table_n : Z) : tables :=
  mkTables (customers t)
           (reservations t ++
              [mkReservation (reservations_seq t) customer_id party_size dt table_n])
           (customers_seq t) (reservations_seq t + 1).

Lemma has_reservation_In t dt n :
  has_reservation t dt n = true <-> In (dt, n) (keys t).
Proof.
  unfold has_reservation, keys. rewrite existsb_exists, in_map_iff.
  split; intros (r & H1 & H2).
  - exists r. apply andb_prop in H2. destruct H2 as [Ha Hb].
    apply Z.eqb_eq in Ha, Hb. unfold key. split; [congruence|assumption].
  - exists r. unfold key in H1. injection H1 as Ha Hb.
    split; [assumption|]. apply andb_true_intro. split; now apply Z.eqb_eq.
Qed.

Lemma py_index_ok {A} (l : list A) (i : Z) :
  0 <= i < len l ->
  exists a, py_index l i = Val a /\ nth_error l (Z.to_nat i) = Some a.
Proof.
  intros H. unfold py_index. destruct (Z.ltb_spec i 0); [lia|].
  destruct (Z.ltb_spec i 0); [lia|].
  destruct (nth_error l (Z.to_nat i)) as [a|] eqn:E; [eauto|].
  apply nth_error_None in E. unfold len in H. lia.
Qed.

Lemma len_pos_cons {A} (x : A) (l : list A) : 0 < len (x :: l).
Proof. unfold len. simpl. lia. Qed.

Lemma db_roundtrip_cases s :
  exists s',
    committed s' = committed s /\ current s' = current s /\
    (db_roundtrip s = (Val tt, s') \/ exists msg, db_roundtrip s = (Exc (DBError msg), s')).
Proof.
  unfold db_roundtrip. destruct (faults s) as [|[msg|] rest].
  - exists s. auto.
  - eexists. split; [|split]; [| |right; eauto]; reflexivity.
  - eexists. split; [|split]; [| |left; eauto]; reflexivity.
Qed.

(** What the body of the table loop can do to the reservations: nothing,
    or append one row for a pair that was absent. *)
Lemma seed_table_effect cs dt created n s :
  let s' := snd (seed_table cs dt created n s) in
  committed s' = committed s /\
  customers (current s') = customers (current s) /\
  (reservations (current s') = reservations (current s) \/
   has_reservation (current s) dt n = false /\
   0 < len cs /\
   exists c ps,
     py_index cs ((n - 1) mod len cs) = Val c /\
     py_index party_pattern ((n - 1) mod 6) = Val ps /\
     reservations (current s')
     = reservations (current s) ++
         [mkReservation (reservations_seq (current s)) (c_id c) ps dt n]).
Proof.
  cbv zeta. unfold seed_table, query_reservation_exists.
  destruct (db_roundtrip_cases s) as (s1 & Hc & Hcur & [E|[msg E]]).
  - rewrite (bind_val _ _ _ _ _ (bind_val _ _ _ _ _ E)).
    fold (has_reservation (current s1) dt n). rewrite Hcur.
    destruct (has_reservation (current s) dt n) eqn:Eh.
    + unfold ret. cbn [snd]. rewrite Hc, Hcur. auto.
    + unfold lift, bind, py_mod.
      destruct (Z.eqb_spec (len cs) 0) as [E0|E0];
        cbn [snd]; rewrite ?Hc, ?Hcur; auto.
      destruct (py_index cs ((n - 1) mod len cs)) as [c|e|];
        cbn [snd]; rewrite ?Hc, ?Hcur; auto.
      change (len party_pattern =? 0) with false. cbv iota.
      change (len party_pattern) with 6.
      destruct (py_index party_pattern ((n - 1) mod 6)) as [ps|e|];
        cbn [snd]; rewrite ?Hc, ?Hcur; auto.
      unfold add_reservation, get_current, set_current, ret. cbn.
      rewrite Hc, Hcur. repeat split; auto.
      right. split; [reflexivity|]. split; [unfold len in *; lia|].
      exists c, ps. auto.
  - rewrite (bind_exc _ _ _ _ _ (bind_exc _ _ _ _ _ E)). cbn [snd].
    rewrite Hc, Hcur. auto.
Qed.

(** Without database errors and with customers at hand, the body returns. *)
Lemma seed_table_run cs dt created n s :
  faults s = [] -> 0 < len cs ->
  exists c ps,
    py_index cs ((n - 1) mod len cs) = Val c /\
    py_index party_pattern ((n - 1) mod 6) = Val ps /\
    seed_table cs dt created n s
    = if has_reservation (current s) dt n
      then (Val created, s)
      else (Val (created + 1),
            with_current s (insert_reservation (current s) (c_id c) ps dt n)).
Proof.
  intros Hf Hcs.
  destruct (py_index_ok cs ((n - 1) mod len cs)) as (c & Hc & _);
    [apply Z.mod_pos_bound; lia|].
  destruct (py_index_ok party_pattern ((n - 1) mod 6))
    as (ps & Hps & _); [apply Z.mod_pos_bound; reflexivity|].
  exists c, ps. split; [assumption|]. split; [assumption|].
  unfold seed_table.
  rewrite (bind_val _ _ _ _ _ (query_reservation_exists_ok s dt n Hf)).
  destruct (has_reservation (current s) dt n); [reflexivity|].
  unfold lift, bind, py_mod.
  destruct (Z.eqb_spec (len cs) 0) as [E0|E0]; [lia|].
  rewrite Hc.
  change (len party_pattern =? 0) with false. cbv iota.
  change (len party_pattern) with 6.
  rewrite Hps. reflexivity.
Qed.

(** ** Invariants of the reservations through the session monad *)

(** [m] keeps the property [J] of the session's reservations, whatever its
    outcome. *)
Definition keepsR (J : list Reservation -> Prop) {A} (m : M A) : Prop :=
  forall s, J (reservations (current s)) ->
            J (reservations (current (snd (m s)))).

(** [m] does not run out of fuel. *)
Definition terminates {A} (m : M A) : Prop :=
  forall s, fst (m s) <> OutOfFuel.

Section Invariants.

Variable J : list Reservation -> Prop.

Lemma keepsR_ret {A} (a : A) : keepsR J (ret a).
Proof. intros s H. exact H. Qed.

Lemma keepsR_lift {A} (r : res A) : keepsR J (lift r).
Proof. intros s H. exact H. Qed.

Lemma keepsR_bind {A B} (m : M A) (k : A -> M B) :
  keepsR J m -> (forall a, keepsR J (k a)) -> keepsR J (bind m k).
Proof.
  intros Hm Hk s H. specialize (Hm s H). unfold bind.
  destruct (m s) as [[a|e|] s']; cbn [snd] in *; try assumption.
  now apply Hk.
Qed.

Lemma keepsR_foldM {A B} (body : B -> A -> M B) (l : list A) :
  (forall acc x, In x l -> keepsR J (body acc x)) ->
  forall acc, keepsR J (foldM body l acc).
Proof.
  induction l as [|x l IH]; intros Hb acc.
  - apply keepsR_ret.
  - cbn [foldM]. apply keepsR_bind.
    + apply Hb. now left.
    + intros a. apply IH. intros acc' y Hy. apply Hb. now right.
Qed.

Lemma keepsR_db_roundtrip : keepsR J db_roundtrip.
Proof.
  intros s H. destruct (db_roundtrip_cases s) as (s' & _ & Hc & [E|[msg E]]);
    rewrite E; cbn [snd]; now rewrite Hc.
Qed.

Lemma keepsR_get_current : keepsR J get_current.
Proof. intros s H. exact H. Qed.

Lemma keepsR_commit : keepsR J commit.
Proof.
  unfold commit. apply keepsR_bind; [apply keepsR_db_roundtrip|].
  intros _ s H. exact H.
Qed.

Lemma keepsR_query_demo_emails : keepsR J query_demo_emails.
Proof.
  unfold query_demo_emails.
  repeat (apply keepsR_bind; [first [apply keepsR_db_roundtrip|apply keepsR_get_current]|intros ?]).
  apply keepsR_ret.
Qed.

Lemma keepsR_query_demo_customers : keepsR J query_demo_customers.
Proof.
  unfold query_demo_customers.
  repeat (apply keepsR_bind; [first [apply keepsR_db_roundtrip|apply keepsR_get_current]|intros ?]).
  apply keepsR_ret.
Qed.

Lemma keepsR_add_customer d : keepsR J (add_customer d).
Proof. destruct d as [[[n e] p] ns]. intros s H. exact H. Qed.

Lemma keepsR_ensure_demo_customers : keepsR J _ensure_demo_customers.
Proof.
  unfold _ensure_demo_customers.
  apply keepsR_bind; [apply keepsR_query_demo_emails|]. intros existing.
  apply keepsR_bind; [|intros _; apply keepsR_query_demo_customers].
  destruct (filter _ demo_data) as [|d ds]; [apply keepsR_ret|].
  apply keepsR_bind; [|intros _; apply keepsR_db_roundtrip].
  unfold add_all. apply keepsR_foldM. intros _ x _. apply keepsR_add_customer.
Qed.

End Invariants.

Lemma ensure_demo_customers_reservations s :
  reservations (current (snd (_ensure_demo_customers s)))
  = reservations (current s).
Proof.
  now apply (keepsR_ensure_demo_customers
               (fun rs => rs = reservations (current s))).
Qed.

Lemma terminates_ret {A} (a : A) : terminates (ret a).
Proof. intros s. discriminate. Qed.

Lemma terminates_lift {A} (r : res A) : r <> OutOfFuel -> terminates (lift r).
Proof. intros H s. exact H. Qed.

Lemma terminates_bind {A B} (m : M A) (k : A -> M B) :
  terminates m -> (forall a, terminates (k a)) -> terminates (bind m k).
Proof.
  intros Hm Hk s. specialize (Hm s). unfold bind.
  destruct (m s) as [[a|e|] s']; cbn [fst] in *;
    [apply Hk | discriminate | congruence].
Qed.

Lemma terminates_foldM {A B} (body : B -> A -> M B) (l : list A) :
  (forall acc x, terminates (body acc x)) ->
  forall acc, terminates (foldM body l acc).
Proof.
  intros Hb. induction l as [|x l IH]; intros acc.
  - apply terminates_ret.
  - cbn [foldM]. apply terminates_bind; [apply Hb|assumption].
Qed.

Lemma terminates_db_roundtrip : terminates db_roundtrip.
Proof.
  intros s. unfold db_roundtrip.
  destruct (faults s) as [|[msg|] rest]; discriminate.
Qed.

Lemma terminates_get_current : terminates get_current.
Proof. intros s. discriminate. Qed.

Lemma terminates_set_current t : terminates (set_current t).
Proof. intros s. discriminate. Qed.

Lemma py_mod_terminates a b : py_mod a b <> OutOfFuel.
Proof. unfold py_mod. destruct (b =? 0); discriminate. Qed.

Lemma py_index_terminates {A} (l : list A) i : py_index l i <> OutOfFuel.
Proof.
  unfold py_index. destruct (_ <? 0); [discriminate|].
  destruct (nth_error l _); discriminate.
Qed.

Ltac terminates_step :=
  first [ apply terminates_ret
        | apply terminates_db_roundtrip
        | apply terminates_get_current
        | apply terminates_set_current
        | apply terminates_lift; first [ apply py_index_terminates
                                      | apply py_mod_terminates
                                      | apply timedelta_terminates
                                      | apply time_terminates ]
        | apply terminates_bind; [|intros ?] ].

Lemma terminates_commit : terminates commit.
Proof.
  unfold commit. apply terminates_bind; [apply terminates_db_roundtrip|].
  intros _ s. discriminate.
Qed.

Lemma terminates_add_customer d : terminates (add_customer d).
Proof. destruct d as [[[n e] p] ns]. unfold add_customer. repeat terminates_step. Qed.

Lemma terminates_ensure_demo_customers : terminates _ensure_demo_customers.
Proof.
  unfold _ensure_demo_customers, query_demo_emails, query_demo_customers.
  apply terminates_bind; [repeat terminates_step|]. intros existing.
  apply terminates_bind; [|intros _; repeat terminates_step].
  destruct (filter _ demo_data) as [|d ds]; [apply terminates_ret|].
  apply terminates_bind; [|intros _; apply terminates_db_roundtrip].
  unfold add_all. apply terminates_foldM. intros _ x. apply terminates_add_customer.
Qed.

Lemma terminates_seed_table cs dt created n :
  terminates (seed_table cs dt created n).
Proof.
  unfold seed_table, query_reservation_exists, add_reservation.
  apply terminates_bind; [repeat terminates_step|]. intros found.
  destruct found; repeat terminates_step.
Qed.

(** ** The reservation seeder: invariants and termination *)

Lemma range_In a b x : In x (range a b) <-> a <= x < b.
Proof.
  unfold range. rewrite in_map_iff. split.
  - intros (k & <- & Hk). apply in_seq in Hk. lia.
  - intros H. exists (Z.to_nat (x - a)). split; [lia|]. apply in_seq. lia.
Qed.

Lemma range_NoDup a b : NoDup (range a b).
Proof.
  unfold range. apply Finite.Injective_map_NoDup; [|apply seq_NoDup].
  intros x y H. lia.
Qed.

Lemma range_length a b : len (range a b) = Z.max 0 (b - a).
Proof. unfold len, range. rewrite length_map, length_seq. lia. Qed.

Lemma slot_target_bounds mode fb idx d dt :
  3 <= slot_target mode fb idx d dt <= MAX_PER_SLOT.
Proof.
  unfold slot_target, MAX_PER_SLOT. cbv zeta.
  repeat match goal with
         | |- context [if ?c then _ else _] => destruct c
         end; lia.
Qed.

Section SeederInvariants.

Variable today : date.
Variable J : list Reservation -> Prop.
Variable cs : list Customer.
Hypothesis seed_table_keeps :
  forall dt created n, 1 <= n <= 30 -> keepsR J (seed_table cs dt created n).

Lemma keepsR_seed_slot mode fb idx d acc dt :
  keepsR J (seed_slot cs mode fb idx d acc dt).
Proof.
  unfold seed_slot. destruct acc as [created_slots created_res].
  apply keepsR_bind.
  - apply keepsR_foldM. intros created n Hn. apply seed_table_keeps.
    apply range_In in Hn.
    pose proof (slot_target_bounds mode fb idx d dt). unfold MAX_PER_SLOT in *. lia.
  - intros seeded. destruct (seeded >? 0); apply keepsR_ret.
Qed.

Lemma keepsR_seed_day fuel sh eh step mode fb idx acc d :
  keepsR J (seed_day today fuel cs sh eh step mode fb idx acc d).
Proof.
  unfold seed_day.
  repeat (apply keepsR_bind; [apply keepsR_lift|intros ?]).
  apply keepsR_foldM. intros acc' dt _. apply keepsR_seed_slot.
Qed.

Lemma keepsR_seed_days fuel sh eh step mode fb idx days acc :
  keepsR J (foldM (seed_day today fuel cs sh eh step mode fb idx) days acc).
Proof. apply keepsR_foldM. intros acc' d _. apply keepsR_seed_day. Qed.

Lemma keepsR_fill_slot dt target :
  target <= 30 -> keepsR J (_fill_slot cs dt target).
Proof.
  intros Ht. unfold _fill_slot. apply keepsR_foldM. intros created n Hn.
  apply seed_table_keeps. apply range_In in Hn. lia.
Qed.

End SeederInvariants.

(** The existence check keeps the pairs distinct. *)
Lemma seed_table_keeps_distinct cs dt created n :
  keepsR (fun rs => NoDup (map key rs)) (seed_table cs dt created n).
Proof.
  intros s H.
  destruct (seed_table_effect cs dt created n s)
    as (_ & _ & [E|(Hn & _ & c & ps & _ & _ & E)]);
    rewrite E; [assumption|].
  rewrite map_app. cbn [map key r_time_slot r_table_number].
  apply NoDup_app; [assumption|repeat constructor; simpl; tauto|].
  intros k Hk [<-|[]].
  assert (has_reservation (current s) dt n = true)
    by (apply has_reservation_In; exact Hk).
  congruence.
Qed.

Lemma seed_reservations_keeps_distinct today fuel days sh eh step mode fb :
  keepsR (fun rs => NoDup (map key rs))
         (_seed_reservations today fuel days sh eh step mode fb).
Proof.
  unfold _seed_reservations.
  apply keepsR_bind; [apply keepsR_ensure_demo_customers|]. intros cs.
  destruct cs as [|c cs]; [apply keepsR_ret|].
  apply keepsR_bind; [|intros acc; apply keepsR_ret].
  apply keepsR_seed_days. intros dt created n _. apply seed_table_keeps_distinct.
Qed.

Lemma time_val_bound h t : time h 0 = Val t -> 0 <= t <= 1380.
Proof.
  unfold time, as_c_int. intros E.
  repeat match type of E with
         | context [if ?c then _ else _] =>
             destruct c eqn:?; cbn [rbind] in E; try discriminate
         end.
  injection E as <-.
  match goal with
  | H : negb _ = false |- _ =>
      apply negb_false_iff, andb_prop in H; destruct H as [H1 H2];
      apply Z.leb_le in H1, H2
  end.
  lia.
Qed.

(** With a positive step 1382 rounds are enough for any day and window. *)
Lemma slots_for_day_terminates_pos fuel day sh eh step :
  0 < step -> (1382 <= fuel)%nat ->
  _slots_for_day fuel day sh eh step <> OutOfFuel.
Proof.
  intros Hs Hf. unfold _slots_for_day.
  destruct (time sh 0) as [ts|e|] eqn:Es; cbn [rbind];
    [| discriminate | now apply time_terminates in Es].
  destruct (time eh 0) as [te|e|] eqn:Ee; cbn [rbind];
    [| discriminate | now apply time_terminates in Ee].
  apply time_val_bound in Es, Ee.
  apply (slots_loop_terminates_pos 1381); unfold combine; lia.
Qed.

Lemma date_add_terminates d td : date_add d td <> OutOfFuel.
Proof. unfold date_add. cbv zeta. destruct (valid_dateb _); discriminate. Qed.

Lemma terminates_seed_slot cs mode fb idx d acc dt :
  terminates (seed_slot cs mode fb idx d acc dt).
Proof.
  unfold seed_slot. destruct acc as [a b].
  apply terminates_bind.
  - apply terminates_foldM. intros created n. apply terminates_seed_table.
  - intros seeded. destruct (seeded >? 0); apply terminates_ret.
Qed.

Lemma terminates_seed_reservations today fuel days sh eh step mode fb :
  0 < step -> (1382 <= fuel)%nat ->
  terminates (_seed_reservations today fuel days sh eh step mode fb).
Proof.
  intros Hs Hf. unfold _seed_reservations.
  apply terminates_bind; [apply terminates_ensure_demo_customers|]. intros cs.
  destruct cs as [|c cs]; [apply terminates_ret|].
  apply terminates_bind; [|intros acc; apply terminates_ret].
  apply terminates_foldM. intros acc d. unfold seed_day.
  apply terminates_bind; [apply terminates_lift, timedelta_terminates|]. intros td.
  apply terminates_bind; [apply terminates_lift, date_add_terminates|]. intros day.
  apply terminates_bind;
    [apply terminates_lift, slots_for_day_terminates_pos; assumption|].
  intros slots. apply terminates_foldM. intros acc' dt. apply terminates_seed_slot.
Qed.

(** The reservations are the [old] ones followed by rows whose pairs are
    pairwise distinct and are no pair of an [old] row. *)
Definition extended_afresh (old rs : list Reservation) : Prop :=
  exists created,
    rs = old ++ created /\
    NoDup (map key created) /\
    forall r, In r created -> ~ In (key r) (map key old).

Lemma extended_afresh_refl old : extended_afresh old old.
Proof.
  exists []. split; [now rewrite app_nil_r|]. split; [constructor|intros r []].
Qed.

Lemma extended_afresh_NoDup old rs :
  extended_afresh old rs -> NoDup (map key old) -> NoDup (map key rs).
Proof.
  intros (created & -> & Hnd & Hnew) Hold. rewrite map_app.
  apply NoDup_app; [assumption|assumption|].
  intros k Hk Hin. apply in_map_iff in Hin. destruct Hin as (r & <- & Hr).
  exact (Hnew r Hr Hk).
Qed.

(** The existence check lets a row in only under a pair that no row has. *)
Lemma seed_table_keeps_afresh old cs dt created n :
  keepsR (extended_afresh old) (seed_table cs dt created n).
Proof.
  intros s (rows & Hrs & Hnd & Hnew).
  destruct (seed_table_effect cs dt created n s)
    as (_ & _ & [E|(Hn & _ & c & ps & _ & _ & E)]);
    rewrite E; [exists rows; auto|].
  assert (Hk : ~ In (dt, n) (map key (reservations (current s)))).
  { intros Hk. apply has_reservation_In in Hk. congruence. }
  rewrite Hrs, map_app in Hk.
  exists (rows ++ [mkReservation (reservations_seq (current s)) (c_id c) ps dt n]).
  split; [now rewrite Hrs, app_assoc|]. split.
  - rewrite map_app. cbn [map key r_time_slot r_table_number].
    apply NoDup_app; [assumption|repeat constructor; simpl; tauto|].
    intros k Hin [<-|[]]. apply Hk. apply in_or_app. now right.
  - intros r Hr Hin. apply in_app_or in Hr. destruct Hr as [Hr|[<-|[]]].
    + exact (Hnew r Hr Hin).
    + apply Hk. apply in_or_app. now left.
Qed.

Lemma seed_reservations_keeps_afresh old today fuel days sh eh step mode fb :
  keepsR (extended_afresh old)
         (_seed_reservations today fuel days sh eh step mode fb).
Proof.
  unfold _seed_reservations.
  apply keepsR_bind; [apply keepsR_ensure_demo_customers|]. intros cs.
  destruct cs as [|c cs]; [apply keepsR_ret|].
  apply keepsR_bind; [|intros acc; apply keepsR_ret].
  apply keepsR_seed_days. intros dt created n _. apply seed_table_keeps_afresh.
Qed.

(** C6 (amended): for every starting state, every choice of parameters and
    however the run ends, the rows the reservation seeder adds have
    (time_slot, table_number) pairs that are pairwise distinct and that no
    earlier row has, and the earlier rows stay as they are; the same holds
    of a second run with the same parameters and no wipe in between.  So a
    table whose pairs are pairwise distinct has pairwise distinct pairs
    after one run and after two; a pair that the starting state repeats
    stays repeated.  With a positive step (and 1382 rounds of the slot
    loop) each of these runs terminates. *)
Theorem seed_reservations_distinct_pairs :
  forall today fuel days sh eh step mode fb s,
    let seed := _seed_reservations today fuel days sh eh step mode fb in
    let s1 := snd (seed s) in
    let s2 := snd (seed s1) in
    (exists created,
        reservations (current s1) = reservations (current s) ++ created /\
        NoDup (map key created) /\
        forall r, In r created -> ~ In (key r) (keys (current s))) /\
    (exists created,
        reservations (current s2) = reservations (current s1) ++ created /\
        NoDup (map key created) /\
        forall r, In r created -> ~ In (key r) (keys (current s1))) /\
    (NoDup (keys (current s)) ->
     NoDup (keys (current s1)) /\ NoDup (keys (current s2))) /\
    (0 < step -> (1382 <= fuel)%nat ->
     fst (seed s) <> OutOfFuel /\ fst (seed s1) <> OutOfFuel).
Proof.
  intros today fuel days sh eh step mode fb s. cbv zeta.
  set (seed := _seed_reservations today fuel days sh eh step mode fb).
  assert (K : forall s0, extended_afresh (reservations (current s0))
                                         (reservations (current (snd (seed s0))))).
  { intros s0.
    apply (seed_reservations_keeps_afresh (reservations (current s0))
                                          today fuel days sh eh step mode fb s0).
    apply extended_afresh_refl. }
  split; [exact (K s)|]. split; [exact (K (snd (seed s)))|]. split.
  - intros H.
    assert (H1 : NoDup (keys (current (snd (seed s)))))
      by exact (extended_afresh_NoDup _ _ (K s) H).
    split; [exact H1|exact (extended_afresh_NoDup _ _ (K _) H1)].
  - intros Hs Hf. split; apply terminates_seed_reservations; assumption.
Qed.

(** Two reservations of table 4 at 19:00 on [a_day]. *)
Definition twice_booked_tables : tables :=
  mkTables [a_customer]
           [a_reservation; mkReservation 2 1 2 (combine a_day (19 * 60)) 4] 2 3.

Definition twice_booked_session : session :=
  mkSession twice_booked_tables twice_booked_tables [] None None.

(** C6, as stated, fails: over a table in which table 4 is reserved twice
    at 19:00, a run of the seeder returns and both rows are still there. *)
Lemma seed_keeps_repeated_pair :
  exists out s1,
    _seed_reservations a_day 14 1 17 23 30 "small" false twice_booked_session
    = (Val out, s1) /\
    (exists r r' rest,
        reservations (current s1) = r :: r' :: rest /\
        key r = key r' /\ r <> r') /\
    ~ NoDup (keys (current s1)).
Proof.
  eexists _, _. split; [vm_compute; reflexivity|]. split.
  - eexists _, _, _. split; [reflexivity|]. split; [reflexivity|discriminate].
  - intros H. inversion H as [|k l Hn _]. apply Hn. now left.
Qed.

(** ** What a created reservation looks like *)

(** A row whose customer and party size follow from its table number, for
    the provisioned customers [cs]. *)
Definition created_ok (cs : list Customer) (r : Reservation) : Prop :=
  1 <= r_table_number r <= 30 /\
  nth_error party_pattern (Z.to_nat ((r_table_number r - 1) mod 6))
  = Some (r_party_size r) /\
  exists c,
    nth_error cs (Z.to_nat ((r_table_number r - 1) mod len cs)) = Some c /\
    r_customer_id r = c_id c.

(** The reservations are the [old] ones followed by rows created for [cs]. *)
Definition extended_by (cs : list Customer) (old rs : list Reservation) : Prop :=
  exists created, rs = old ++ created /\ Forall (created_ok cs) created.

(** The same after a possible wipe of the [old] rows. *)
Definition rebuilt_by (cs : list Customer) (old rs : list Reservation) : Prop :=
  extended_by cs old rs \/ extended_by cs [] rs.

Lemma extended_by_refl cs old : extended_by cs old old.
Proof. exists []. split; [now rewrite app_nil_r|constructor]. Qed.

Lemma extended_by_snoc cs old rs r :
  extended_by cs old rs -> created_ok cs r -> extended_by cs old (rs ++ [r]).
Proof.
  intros (created & -> & Hall) Hr. exists (created ++ [r]).
  split; [now rewrite app_assoc|]. apply Forall_app. split; [assumption|].
  now constructor.
Qed.

Lemma py_index_val_nth {A} (l : list A) i a :
  0 <= i -> py_index l i = Val a -> nth_error l (Z.to_nat i) = Some a.
Proof.
  intros Hi. unfold py_index. destruct (Z.ltb_spec i 0); [lia|].
  destruct (Z.ltb_spec i 0); [lia|].
  destruct (nth_error l (Z.to_nat i)); [|discriminate]. congruence.
Qed.

Lemma seed_table_creates_ok cs dt created n s :
  1 <= n <= 30 ->
  reservations (current (snd (seed_table cs dt created n s)))
  = reservations (current s) \/
  exists r,
    created_ok cs r /\
    reservations (current (snd (seed_table cs dt created n s)))
    = reservations (current s) ++ [r].
Proof.
  intros Hn.
  destruct (seed_table_effect cs dt created n s)
    as (_ & _ & [E|(_ & Hcs & c & ps & Hc & Hps & E)]); [now left|].
  right. eexists. split; [|exact E].
  unfold created_ok. cbn [r_table_number r_party_size r_customer_id].
  split; [assumption|]. split.
  - apply py_index_val_nth; [apply Z.mod_pos_bound; lia|assumption].
  - exists c. split; [|reflexivity].
    apply py_index_val_nth; [apply Z.mod_pos_bound; lia|assumption].
Qed.

Lemma seed_table_keeps_extended cs old dt created n :
  1 <= n <= 30 -> keepsR (extended_by cs old) (seed_table cs dt created n).
Proof.
  intros Hn s H.
  destruct (seed_table_creates_ok cs dt created n s Hn) as [E|(r & Hr & E)];
    rewrite E; [assumption|]. now apply extended_by_snoc.
Qed.

Lemma seed_table_keeps_rebuilt cs old dt created n :
  1 <= n <= 30 -> keepsR (rebuilt_by cs old) (seed_table cs dt created n).
Proof.
  intros Hn s [H|H]; [left|right];
    now apply (seed_table_keeps_extended cs _ dt created n Hn s).
Qed.

Lemma keepsR_truncate_reservations (J : list Reservation -> Prop) :
  J [] -> keepsR J truncate_reservations.
Proof.
  intros H0 s H. unfold truncate_reservations.
  destruct (db_roundtrip_cases s) as (s' & _ & Hc & [E|[msg E]]).
  - rewrite (bind_val _ _ _ _ _ E). exact H0.
  - rewrite (bind_exc _ _ _ _ _ E). cbn [snd]. now rewrite Hc.
Qed.

Ltac by_keepsR H0 :=
  match goal with
  | |- ?J (reservations (current (snd (?m ?s)))) =>
      let K := fresh "K" in
      assert (K : keepsR J m); [| exact (K s H0)]
  end.

Lemma seed_reservations_extends today fuel days sh eh step mode fb s :
  match fst (_ensure_demo_customers s) with
  | Val cs =>
      extended_by cs (reservations (current s))
        (reservations (current
           (snd (_seed_reservations today fuel days sh eh step mode fb s))))
  | _ =>
      reservations (current
        (snd (_seed_reservations today fuel days sh eh step mode fb s)))
      = reservations (current s)
  end.
Proof.
  pose proof (ensure_demo_customers_reservations s) as HR.
  remember (snd (_seed_reservations today fuel days sh eh step mode fb s))
    as s' eqn:Es'.
  unfold _seed_reservations in Es'. unfold bind at 1 in Es'.
  destruct (_ensure_demo_customers s) as [[cs|e|] s0]; cbn [fst snd] in *;
    subst s'; try assumption.
  rewrite <- HR.
  destruct cs as [|c cs]; [apply extended_by_refl|].
  by_keepsR (extended_by_refl (c :: cs) (reservations (current s0))).
  apply keepsR_bind; [|intros acc; apply keepsR_ret].
  apply keepsR_seed_days. intros dt created n Hn.
  now apply seed_table_keeps_extended.
Qed.

Lemma seed_capacity_scenario_rebuilds today isoformat day_offset hour minute step s :
  match fst (_ensure_demo_customers s) with
  | Val cs =>
      rebuilt_by cs (reservations (current s))
        (reservations (current
           (snd (_seed_capacity_scenario today isoformat day_offset hour minute
                                         step s))))
  | _ =>
      reservations (current
        (snd (_seed_capacity_scenario today isoformat day_offset hour minute
                                      step s)))
      = reservations (current s)
  end.
Proof.
  pose proof (ensure_demo_customers_reservations s) as HR.
  remember (snd (_seed_capacity_scenario today isoformat day_offset hour minute
                                         step s)) as s' eqn:Es'.
  unfold _seed_capacity_scenario in Es'. unfold bind at 1 in Es'.
  destruct (_ensure_demo_customers s) as [[cs|e|] s0]; cbn [fst snd] in *;
    subst s'; try assumption.
  rewrite <- HR.
  assert (H0 : rebuilt_by cs (reservations (current s0)) (reservations (current s0)))
    by (left; apply extended_by_refl).
  destruct cs as [|c cs]; [exact H0|].
  by_keepsR H0.
  repeat (apply keepsR_bind; [apply keepsR_lift|intros ?]).
  apply keepsR_bind;
    [apply keepsR_truncate_reservations; right; apply extended_by_refl|intros _].
  apply keepsR_bind; [apply keepsR_commit|intros _].
  apply keepsR_bind;
    [apply keepsR_fill_slot; [intros; now apply seed_table_keeps_rebuilt|lia]
    |intros created_full].
  apply keepsR_bind;
    [apply keepsR_fill_slot; [intros; now apply seed_table_keeps_rebuilt|lia]
    |intros created_almost].
  apply keepsR_bind; [apply keepsR_commit|intros _]. apply keepsR_ret.
Qed.

(** C10: however a run ends, the reservations that the seeder (in any mode)
    and the capacity scenario leave in the session are the earlier ones (or
    none of them, once the capacity scenario has wiped the table) followed
    by created rows, and every created row has a table number from 1 to 30,
    the party size at index (table_number - 1) mod 6 of [2, 4, 3, 5, 2, 6]
    and the identifier of the provisioned customer at index
    (table_number - 1) mod (number of provisioned customers); the customer
    and the party size are thus functions of the table number. *)
Theorem created_reservations_follow_table_number :
  forall today isoformat fuel days sh eh step mode fb day_offset hour minute s,
    let seeded :=
      reservations (current
        (snd (_seed_reservations today fuel days sh eh step mode fb s))) in
    let scenario :=
      reservations (current
        (snd (_seed_capacity_scenario today isoformat day_offset hour minute
                                      step s))) in
    match fst (_ensure_demo_customers s) with
    | Val cs =>
        extended_by cs (reservations (current s)) seeded /\
        rebuilt_by cs (reservations (current s)) scenario /\
        (forall r r', created_ok cs r -> created_ok cs r' ->
                      r_table_number r = r_table_number r' ->
                      r_customer_id r = r_customer_id r' /\
                      r_party_size r = r_party_size r')
    | _ =>
        seeded = reservations (current s) /\
        scenario = reservations (current s)
    end.
Proof.
  intros today isoformat fuel days sh eh step mode fb day_offset hour minute s.
  cbv zeta.
  pose proof (seed_reservations_extends today fuel days sh eh step mode fb s) as H1.
  pose proof (seed_capacity_scenario_rebuilds today isoformat day_offset hour
                                              minute step s) as H2.
  destruct (fst (_ensure_demo_customers s)) as [cs|e|]; try (split; assumption).
  split; [assumption|]. split; [assumption|].
  intros r r' (_ & Hp & c & Hc & Hid) (_ & Hp' & c' & Hc' & Hid') Heq.
  rewrite Heq in *. split; congruence.
Qed.

(** ** Filling slots without database errors *)

Lemma insert_reservation_keys t cid ps dt n :
  keys (insert_reservation t cid ps dt n) = keys t ++ [(dt, n)].
Proof. unfold keys, insert_reservation. cbn [reservations]. now rewrite map_app. Qed.

(** The table loop on a slot none of whose listed tables is taken: every
    table of the list gets its reservation. *)
Lemma fill_run cs dt :
  0 < len cs ->
  forall ns created s,
    faults s = [] -> NoDup ns ->
    (forall n, In n ns -> ~ In (dt, n) (keys (current s))) ->
    exists s',
      foldM (seed_table cs dt) ns created s = (Val (created + len ns), s') /\
      faults s' = [] /\ committed s' = committed s /\
      customers (current s') = customers (current s) /\
      keys (current s') = keys (current s) ++ map (pair dt) ns.
Proof.
  intros Hcs. induction ns as [|n ns IH]; intros created s Hf Hnd Hfree.
  - exists s. cbn [foldM map]. unfold ret, len. cbn [List.length].
    rewrite app_nil_r, Z.add_0_r. auto.
  - inversion Hnd as [|? ? Hn Hnd']; subst.
    destruct (seed_table_run cs dt created n s Hf Hcs) as (c & ps & _ & _ & E).
    assert (Hno : has_reservation (current s) dt n = false).
    { destruct (has_reservation (current s) dt n) eqn:Eh; [|reflexivity].
      apply has_reservation_In in Eh. exfalso. apply (Hfree n); [now left|assumption]. }
    rewrite Hno in E.
    set (s1 := with_current s (insert_reservation (current s) (c_id c) ps dt n)) in *.
    destruct (IH (created + 1) s1) as (s' & E' & Hf' & Hc' & Hcu' & Hk'); try assumption.
    { intros m Hm. unfold s1. cbn [current with_current].
      rewrite insert_reservation_keys. intros Hin. apply in_app_or in Hin.
      destruct Hin as [Hin|[Heq|[]]].
      - apply (Hfree m); [now right|assumption].
      - injection Heq as ->. contradiction. }
    exists s'. cbn [foldM]. rewrite (bind_val _ _ _ _ _ E). rewrite E'.
    split; [f_equal; f_equal; unfold len; cbn [List.length]; lia|].
    split; [assumption|]. split; [assumption|]. split; [assumption|].
    rewrite Hk'. unfold s1. cbn [current with_current].
    rewrite insert_reservation_keys, <- app_assoc. reflexivity.
Qed.

(** The planned pairs of a list of slots, for a target by slot. *)
Definition slot_block (target : datetime -> Z) (dt : datetime)
  : list (datetime * Z) :=
  map (pair dt) (range 1 (target dt + 1)).

Definition slots_block (target : datetime -> Z) (slots : list datetime)
  : list (datetime * Z) :=
  flat_map (slot_block target) slots.

(** No reservation of the session is in one of the [slots]. *)
Definition free (s : session) (slots : list datetime) : Prop :=
  forall dt n, In dt slots -> ~ In (dt, n) (keys (current s)).

Lemma slot_block_In target dt k : In k (slot_block target dt) -> fst k = dt.
Proof.
  unfold slot_block. intros H. apply in_map_iff in H.
  destruct H as (n & <- & _). reflexivity.
Qed.

Lemma slots_block_In target slots k :
  In k (slots_block target slots) -> In (fst k) slots.
Proof.
  unfold slots_block. intros H. apply in_flat_map in H.
  destruct H as (dt & Hdt & Hk). apply slot_block_In in Hk. now subst.
Qed.

Lemma seed_slot_run cs mode fb idx d acc dt s :
  0 < len cs -> faults s = [] -> free s [dt] ->
  exists s',
    seed_slot cs mode fb idx d acc dt s
    = (Val (fst acc + 1, snd acc + slot_target mode fb idx d dt), s') /\
    faults s' = [] /\ committed s' = committed s /\
    customers (current s') = customers (current s) /\
    keys (current s')
    = keys (current s) ++ slot_block (slot_target mode fb idx d) dt.
Proof.
  intros Hcs Hf Hfree. destruct acc as [created_slots created_res].
  pose proof (slot_target_bounds mode fb idx d dt) as Hb.
  unfold MAX_PER_SLOT in Hb.
  unfold seed_slot, MAX_PER_SLOT.
  replace (Z.min (slot_target mode fb idx d dt) 30)
    with (slot_target mode fb idx d dt) by lia.
  destruct (fill_run cs dt Hcs (range 1 (slot_target mode fb idx d dt + 1)) 0 s)
    as (s' & E & Hf' & Hc' & Hcu' & Hk'); try assumption.
  - apply range_NoDup.
  - intros n _. apply Hfree. now left.
  - exists s'. rewrite (bind_val _ _ _ _ _ E).
    rewrite range_length.
    replace (0 + Z.max 0 (slot_target mode fb idx d dt + 1 - 1))
      with (slot_target mode fb idx d dt) by lia.
    destruct (Z.gtb_spec (slot_target mode fb idx d dt) 0); [|lia].
    unfold ret. cbn [fst snd]. auto.
Qed.

Lemma seed_slots_run cs mode fb idx d :
  0 < len cs ->
  forall slots acc s,
    faults s = [] -> NoDup slots -> free s slots ->
    exists acc' s',
      foldM (seed_slot cs mode fb idx d) slots acc s = (Val acc', s') /\
      faults s' = [] /\ committed s' = committed s /\
      customers (current s') = customers (current s) /\
      keys (current s')
      = keys (current s) ++ slots_block (slot_target mode fb idx d) slots.
Proof.
  intros Hcs. induction slots as [|dt slots IH]; intros acc s Hf Hnd Hfree.
  - exists acc, s. cbn. unfold ret. rewrite app_nil_r. auto.
  - inversion Hnd as [|? ? Hdt Hnd']; subst.
    destruct (seed_slot_run cs mode fb idx d acc dt s Hcs Hf)
      as (s1 & E1 & Hf1 & Hc1 & Hcu1 & Hk1).
    { intros dt' n [<-|[]]. apply Hfree. now left. }
    destruct (IH (fst acc + 1, snd acc + slot_target mode fb idx d dt) s1)
      as (acc' & s' & E' & Hf' & Hc' & Hcu' & Hk'); try assumption.
    { intros dt' n Hin. rewrite Hk1. intros Hk. apply in_app_or in Hk.
      destruct Hk as [Hk|Hk].
      - apply (Hfree dt' n); [now right|assumption].
      - apply slot_block_In in Hk. cbn [fst] in Hk. subst dt'. contradiction. }
    exists acc', s'. cbn [foldM]. rewrite (bind_val _ _ _ _ _ E1). rewrite E'.
    split; [reflexivity|]. split; [assumption|].
    split; [congruence|]. split; [congruence|].
    rewrite Hk', Hk1, <- app_assoc. reflexivity.
Qed.

(** ** A whole run of the seeder without database errors *)

Lemma demo_data_provisioned_nonempty t :
  0 < len (order_by_id (demo_rows (provisioned t))).
Proof.
  unfold len. rewrite order_by_id_length.
  assert (H : In "avery.chen@example.com" (map c_email (demo_rows (provisioned t)))).
  { rewrite demo_rows_emails. apply filter_In. split; [|reflexivity].
    apply (provisioned_has_demo t
             ("Avery Chen", "avery.chen@example.com", "202-555-0101", true)).
    now left. }
  destruct (demo_rows (provisioned t)); [destruct H|]. cbn [List.length]. lia.
Qed.

(** The table numbers reserved at [dt] among pairs [ks]. *)
Definition tables_in (ks : list (datetime * Z)) (dt : datetime) : list Z :=
  map snd (filter (fun k : datetime * Z => fst k =? dt) ks).

(** The table numbers reserved at [dt] in the session, in insertion order. *)
Definition tables_at (s : session) (dt : datetime) : list Z :=
  tables_in (keys (current s)) dt.

Lemma tables_in_app ks ks' dt :
  tables_in (ks ++ ks') dt = tables_in ks dt ++ tables_in ks' dt.
Proof. unfold tables_in. now rewrite filter_app, map_app. Qed.

Lemma tables_in_slot_block_same target dt :
  tables_in (slot_block target dt) dt = range 1 (target dt + 1).
Proof.
  unfold tables_in, slot_block.
  induction (range 1 (target dt + 1)) as [|n ns IH]; [reflexivity|].
  cbn [map filter fst]. rewrite Z.eqb_refl. cbn [map snd]. now rewrite IH.
Qed.

Lemma tables_in_other ks dt :
  (forall k, In k ks -> fst k <> dt) -> tables_in ks dt = [].
Proof.
  intros H. unfold tables_in. induction ks as [|k ks IH]; [reflexivity|].
  cbn [filter].
  match goal with |- context [if ?c then _ else _] => destruct c eqn:E end.
  - exfalso. apply Z.eqb_eq in E. apply (H k); [now left|assumption].
  - apply IH. intros k' Hk'. apply H. now right.
Qed.

Lemma tables_in_slots_block target slots dt :
  NoDup slots -> In dt slots ->
  tables_in (slots_block target slots) dt = range 1 (target dt + 1).
Proof.
  unfold slots_block. induction slots as [|x slots IH]; intros Hnd Hin; [destruct Hin|].
  inversion Hnd as [|? ? Hx Hnd']; subst.
  cbn [flat_map]. rewrite tables_in_app. destruct Hin as [->|Hin].
  - rewrite tables_in_slot_block_same.
    rewrite (tables_in_other (flat_map _ slots)); [now rewrite app_nil_r|].
    intros k Hk E. apply slots_block_In in Hk. rewrite E in Hk. contradiction.
  - rewrite (tables_in_other (slot_block target x)).
    + now apply IH.
    + intros k Hk E. apply slot_block_In in Hk. congruence.
Qed.

Lemma stepped_NoDup cur step n : 0 < step -> NoDup (stepped cur step n).
Proof.
  intros Hs. unfold stepped. apply Finite.Injective_map_NoDup; [|apply seq_NoDup].
  intros x y H. nia.
Qed.

Section SeedRun.

Variable today : date.
Variable fuel : nat.
Variables days sh eh step : Z.
Variable mode : string.
Variable fb : bool.

Let slot_count : Z := (eh - sh) * 60 / step + 1.
Let idx : Z := Z.min 2 (Z.max 0 (days - 1)).

Hypothesis window : 0 <= sh /\ sh <= eh /\ eh <= 23.
Hypothesis step_pos : 0 < step.
Hypothesis today_valid : valid_date today.
Hypothesis days_fit : today + days - 1 <= MAXORD.
Hypothesis slots_fit :
  forall d, 0 <= d < days ->
            combine (today + d) (sh * 60) + slot_count * step <= MAXDT.
Hypothesis fuel_enough : (Z.to_nat slot_count < fuel)%nat.

(** The slots of day [d] of the run. *)
Definition slots_of (d : Z) : list datetime :=
  stepped (combine (today + d) (sh * 60)) step (Z.to_nat slot_count).

(** The pairs the run plans for the days [ds]. *)
Definition planned (ds : list Z) : list (datetime * Z) :=
  flat_map (fun d => slots_block (slot_target mode fb idx d) (slots_of d)) ds.

Lemma slots_of_day d dt :
  In dt (slots_of d) -> (today + d) * 1440 <= dt < (today + d + 1) * 1440.
Proof using window step_pos.
  clear - window step_pos.
  unfold slots_of, slot_count. intros H. apply stepped_In in H.
  destruct H as (k & Hk & ->).
  set (q := (eh - sh) * 60 / step) in *.
  assert (Hq1 : step * q <= (eh - sh) * 60) by (apply Z.mul_div_le; lia).
  assert (Hq0 : 0 <= q) by (apply Z.div_pos; lia).
  unfold combine. nia.
Qed.

Lemma slots_of_NoDup d : NoDup (slots_of d).
Proof using step_pos.
  unfold slots_of. apply stepped_NoDup. exact step_pos.
Qed.

Lemma slots_for_day_of d :
  0 <= d < days ->
  (td <~ timedelta d 0; day <~ date_add today td;
   _slots_for_day fuel day sh eh step)%res = Val (slots_of d).
Proof.
  intros Hd. unfold valid_date, MINORD, MAXORD in *.
  rewrite timedelta_days_ok by lia. cbn [rbind].
  rewrite date_add_ok by (unfold MINORD, MAXORD; lia). cbn [rbind].
  apply slots_for_day_closed_form; try tauto; try assumption.
  - unfold valid_date, MINORD, MAXORD. lia.
  - now apply slots_fit.
Qed.

Lemma seed_day_run cs acc d s :
  0 < len cs -> 0 <= d < days -> faults s = [] -> free s (slots_of d) ->
  exists acc' s',
    seed_day today fuel cs sh eh step mode fb idx acc d s = (Val acc', s') /\
    faults s' = [] /\ committed s' = committed s /\
    customers (current s') = customers (current s) /\
    keys (current s') = keys (current s) ++ planned [d].
Proof.
  intros Hcs Hd Hf Hfree.
  pose proof (slots_for_day_of d Hd) as E.
  unfold seed_day, lift, bind at 1 2 3.
  destruct (timedelta d 0) as [td| |]; cbn [rbind] in E; try discriminate.
  destruct (date_add today td) as [day| |]; cbn [rbind] in E; try discriminate.
  rewrite E.
  destruct (seed_slots_run cs mode fb idx d Hcs (slots_of d) acc s Hf
                           (slots_of_NoDup d) Hfree)
    as (acc' & s' & E' & H').
  exists acc', s'. split; [exact E'|].
  unfold planned. cbn [flat_map]. rewrite app_nil_r. exact H'.
Qed.

Lemma seed_days_run cs :
  0 < len cs ->
  forall ds acc s,
    (forall d, In d ds -> 0 <= d < days) -> NoDup ds ->
    faults s = [] -> (forall d, In d ds -> free s (slots_of d)) ->
    exists acc' s',
      foldM (seed_day today fuel cs sh eh step mode fb idx) ds acc s
      = (Val acc', s') /\
      faults s' = [] /\ committed s' = committed s /\
      customers (current s') = customers (current s) /\
      keys (current s') = keys (current s) ++ planned ds.
Proof.
  intros Hcs. induction ds as [|d ds IH]; intros acc s Hds Hnd Hf Hfree.
  - exists acc, s. cbn. unfold ret. rewrite app_nil_r. auto.
  - inversion Hnd as [|? ? Hd Hnd']; subst.
    destruct (seed_day_run cs acc d s Hcs) as (acc1 & s1 & E1 & Hf1 & Hc1 & Hcu1 & Hk1);
      try assumption.
    { apply Hds. now left. }
    { apply Hfree. now left. }
    destruct (IH acc1 s1) as (acc' & s' & E' & Hf' & Hc' & Hcu' & Hk');
      try assumption.
    { intros d' Hd'. apply Hds. now right. }
    { intros d' Hd' dt n Hdt. rewrite Hk1. intros Hk. apply in_app_or in Hk.
      destruct Hk as [Hk|Hk].
      - apply (Hfree d' (or_intror Hd') dt n Hdt Hk).
      - unfold planned in Hk. cbn [flat_map] in Hk. rewrite app_nil_r in Hk.
        apply slots_block_In in Hk. cbn [fst] in Hk.
        apply slots_of_day in Hk, Hdt.
        assert (d' = d) by lia. subst d'. contradiction. }
    exists acc', s'. cbn [foldM]. rewrite (bind_val _ _ _ _ _ E1). rewrite E'.
    split; [reflexivity|]. split; [assumption|].
    split; [congruence|]. split; [congruence|].
    rewrite Hk', Hk1. unfold planned. cbn [flat_map].
    rewrite !app_nil_r, <- app_assoc. reflexivity.
Qed.

Lemma seed_reservations_run s :
  faults s = [] ->
  (forall d, 0 <= d < days -> free s (slots_of d)) ->
  exists out s',
    _seed_reservations today fuel days sh eh step mode fb s = (Val out, s') /\
    faults s' = [] /\ committed s' = committed s /\
    customers (current s') = customers (provisioned (current s)) /\
    keys (current s') = keys (current s) ++ planned (range 0 days).
Proof.
  intros Hf Hfree. unfold _seed_reservations.
  rewrite (bind_val _ _ _ _ _ (ensure_demo_customers_run s Hf)).
  pose proof (demo_data_provisioned_nonempty (current s)) as Hcs.
  set (cs := order_by_id (demo_rows (provisioned (current s)))) in *.
  set (s0 := with_current s (provisioned (current s))).
  assert (Hk0 : keys (current s0) = keys (current s)).
  { unfold s0, keys. cbn [current with_current].
    now rewrite provisioned_reservations. }
  destruct (seed_days_run cs Hcs (range 0 days) (0, 0) s0)
    as (acc' & s' & E' & Hf' & Hc' & Hcu' & Hk').
  - intros d Hd. apply range_In in Hd. lia.
  - apply range_NoDup.
  - exact Hf.
  - intros d Hd dt n Hdt. rewrite Hk0. apply range_In in Hd.
    apply (Hfree d); [lia|assumption].
  - destruct cs as [|c cs']; [unfold len in Hcs; cbn in Hcs; lia|].
    fold idx. rewrite (bind_val _ _ _ _ _ E'). unfold ret.
    eexists _, s'. split; [reflexivity|].
    split; [assumption|]. split; [exact Hc'|]. split; [exact Hcu'|].
    rewrite Hk', Hk0. reflexivity.
Qed.

Lemma tables_in_planned ds d dt :
  NoDup ds -> In d ds -> In dt (slots_of d) ->
  tables_in (planned ds) dt = range 1 (slot_target mode fb idx d dt + 1).
Proof using window step_pos.
  clear fuel_enough slots_fit days_fit today_valid.
  unfold planned. induction ds as [|x ds IH]; intros Hnd Hd Hdt; [destruct Hd|].
  inversion Hnd as [|? ? Hx Hnd']; subst.
  cbn [flat_map]. rewrite tables_in_app. destruct Hd as [->|Hd].
  - rewrite tables_in_slots_block by (try apply slots_of_NoDup; assumption).
    rewrite (tables_in_other (flat_map _ ds)); [now rewrite app_nil_r|].
    intros k Hk E. apply in_flat_map in Hk. destruct Hk as (d' & Hd' & Hk).
    apply slots_block_In in Hk. rewrite E in Hk.
    apply slots_of_day in Hk, Hdt. assert (d' = d) by lia. subst. contradiction.
  - rewrite (tables_in_other (slots_block _ (slots_of x))).
    + now apply IH.
    + intros k Hk E. apply slots_block_In in Hk. rewrite E in Hk.
      apply slots_of_day in Hk, Hdt. assert (x = d) by lia. subst. contradiction.
Qed.

Lemma tables_in_planned_none ds dt :
  (forall d, In d ds -> ~ In dt (slots_of d)) -> tables_in (planned ds) dt = [].
Proof.
  intros H. apply tables_in_other. intros k Hk E. unfold planned in Hk.
  apply in_flat_map in Hk. destruct Hk as (d & Hd & Hk).
  apply slots_block_In in Hk. rewrite E in Hk. now apply (H d).
Qed.

End SeedRun.

(** ** The week of the normal mode *)

(** The hour-of-day curve, in the words of the specification. *)
Definition curve_target (h : Z) : Z :=
  if h <? 18 then 8
  else if h =? 18 then 12
  else if h =? 19 then 18
  else if h =? 20 then 16
  else 10.

(** The expected occupancy of the slot at [h]:[m] on day-index [d] when the
    19:00 slot of day-index 2 is fully booked. *)
Definition week_target (d h m : Z) : Z :=
  if (d =? 2) && (h =? 19) && (m =? 0) then 30 else curve_target h.

Lemma dt_hour_combine day h m :
  0 <= h <= 23 -> 0 <= m <= 59 -> dt_hour (combine day (h * 60 + m)) = h.
Proof.
  intros Hh Hm. unfold dt_hour, combine. Z.div_mod_to_equations. lia.
Qed.

Lemma dt_minute_combine day h m :
  0 <= h <= 23 -> 0 <= m <= 59 -> dt_minute (combine day (h * 60 + m)) = m.
Proof.
  intros Hh Hm. unfold dt_minute, combine. Z.div_mod_to_equations. lia.
Qed.

Lemma slot_target_normal_week d day h m :
  0 <= h <= 23 -> 0 <= m <= 59 ->
  slot_target "normal" true 2 d (combine day (h * 60 + m)) = week_target d h m.
Proof.
  intros Hh Hm. unfold slot_target, week_target, curve_target, MAX_PER_SLOT.
  cbv zeta. rewrite dt_hour_combine, dt_minute_combine by assumption.
  reflexivity.
Qed.

(** The slots of the default window on day-index [d]. *)
Lemma default_slot_In today d h m :
  17 <= h <= 23 -> m = 0 \/ (m = 30 /\ h < 23) ->
  In (combine (today + d) (h * 60 + m)) (slots_of today 17 23 30 d).
Proof.
  intros Hh Hm. unfold slots_of. apply stepped_In.
  change ((23 - 17) * 60 / 30 + 1) with 13.
  exists (Z.to_nat (2 * (h - 17) + m / 30)).
  destruct Hm as [->|[-> Hlt]].
  - change (0 / 30) with 0. split; [lia|]. unfold combine. lia.
  - change (30 / 30) with 1. split; [lia|]. unfold combine. lia.
Qed.

Lemma default_slot_inv today d dt :
  In dt (slots_of today 17 23 30 d) ->
  exists h m, 17 <= h <= 23 /\ (m = 0 \/ (m = 30 /\ h < 23)) /\
              dt = combine (today + d) (h * 60 + m).
Proof.
  unfold slots_of. change ((23 - 17) * 60 / 30 + 1) with 13.
  intros H. apply stepped_In in H. destruct H as (k & Hk & ->).
  exists (17 + Z.of_nat k / 2), (30 * (Z.of_nat k mod 2)).
  unfold combine. Z.div_mod_to_equations. lia.
Qed.

(** C7: without database errors, on a day [today] whose sixth successor is
    still a date, normal-mode seeding of an empty reservations table with
    fully_book_demo = true, days = 7 and the window 17, 23, 30 returns and
    leaves, for every day-index d in 0..6 and every slot h:m of the window,
    exactly the table numbers 1..n once each, where n is 30 for the 19:00
    slot of day-index 2 and otherwise 8 for h < 18, 12 at 18, 18 at 19, 16
    at 20 and 10 for 21..23; no other time slot holds a reservation. *)
Theorem normal_seed_week :
  forall today fuel s,
    valid_date today -> today + 6 <= MAXORD -> (14 <= fuel)%nat ->
    faults s = [] -> reservations (current s) = [] ->
    exists out s',
      _seed_reservations today fuel 7 17 23 30 "normal" true s = (Val out, s') /\
      tables_at s' (combine (today + 2) (19 * 60)) = range 1 31 /\
      (forall d h m,
          0 <= d < 7 -> 17 <= h <= 23 -> m = 0 \/ (m = 30 /\ h < 23) ->
          tables_at s' (combine (today + d) (h * 60 + m))
          = range 1 (week_target d h m + 1) /\
          len (tables_at s' (combine (today + d) (h * 60 + m)))
          = week_target d h m) /\
      (forall dt,
          (forall d h m,
              0 <= d < 7 -> 17 <= h <= 23 -> m = 0 \/ (m = 30 /\ h < 23) ->
              dt <> combine (today + d) (h * 60 + m)) ->
          tables_at s' dt = []).
Proof.
  intros today fuel s Hd Hd6 Hfuel Hf Hempty.
  assert (Hwin : 0 <= 17 /\ 17 <= 23 <= 23) by lia.
  assert (Hstep : 0 < 30) by lia.
  assert (Hfuel' : (Z.to_nat ((23 - 17) * 60 / 30 + 1) < fuel)%nat).
  { change ((23 - 17) * 60 / 30 + 1) with 13. lia. }
  destruct (seed_reservations_run today fuel 7 17 23 30 "normal" true)
    with (s := s) as (out & s' & E & _ & _ & _ & Hk); try assumption; try lia.
  { intros d Hr. change ((23 - 17) * 60 / 30 + 1) with 13.
    unfold combine, MAXDT, valid_date, MINORD, MAXORD in *. lia. }
  { intros d _ dt n _. unfold keys. rewrite Hempty. intros []. }
  assert (Hkeys : keys (current s) = []) by (unfold keys; now rewrite Hempty).
  rewrite Hkeys in Hk. cbn [app] in Hk.
  assert (Hslot : forall d h m,
             0 <= d < 7 -> 17 <= h <= 23 -> m = 0 \/ (m = 30 /\ h < 23) ->
             tables_at s' (combine (today + d) (h * 60 + m))
             = range 1 (week_target d h m + 1)).
  { intros d h m Hrd Hh Hm. unfold tables_at. rewrite Hk.
    rewrite (tables_in_planned today 7 17 23 30 "normal" true Hwin Hstep
               (range 0 7) d);
      [| apply range_NoDup | apply range_In; lia | now apply default_slot_In ].
    change (Z.min 2 (Z.max 0 (7 - 1))) with 2.
    rewrite slot_target_normal_week by lia. reflexivity. }
  exists out, s'. split; [exact E|]. split; [|split].
  - change (19 * 60) with (19 * 60 + 0). rewrite Hslot by lia. reflexivity.
  - intros d h m Hrd Hh Hm. split; [now apply Hslot|].
    rewrite Hslot by assumption. rewrite range_length.
    unfold week_target, curve_target.
    repeat match goal with
           | |- context [if ?c then _ else _] => destruct c
           end; lia.
  - intros dt Hdt. unfold tables_at. rewrite Hk.
    apply tables_in_planned_none. intros d Hr Hin. apply range_In in Hr.
    apply default_slot_inv in Hin. destruct Hin as (h & m & Hh & Hm & ->).
    apply (Hdt d h m); try assumption; try lia; reflexivity.
Qed.

(** ** The capacity scenario *)

(** The session after [TRUNCATE TABLE reservations RESTART IDENTITY]. *)
Definition truncated_reservations (s : session) : session :=
  mkSession (committed s)
            (mkTables (customers (current s)) [] (customers_seq (current s)) 1)
            (faults s) (customers_held s)
            (hold (reservations_held s) (reservations_seq (current s))).

(** The session after [TRUNCATE TABLE customers RESTART IDENTITY CASCADE]. *)
Definition truncated_customers (s : session) : session :=
  mkSession (committed s) (mkTables [] [] 1 1) (faults s)
            (hold (customers_held s) (customers_seq (current s)))
            (hold (reservations_held s) (reservations_seq (current s))).

Lemma truncate_reservations_ok s :
  faults s = [] ->
  truncate_reservations s = (Val tt, truncated_reservations s).
Proof.
  intros H. unfold truncate_reservations.
  rewrite (bind_val _ _ _ _ _ (db_roundtrip_ok s H)). reflexivity.
Qed.

Lemma truncate_customers_ok s :
  faults s = [] ->
  truncate_customers s = (Val tt, truncated_customers s).
Proof.
  intros H. unfold truncate_customers.
  rewrite (bind_val _ _ _ _ _ (db_roundtrip_ok s H)). reflexivity.
Qed.

Lemma commit_ok s :
  faults s = [] ->
  commit s = (Val tt, mkSession (current s) (current s) [] None None).
Proof.
  intros H. unfold commit.
  rewrite (bind_val _ _ _ _ _ (db_roundtrip_ok s H)). now rewrite H.
Qed.

(** The row the table loop builds for table [n] when the identity sequence
    stands at [q]. *)
Definition row_for (cs : list Customer) (dt : datetime) (q n : Z) : Reservation :=
  mkReservation q
    (match py_index cs ((n - 1) mod len cs) with Val c => c_id c | _ => 0 end)
    (match py_index party_pattern ((n - 1) mod 6) with Val ps => ps | _ => 0 end)
    dt n.

Fixpoint rows_for (cs : list Customer) (dt : datetime) (q : Z) (ns : list Z)
  : list Reservation :=
  match ns with
  | [] => []
  | n :: ns' => row_for cs dt q n :: rows_for cs dt (q + 1) ns'
  end.

Lemma rows_for_keys cs dt ns : forall q, map key (rows_for cs dt q ns) = map (pair dt) ns.
Proof. induction ns as [|n ns IH]; intros q; [reflexivity|]. cbn. now rewrite IH. Qed.

Lemma rows_for_ids cs dt ns :
  forall q, map r_id (rows_for cs dt q ns) = range q (q + len ns).
Proof.
  induction ns as [|n ns IH]; intros q.
  - unfold range, len. cbn [List.length]. replace (q + Z.of_nat 0 - q) with 0 by lia.
    reflexivity.
  - cbn [rows_for map row_for r_id]. rewrite IH. unfold range, len.
    cbn [List.length].
    replace (Z.to_nat (q + Z.of_nat (S (List.length ns)) - q))
      with (S (List.length ns)) by lia.
    replace (Z.to_nat (q + 1 + Z.of_nat (List.length ns) - (q + 1)))
      with (List.length ns) by lia.
    cbn [seq map]. f_equal; [lia|].
    rewrite <- seq_shift, map_map. apply map_ext. intros k. lia.
Qed.

Lemma rows_for_created_ok cs dt ns :
  0 < len cs -> (forall n, In n ns -> 1 <= n <= 30) ->
  forall q, Forall (created_ok cs) (rows_for cs dt q ns).
Proof.
  intros Hcs. induction ns as [|n ns IH]; intros Hns q; [constructor|].
  cbn [rows_for]. constructor; [|apply IH; intros m Hm; apply Hns; now right].
  unfold created_ok, row_for. cbn [r_table_number r_party_size r_customer_id].
  destruct (py_index_ok cs ((n - 1) mod len cs)) as (c & Hc & Hc');
    [apply Z.mod_pos_bound; lia|].
  destruct (py_index_ok party_pattern ((n - 1) mod 6)) as (ps & Hps & Hps');
    [apply Z.mod_pos_bound; reflexivity|].
  rewrite Hc, Hps. split; [apply Hns; now left|]. split; [assumption|].
  exists c. auto.
Qed.

(** [fill_run] with the rows themselves. *)
Lemma fill_run_rows cs dt :
  0 < len cs ->
  forall ns created s,
    faults s = [] -> NoDup ns ->
    (forall n, In n ns -> ~ In (dt, n) (keys (current s))) ->
    exists s',
      foldM (seed_table cs dt) ns created s = (Val (created + len ns), s') /\
      faults s' = [] /\ committed s' = committed s /\
      customers (current s') = customers (current s) /\
      customers_seq (current s') = customers_seq (current s) /\
      reservations_seq (current s') = reservations_seq (current s) + len ns /\
      reservations (current s')
      = reservations (current s)
          ++ rows_for cs dt (reservations_seq (current s)) ns.
Proof.
  intros Hcs. induction ns as [|n ns IH]; intros created s Hf Hnd Hfree.
  - exists s. cbn [foldM rows_for]. unfold ret, len. cbn [List.length].
    rewrite app_nil_r, !Z.add_0_r. auto 10.
  - inversion Hnd as [|? ? Hn Hnd']; subst.
    destruct (seed_table_run cs dt created n s Hf Hcs) as (c & ps & Ec & Eps & E).
    assert (Hno : has_reservation (current s) dt n = false).
    { destruct (has_reservation (current s) dt n) eqn:Eh; [|reflexivity].
      apply has_reservation_In in Eh. exfalso. apply (Hfree n); [now left|assumption]. }
    rewrite Hno in E.
    set (s1 := with_current s (insert_reservation (current s) (c_id c) ps dt n)) in *.
    destruct (IH (created + 1) s1) as (s' & E' & Hf' & Hc' & Hcu' & Hcs' & Hrs' & Hr');
      try assumption.
    { intros m Hm. unfold s1. cbn [current with_current].
      rewrite insert_reservation_keys. intros Hin. apply in_app_or in Hin.
      destruct Hin as [Hin|[Heq|[]]].
      - apply (Hfree m); [now right|assumption].
      - injection Heq as ->. contradiction. }
    exists s'. cbn [foldM]. rewrite (bind_val _ _ _ _ _ E). rewrite E'.
    split; [f_equal; f_equal; unfold len; cbn [List.length]; lia|].
    split; [assumption|]. split; [assumption|]. split; [assumption|].
    split; [assumption|].
    split; [rewrite Hrs'; unfold s1, len; cbn; lia|].
    rewrite Hr'. unfold s1. cbn [current with_current insert_reservation
                                  reservations reservations_seq rows_for].
    rewrite <- app_assoc. unfold row_for. rewrite Ec, Eps. reflexivity.
Qed.

(** C8: without database errors, on any day [today] of the calendar and
    from any state of the tables, the capacity scenario with day_offset = 0,
    hour = 19, minute = 0, step = 30 returns, reports 30 and 29 created
    rows, and leaves committed a reservations table that holds nothing but
    the rows it has created after its wipe (identifiers restarted at 1):
    the tables 1..30 once each at 19:00 and 1..29 once each at 19:30. *)
Theorem capacity_scenario_default :
  forall today isoformat s,
    valid_date today -> faults s = [] ->
    let slot_full := combine today (19 * 60) in
    let slot_almost := slot_full + 30 in
    exists cs s',
      fst (_ensure_demo_customers s) = Val cs /\
      _seed_capacity_scenario today isoformat 0 19 0 30 s
      = (Val [("ok", JBool true);
              ("slot_full", JStr (isoformat slot_full));
              ("slot_almost", JStr (isoformat slot_almost));
              ("created_full", JInt 30);
              ("created_almost", JInt 29);
              ("note", JStr "slot_full has 30 reservations; slot_almost has 29.")],
         s') /\
      reservations (current s')
      = rows_for cs slot_full 1 (range 1 31)
          ++ rows_for cs slot_almost 31 (range 1 30) /\
      committed s' = current s' /\
      tables_at s' slot_full = range 1 31 /\
      tables_at s' slot_almost = range 1 30 /\
      len (tables_at s' slot_full) = 30 /\
      len (tables_at s' slot_almost) = 29 /\
      (forall dt, dt <> slot_full -> dt <> slot_almost -> tables_at s' dt = []).
Proof.
  intros today isoformat s Hd Hf. cbv zeta.
  set (slot_full := combine today (19 * 60)).
  pose proof (ensure_demo_customers_run s Hf) as E0.
  pose proof (demo_data_provisioned_nonempty (current s)) as Hcs.
  set (cs := order_by_id (demo_rows (provisioned (current s)))) in *.
  set (s0 := with_current s (provisioned (current s))) in *.
  assert (Hf0 : faults s0 = []) by exact Hf.
  pose proof (truncate_reservations_ok s0 Hf0) as E1.
  set (s1 := truncated_reservations s0) in *.
  assert (Hf1 : faults s1 = []) by exact Hf.
  pose proof (commit_ok s1 Hf1) as E2.
  set (s2 := mkSession (current s1) (current s1) [] None None) in *.
  destruct (fill_run_rows cs slot_full Hcs (range 1 31) 0 s2)
    as (s3 & E3 & Hf3 & Hc3 & Hcu3 & Hcq3 & Hrq3 & Hr3);
    [reflexivity | apply range_NoDup | intros n _ [] |].
  destruct (fill_run_rows cs (slot_full + 30) Hcs (range 1 30) 0 s3)
    as (s4 & E4 & Hf4 & Hc4 & Hcu4 & Hcq4 & Hrq4 & Hr4);
    [assumption | apply range_NoDup | |].
  { intros n _ Hin. unfold keys in Hin. rewrite Hr3 in Hin.
    cbn [s2 current reservations s1 truncated_reservations app] in Hin.
    rewrite rows_for_keys in Hin. apply in_map_iff in Hin.
    destruct Hin as (m & Hm & _). injection Hm as Hm _. lia. }
  pose proof (commit_ok s4 Hf4) as E5.
  assert (Hres : reservations (current s4)
                 = rows_for cs slot_full 1 (range 1 31)
                     ++ rows_for cs (slot_full + 30) 31 (range 1 30)).
  { rewrite Hr4, Hrq3, Hr3. reflexivity. }
  exists cs, (mkSession (current s4) (current s4) [] None None).
  split; [now rewrite E0|]. split.
  - unfold _seed_capacity_scenario.
    rewrite (bind_val _ _ _ _ _ E0).
    destruct cs as [|c cs']; [unfold len in Hcs; cbn in Hcs; lia|].
    unfold lift, bind at 1 2 3 4 5.
    rewrite timedelta_days_ok by lia. cbn [rbind].
    rewrite (date_add_ok today 0)
      by (unfold valid_date in Hd; lia).
    rewrite time_hm_ok by lia.
    rewrite timedelta_minutes_ok by lia.
    replace (today + 0) with today by lia.
    change (19 * 60 + 0) with (19 * 60). fold slot_full.
    rewrite dt_add_ok
      by (unfold slot_full, combine, MINDT, MAXDT, valid_date, MINORD, MAXORD in *; lia).
    rewrite (bind_val _ _ _ _ _ E1).
    rewrite (bind_val _ _ _ _ _ E2).
    unfold _fill_slot.
    change (30 + 1) with 31. change (29 + 1) with 30.
    rewrite (bind_val _ _ _ _ _ E3).
    rewrite (bind_val _ _ _ _ _ E4).
    rewrite (bind_val _ _ _ _ _ E5).
    reflexivity.
  - cbn [current committed].
    assert (Hkeys : keys (current s4)
                    = slot_block (fun _ => 30) slot_full
                        ++ slot_block (fun _ => 29) (slot_full + 30)).
    { unfold keys. rewrite Hres, map_app, !rows_for_keys. reflexivity. }
    assert (Hfull : tables_at (mkSession (current s4) (current s4) [] None None) slot_full
                    = range 1 31).
    { unfold tables_at. cbn [current]. rewrite Hkeys, tables_in_app.
      rewrite (tables_in_slot_block_same (fun _ => 30)).
      rewrite tables_in_other; [now rewrite app_nil_r|].
      intros k Hk. apply slot_block_In in Hk. lia. }
    assert (Halmost : tables_at (mkSession (current s4) (current s4) [] None None)
                                (slot_full + 30) = range 1 30).
    { unfold tables_at. cbn [current]. rewrite Hkeys, tables_in_app.
      rewrite (tables_in_slot_block_same (fun _ => 29)).
      rewrite tables_in_other; [reflexivity|].
      intros k Hk. apply slot_block_In in Hk. lia. }
    split; [exact Hres|]. split; [reflexivity|].
    split; [exact Hfull|]. split; [exact Halmost|].
    split; [now rewrite Hfull|]. split; [now rewrite Halmost|].
    intros dt H1 H2. unfold tables_at. cbn [current]. rewrite Hkeys.
    apply tables_in_other. intros k Hk. apply in_app_or in Hk.
    destruct Hk as [Hk|Hk]; apply slot_block_In in Hk; congruence.
Qed.

(** ** The handlers *)

(** [m] leaves the persisted tables alone, whatever its outcome. *)
Definition keepsC {A} (m : M A) : Prop :=
  forall s, committed (snd (m s)) = committed s.

Lemma keepsC_ret {A} (a : A) : keepsC (ret a).
Proof. intros s. reflexivity. Qed.

Lemma keepsC_lift {A} (r : res A) : keepsC (lift r).
Proof. intros s. reflexivity. Qed.

Lemma keepsC_bind {A B} (m : M A) (k : A -> M B) :
  keepsC m -> (forall a, keepsC (k a)) -> keepsC (bind m k).
Proof.
  intros Hm Hk s. specialize (Hm s). unfold bind.
  destruct (m s) as [[a|e|] s']; cbn [snd] in *; try assumption.
  now rewrite Hk.
Qed.

Lemma keepsC_foldM {A B} (body : B -> A -> M B) (l : list A) :
  (forall acc x, keepsC (body acc x)) -> forall acc, keepsC (foldM body l acc).
Proof.
  intros Hb. induction l as [|x l IH]; intros acc.
  - apply keepsC_ret.
  - cbn [foldM]. apply keepsC_bind; [apply Hb|assumption].
Qed.

Lemma keepsC_db_roundtrip : keepsC db_roundtrip.
Proof.
  intros s. destruct (db_roundtrip_cases s) as (s' & Hc & _ & [E|[msg E]]);
    now rewrite E.
Qed.

Lemma keepsC_get_current : keepsC get_current.
Proof. intros s. reflexivity. Qed.

Lemma keepsC_set_current t : keepsC (set_current t).
Proof. intros s. reflexivity. Qed.

Ltac keepsC_step :=
  first [ apply keepsC_ret
        | apply keepsC_lift
        | apply keepsC_db_roundtrip
        | apply keepsC_get_current
        | apply keepsC_set_current
        | apply keepsC_bind; [|intros ?] ].

Lemma keepsC_ensure_demo_customers : keepsC _ensure_demo_customers.
Proof.
  unfold _ensure_demo_customers, query_demo_emails, query_demo_customers.
  apply keepsC_bind; [repeat keepsC_step|]. intros existing.
  apply keepsC_bind; [|intros _; repeat keepsC_step].
  destruct (filter _ demo_data) as [|d ds]; [apply keepsC_ret|].
  apply keepsC_bind; [|intros _; apply keepsC_db_roundtrip].
  unfold add_all. apply keepsC_foldM. intros _ [[[n e] p] ns].
  unfold add_customer. repeat keepsC_step.
Qed.

Lemma keepsC_seed_table cs dt created n : keepsC (seed_table cs dt created n).
Proof. intros s. apply seed_table_effect. Qed.

Lemma keepsC_seed_reservations today fuel days sh eh step mode fb :
  keepsC (_seed_reservations today fuel days sh eh step mode fb).
Proof.
  unfold _seed_reservations.
  apply keepsC_bind; [apply keepsC_ensure_demo_customers|]. intros cs.
  destruct cs as [|c cs]; [apply keepsC_ret|].
  apply keepsC_bind; [|intros acc; apply keepsC_ret].
  apply keepsC_foldM. intros acc d. unfold seed_day.
  repeat (apply keepsC_bind; [apply keepsC_lift|intros ?]).
  apply keepsC_foldM. intros [n1 n2] dt. unfold seed_slot.
  apply keepsC_bind.
  - apply keepsC_foldM. intros created n. apply keepsC_seed_table.
  - intros seeded. destruct (seeded >? 0); apply keepsC_ret.
Qed.

Lemma commit_exc s e s' :
  commit s = (Exc e, s') -> committed s' = committed s.
Proof.
  unfold commit, bind.
  destruct (db_roundtrip_cases s) as (s1 & Hc & _ & [E|[msg E]]); rewrite E.
  - discriminate.
  - intros H. injection H as _ <-. exact Hc.
Qed.

(** The session a handler opens on the persisted tables. *)
Definition fresh (s : session) : session :=
  mkSession (committed s) (rolled_back s) (faults s) None None.

(** The wipe with which [admin_seed] and [admin_small_seed] start, up to
    its commit. *)
Definition wipe (wipe_customers : bool) : M unit :=
  (truncate_reservations ;;
   (if wipe_customers then truncate_customers else ret tt) ;;
   commit)%M.

(** The tables once wiped. *)
Definition wiped (wipe_customers : bool) (t : tables) : tables :=
  if wipe_customers then mkTables [] [] 1 1
  else mkTables (customers t) [] (customers_seq t) 1.

(** The rest of the [try] block: the seeding, its commit, the response. *)
Definition seeding (today : date) (fuel : nat) (wipe_customers : bool)
           (days start_hour end_hour step : Z) (mode : string)
           (fully_book_demo : bool) : M response :=
  (result <- _seed_reservations today fuel days start_hour end_hour step mode
                                fully_book_demo ;;
   commit ;;
   ret (mkResponse ([("ok", JBool true); ("wiped_customers", JBool wipe_customers)]
                      ++ result) 200))%M.

Definition wipe_customers_of (req : request) : bool :=
  String.eqb (lower (get_str req "wipe_customers" "false")) "true".

Definition fully_book_demo_of (req : request) : bool :=
  String.eqb (lower (get_str req "fully_book_demo" "true")) "true".

(** The seeding part of a request to /api/admin/seed and to
    /api/admin/smallseed. *)
Definition seed_seeding (today : date) (fuel : nat) (req : request) : M response :=
  seeding today fuel (wipe_customers_of req)
          (get_int req "days" 7) (get_int req "start_hour" 17)
          (get_int req "end_hour" 23) (get_int req "step" 30)
          "normal" (fully_book_demo_of req).

Definition smallseed_seeding (today : date) (fuel : nat) (req : request)
  : M response :=
  seeding today fuel (wipe_customers_of req)
          (get_int req "days" 1) (get_int req "start_hour" 17)
          (get_int req "end_hour" 23) (get_int req "step" 30)
          "small" false.

Definition guarded (body : M response) : M response :=
  try_finally (try_except body (fun e => rollback ;; ret (server_error e))%M) close.

Lemma guarded_exc body s e s' :
  body s = (Exc e, s') ->
  guarded body s = (Val (server_error e), fresh s').
Proof.
  intros H. unfold guarded, try_finally, try_except. rewrite H. reflexivity.
Qed.

Lemma guarded_val body s r s' :
  body s = (Val r, s') -> guarded body s = (Val r, fresh s').
Proof.
  intros H. unfold guarded, try_finally, try_except. rewrite H. reflexivity.
Qed.

Lemma tables_eta (t : tables) :
  mkTables (customers t) (reservations t) (customers_seq t) (reservations_seq t)
  = t.
Proof. now destruct t. Qed.

(** Closing a session right after its commit changes nothing. *)
Lemma guarded_val_committed body s r t fs :
  body s = (Val r, mkSession t t fs None None) ->
  guarded body s = (Val r, mkSession t t fs None None).
Proof.
  intros H. rewrite (guarded_val _ _ _ _ H).
  unfold fresh, rolled_back. cbn. now rewrite tables_eta.
Qed.

Lemma wipe_then {A} (wc : bool) (k : M A) (s : session) :
  (truncate_reservations ;;
   (if wc then truncate_customers else ret tt) ;;
   commit ;; k)%M s
  = (wipe wc ;; k)%M s.
Proof.
  unfold wipe, bind.
  destruct (truncate_reservations s) as [[a|e|] s']; try reflexivity.
  destruct ((if wc then truncate_customers else ret tt) s') as [[a'|e|] s''];
    reflexivity.
Qed.

Lemma admin_seed_authorized today TOKEN fuel req s :
  token_differs TOKEN (x_admin_token req) = false ->
  admin_seed today TOKEN fuel req s
  = guarded (wipe (wipe_customers_of req) ;; seed_seeding today fuel req)%M
            (fresh s).
Proof.
  intros H. unfold admin_seed. rewrite H. cbv zeta.
  unfold bind at 1, SessionLocal. fold (fresh s).
  unfold guarded, try_finally, try_except.
  rewrite <- wipe_then. reflexivity.
Qed.

Lemma admin_small_seed_authorized today TOKEN fuel req s :
  token_differs TOKEN (x_admin_token req) = false ->
  admin_small_seed today TOKEN fuel req s
  = guarded (wipe (wipe_customers_of req) ;; smallseed_seeding today fuel req)%M
            (fresh s).
Proof.
  intros H. unfold admin_small_seed. rewrite H. cbv zeta.
  unfold bind at 1, SessionLocal. fold (fresh s).
  unfold guarded, try_finally, try_except.
  rewrite <- wipe_then. reflexivity.
Qed.

Lemma wipe_val wc s s' :
  wipe wc s = (Val tt, s') ->
  committed s' = wiped wc (current s) /\ current s' = committed s'.
Proof.
  unfold wipe, wiped, truncate_reservations, truncate_customers, commit, bind,
    db_roundtrip, get_current, set_current, ret.
  destruct s as [c t fs]. cbn [faults current committed].
  destruct wc; destruct fs as [|[m|] [|[m'|] [|[m''|] fs]]];
    cbn; intros H; try discriminate; injection H as <-; auto.
Qed.

Lemma wipe_exc wc s e s' :
  wipe wc s = (Exc e, s') -> committed s' = committed s.
Proof.
  unfold wipe, wiped, truncate_reservations, truncate_customers, commit, bind,
    db_roundtrip, get_current, set_current, ret.
  destruct s as [c t fs]. cbn [faults current committed].
  destruct wc; destruct fs as [|[m|] [|[m'|] [|[m''|] fs]]];
    cbn; intros H; try discriminate; injection H as _ <-; auto.
Qed.

Lemma seeding_exc today fuel wc days sh eh step mode fb s e s' :
  seeding today fuel wc days sh eh step mode fb s = (Exc e, s') ->
  committed s' = committed s.
Proof.
  unfold seeding, bind at 1.
  pose proof (keepsC_seed_reservations today fuel days sh eh step mode fb s) as K.
  destruct (_seed_reservations today fuel days sh eh step mode fb s)
    as [[out|e0|] s1]; cbn [snd] in K.
  - unfold bind. destruct (commit s1) as [[[]|e1|] s2] eqn:Ec; try discriminate.
    intros H. injection H as _ <-. apply commit_exc in Ec. congruence.
  - intros H. injection H as _ <-. exact K.
  - discriminate.
Qed.

Lemma wiped_rows wc t :
  customers (wiped wc t) = (if wc then [] else customers t) /\
  reservations (wiped wc t) = [].
Proof. now destruct wc. Qed.

(** After a committed wipe, an error in the rest of the [try] block gives
    the 500 response and leaves the wiped rows persisted; the closed
    session shows the persisted rows. *)
Lemma guarded_wipe_then_error today fuel wc days sh eh step mode fb s e :
  fst (wipe wc (fresh s)) = Val tt ->
  fst (seeding today fuel wc days sh eh step mode fb (snd (wipe wc (fresh s))))
  = Exc e ->
  let r := guarded (wipe wc ;; seeding today fuel wc days sh eh step mode fb)%M
                   (fresh s) in
  fst r = Val (mkResponse [("ok", JBool false); ("error", JStr (str e))] 500) /\
  reservations (committed (snd r)) = [] /\
  customers (committed (snd r)) = (if wc then [] else customers (committed s)) /\
  reservations (current (snd r)) = reservations (committed (snd r)) /\
  customers (current (snd r)) = customers (committed (snd r)).
Proof.
  intros H1 H2. cbv zeta.
  destruct (wipe wc (fresh s)) as [r1 s1] eqn:E1. cbn [fst snd] in *. subst r1.
  destruct (seeding today fuel wc days sh eh step mode fb s1) as [r2 s2] eqn:E2.
  cbn [fst] in H2. subst r2.
  rewrite (guarded_exc _ _ e s2).
  - cbn [fst snd fresh committed current rolled_back customers reservations].
    split; [reflexivity|].
    apply seeding_exc in E2. apply wipe_val in E1. destruct E1 as [E1 _].
    rewrite E2, E1. cbn [fresh current].
    destruct (wiped_rows wc (rolled_back s)) as [-> ->].
    cbn [rolled_back customers]. auto.
  - rewrite (bind_val _ _ _ _ _ E1). exact E2.
Qed.

(** *** Authentication *)

Lemma admin_seed_unauthorized today TOKEN fuel req s :
  token_differs TOKEN (x_admin_token req) = true ->
  admin_seed today TOKEN fuel req s = (Val unauthorized, s).
Proof. intros H. unfold admin_seed. now rewrite H. Qed.

Lemma admin_small_seed_unauthorized today TOKEN fuel req s :
  token_differs TOKEN (x_admin_token req) = true ->
  admin_small_seed today TOKEN fuel req s = (Val unauthorized, s).
Proof. intros H. unfold admin_small_seed. now rewrite H. Qed.

(** C1 fails on the code for /api/admin/seed_capacity: [admin_seed] and
    [admin_small_seed] answer 401 and leave the session untouched when the
    token differs from the secret, but [admin_seed_capacity] reads the
    header and never compares it.  Its outcome does not depend on the
    header, and the request without a header, on [a_day] over
    [booked_tables], is answered 200 after the reservation table has been
    wiped and refilled with 59 rows. *)
Theorem admin_seed_capacity_skips_token_check :
  (forall today TOKEN fuel req s,
      token_differs TOKEN (x_admin_token req) = true ->
      admin_seed today TOKEN fuel req s = (Val unauthorized, s) /\
      admin_small_seed today TOKEN fuel req s = (Val unauthorized, s)) /\
  (forall today isoformat token token' ints strs s,
      admin_seed_capacity today isoformat (mkRequest token ints strs) s
      = admin_seed_capacity today isoformat (mkRequest token' ints strs) s) /\
  (exists resp s',
      admin_seed_capacity a_day no_iso anonymous_request booked_session
      = (Val resp, s') /\
      status resp = 200 /\
      In a_reservation (reservations (committed booked_session)) /\
      ~ In a_reservation (reservations (committed s')) /\
      len (reservations (committed s')) = 59).
Proof.
  split; [|split].
  - intros today TOKEN fuel req s H. split.
    + now apply admin_seed_unauthorized.
    + now apply admin_small_seed_unauthorized.
  - reflexivity.
  - eexists _, _. split; [vm_compute; reflexivity|].
    split; [reflexivity|]. split; [now left|]. split; [|reflexivity].
    cbn [committed reservations]. intros H.
    repeat (destruct H as [H|H]; [discriminate H|]). exact H.
Qed.

(** *** Errors while seeding *)

(** An error in the wipe itself leaves the persisted tables as they were. *)
Lemma guarded_wipe_error today fuel wc days sh eh step mode fb s e :
  fst (wipe wc (fresh s)) = Exc e ->
  let r := guarded (wipe wc ;; seeding today fuel wc days sh eh step mode fb)%M
                   (fresh s) in
  fst r = Val (server_error e) /\ committed (snd r) = committed s.
Proof.
  intros H1. cbv zeta.
  destruct (wipe wc (fresh s)) as [r1 s1] eqn:E1. cbn [fst] in H1. subst r1.
  rewrite (guarded_exc _ _ e s1).
  - split; [reflexivity|]. cbn [snd fresh committed].
    now apply wipe_exc in E1.
  - now rewrite (bind_exc _ _ _ _ _ E1).
Qed.

(** C2 (amended): for an authorized request to /api/admin/seed or
    /api/admin/smallseed whose wipe has been committed, an error (a database
    error in particular) in the seeding or in its commit makes the handler
    answer HTTP 500 with ok = false and the error message; the rollback
    discards the rows added after the wipe, and the persisted rows are the
    wiped ones: no reservations, and the customers as before the request
    unless they were wiped too (then none); the closed session shows these
    rows.  The statement is about rows: the identity values drawn by the
    discarded work are not given back ([late_failure_keeps_drawn_ids]). *)
Theorem seed_error_keeps_wipe :
  forall today TOKEN fuel req s e,
    token_differs TOKEN (x_admin_token req) = false ->
    fst (wipe (wipe_customers_of req) (fresh s)) = Val tt ->
    (fst (seed_seeding today fuel req
                       (snd (wipe (wipe_customers_of req) (fresh s)))) = Exc e ->
     fst (admin_seed today TOKEN fuel req s)
     = Val (mkResponse [("ok", JBool false); ("error", JStr (str e))] 500) /\
     reservations (committed (snd (admin_seed today TOKEN fuel req s))) = [] /\
     customers (committed (snd (admin_seed today TOKEN fuel req s)))
     = (if wipe_customers_of req then [] else customers (committed s)) /\
     reservations (current (snd (admin_seed today TOKEN fuel req s)))
     = reservations (committed (snd (admin_seed today TOKEN fuel req s))) /\
     customers (current (snd (admin_seed today TOKEN fuel req s)))
     = customers (committed (snd (admin_seed today TOKEN fuel req s)))) /\
    (fst (smallseed_seeding today fuel req
                            (snd (wipe (wipe_customers_of req) (fresh s)))) = Exc e ->
     fst (admin_small_seed today TOKEN fuel req s)
     = Val (mkResponse [("ok", JBool false); ("error", JStr (str e))] 500) /\
     reservations (committed (snd (admin_small_seed today TOKEN fuel req s))) = [] /\
     customers (committed (snd (admin_small_seed today TOKEN fuel req s)))
     = (if wipe_customers_of req then [] else customers (committed s)) /\
     reservations (current (snd (admin_small_seed today TOKEN fuel req s)))
     = reservations (committed (snd (admin_small_seed today TOKEN fuel req s))) /\
     customers (current (snd (admin_small_seed today TOKEN fuel req s)))
     = customers (committed (snd (admin_small_seed today TOKEN fuel req s)))).
Proof.
  intros today TOKEN fuel req s e Htok Hwipe. split; intros Hseed.
  - rewrite (admin_seed_authorized today TOKEN fuel req s Htok).
    now apply guarded_wipe_then_error.
  - rewrite (admin_small_seed_authorized today TOKEN fuel req s Htok).
    now apply guarded_wipe_then_error.
Qed.

Lemma seed_error_keeps_wipe_witness :
  (fst (admin_seed a_day "dev-secret-123" 14 admin_request failing_session)
   = Val (mkResponse [("ok", JBool false);
                      ("error", JStr (str (DBError "connection lost")))] 500) /\
   reservations (committed (snd (admin_seed a_day "dev-secret-123" 14
                                            admin_request failing_session)))
   = [] /\
   customers (committed (snd (admin_seed a_day "dev-secret-123" 14
                                         admin_request failing_session)))
   = (if wipe_customers_of admin_request then []
      else customers (committed failing_session)) /\
   reservations (current (snd (admin_seed a_day "dev-secret-123" 14
                                          admin_request failing_session)))
   = reservations (committed (snd (admin_seed a_day "dev-secret-123" 14
                                              admin_request failing_session))) /\
   customers (current (snd (admin_seed a_day "dev-secret-123" 14
                                       admin_request failing_session)))
   = customers (committed (snd (admin_seed a_day "dev-secret-123" 14
                                           admin_request failing_session)))) /\
  (fst (admin_small_seed a_day "dev-secret-123" 14 admin_request failing_session)
   = Val (mkResponse [("ok", JBool false);
                      ("error", JStr (str (DBError "connection lost")))] 500) /\
   reservations (committed (snd (admin_small_seed a_day "dev-secret-123" 14
                                                  admin_request failing_session)))
   = [] /\
   customers (committed (snd (admin_small_seed a_day "dev-secret-123" 14
                                               admin_request failing_session)))
   = (if wipe_customers_of admin_request then []
      else customers (committed failing_session)) /\
   reservations (current (snd (admin_small_seed a_day "dev-secret-123" 14
                                                admin_request failing_session)))
   = reservations (committed (snd (admin_small_seed a_day "dev-secret-123" 14
                                                    admin_request
                                                    failing_session))) /\
   customers (current (snd (admin_small_seed a_day "dev-secret-123" 14
                                             admin_request failing_session)))
   = customers (committed (snd (admin_small_seed a_day "dev-secret-123" 14
                                                 admin_request failing_session)))).
Proof.
  pose proof (seed_error_keeps_wipe a_day "dev-secret-123" 14 admin_request
                failing_session (DBError "connection lost")
                eq_refl eq_refl) as [H1 H2].
  split; [apply H1|apply H2]; reflexivity.
Defined.

(** C2, as stated, fails: an authorized default request to /api/admin/seed
    over [booked_tables], where the database fails at the first query of the
    seeding, is answered 500, and the reservation that was persisted before
    the request is gone. *)
Lemma seed_error_does_not_restore_wipe :
  token_differs "dev-secret-123" (x_admin_token admin_request) = false /\
  fst (admin_seed a_day "dev-secret-123" 14 admin_request failing_session)
  = Val (mkResponse [("ok", JBool false); ("error", JStr "connection lost")] 500) /\
  reservations (committed failing_session) = [a_reservation] /\
  reservations (committed (snd (admin_seed a_day "dev-secret-123" 14
                                           admin_request failing_session)))
  = [].
Proof. repeat split. Qed.

(** The database fails at the first existence query of the seeding, once
    the provisioner has flushed nine new customers. *)
Definition late_failing_session : session :=
  mkSession booked_tables booked_tables
            [None; None; None; None; None; Some "connection lost"] None None.

(** The rows of the failed request are discarded, the identity values it
    has drawn are not: the customers persisted are those of before, and the
    next customer is numbered 11. *)
Example late_failure_keeps_drawn_ids :
  exists s',
    admin_seed a_day "dev-secret-123" 14 admin_request late_failing_session
    = (Val (mkResponse [("ok", JBool false); ("error", JStr "connection lost")]
                       500), s') /\
    customers (committed s') = [a_customer] /\
    reservations (committed s') = [] /\
    customers_seq (current late_failing_session) = 2 /\
    customers_seq (current s') = 11 /\
    reservations_seq (current s') = 1.
Proof. eexists. split; [vm_compute; reflexivity|]. repeat split. Qed.

(** The database fails at the commit of the wipe. *)
Definition wipe_failing_session : session :=
  mkSession booked_tables booked_tables [None; Some "connection lost"] None None.

(** A wipe that is not committed is undone with its restart: the rows and
    the sequences are those of before the request. *)
Example failed_wipe_is_undone :
  exists s',
    admin_seed a_day "dev-secret-123" 14 admin_request wipe_failing_session
    = (Val (mkResponse [("ok", JBool false); ("error", JStr "connection lost")]
                       500), s') /\
    committed s' = booked_tables /\ current s' = booked_tables.
Proof. eexists. split; [vm_compute; reflexivity|]. repeat split. Qed.

(** *** The theorems at the sample data *)

Lemma ensure_demo_customers_idempotent_witness :
  exists cs1 s1 cs2 s2,
    _ensure_demo_customers booked_session = (Val cs1, s1) /\
    _ensure_demo_customers s1 = (Val cs2, s2) /\
    (exists added,
        emails (current s1) = emails (current booked_session) ++ added /\
        NoDup added /\
        forall e, In e added -> ~ In e (emails (current booked_session))) /\
    (NoDup (emails (current booked_session)) ->
     NoDup (emails (current s1)) /\ NoDup (emails (current s2))) /\
    s2 = s1 /\ cs2 = cs1 /\ len cs1 = len cs2 /\
    Permutation cs1 (demo_rows (current s1)) /\ Sorted by_id cs1 /\
    Permutation cs2 (demo_rows (current s2)) /\ Sorted by_id cs2 /\
    (forall d, In d demo_data -> In (demo_email d) (map c_email cs1)).
Proof.
  apply (ensure_demo_customers_idempotent booked_session). reflexivity.
Defined.

Lemma normal_seed_week_witness :
  exists out s',
    _seed_reservations a_day 14 7 17 23 30 "normal" true quiet_session
    = (Val out, s') /\
    tables_at s' (combine (a_day + 2) (19 * 60)) = range 1 31 /\
    (forall d h m,
        0 <= d < 7 -> 17 <= h <= 23 -> m = 0 \/ (m = 30 /\ h < 23) ->
        tables_at s' (combine (a_day + d) (h * 60 + m))
        = range 1 (week_target d h m + 1) /\
        len (tables_at s' (combine (a_day + d) (h * 60 + m)))
        = week_target d h m) /\
    (forall dt,
        (forall d h m,
            0 <= d < 7 -> 17 <= h <= 23 -> m = 0 \/ (m = 30 /\ h < 23) ->
            dt <> combine (a_day + d) (h * 60 + m)) ->
        tables_at s' dt = []).
Proof.
  apply (normal_seed_week a_day 14 quiet_session);
    unfold valid_date, a_day, MINORD, MAXORD; try lia; reflexivity.
Defined.

Lemma capacity_scenario_default_witness :
  exists cs s',
    fst (_ensure_demo_customers booked_session) = Val cs /\
    _seed_capacity_scenario a_day no_iso 0 19 0 30 booked_session
    = (Val [("ok", JBool true);
            ("slot_full", JStr (no_iso (combine a_day (19 * 60))));
            ("slot_almost", JStr (no_iso (combine a_day (19 * 60) + 30)));
            ("created_full", JInt 30);
            ("created_almost", JInt 29);
            ("note", JStr "slot_full has 30 reservations; slot_almost has 29.")],
       s') /\
    reservations (current s')
    = rows_for cs (combine a_day (19 * 60)) 1 (range 1 31)
        ++ rows_for cs (combine a_day (19 * 60) + 30) 31 (range 1 30) /\
    committed s' = current s' /\
    tables_at s' (combine a_day (19 * 60)) = range 1 31 /\
    tables_at s' (combine a_day (19 * 60) + 30) = range 1 30 /\
    len (tables_at s' (combine a_day (19 * 60))) = 30 /\
    len (tables_at s' (combine a_day (19 * 60) + 30)) = 29 /\
    (forall dt, dt <> combine a_day (19 * 60) ->
                dt <> combine a_day (19 * 60) + 30 -> tables_at s' dt = []).
Proof.
  apply (capacity_scenario_default a_day no_iso booked_session).
  - unfold valid_date, a_day, MINORD, MAXORD. lia.
  - reflexivity.
Defined.

(** *** Sample runs *)

Example default_window_slots :
  _slots_for_day 14 a_day 17 23 30
  = Val (map (fun k => combine a_day (17 * 60) + 30 * k) (range 0 13)).
Proof. reflexivity. Qed.

Example anonymous_seed_is_refused :
  admin_seed a_day "dev-secret-123" 14 anonymous_request booked_session
  = (Val (mkResponse [("error", JStr "unauthorized")] 401), booked_session).
Proof. reflexivity. Qed.

Example default_seed_summary :
  fst (admin_seed a_day "dev-secret-123" 14 admin_request booked_session)
  = Val (mkResponse [("ok", JBool true); ("wiped_customers", JBool false);
                     ("created_slots", JInt 91);
                     ("created_reservations", JInt 1118)] 200).
Proof. vm_compute. reflexivity. Qed.

Example default_small_seed_summary :
  fst (admin_small_seed a_day "dev-secret-123" 14 admin_request booked_session)
  = Val (mkResponse [("ok", JBool true); ("wiped_customers", JBool false);
                     ("created_slots", JInt 13);
                     ("created_reservations", JInt 39)] 200).
Proof. vm_compute. reflexivity. Qed.

Example small_seed_first_slot :
  filter (fun r => r_time_slot r =? combine a_day (17 * 60))
         (reservations
            (committed
               (snd (admin_small_seed a_day "dev-secret-123" 14 admin_request
                                      booked_session))))
  = [ mkReservation 1 1 2 (combine a_day (17 * 60)) 1;
      mkReservation 2 2 4 (combine a_day (17 * 60)) 2;
      mkReservation 3 3 3 (combine a_day (17 * 60)) 3 ].
Proof. vm_compute. reflexivity. Qed.

(** * Further properties of the module *)

(** ** The counters of the seeder *)

Lemma bind_val_inv {A B} (m : M A) (k : A -> M B) s b s' :
  bind m k s = (Val b, s') ->
  exists a s1, m s = (Val a, s1) /\ k a s1 = (Val b, s').
Proof.
  unfold bind. destruct (m s) as [[a|e|] s1]; try discriminate.
  intros H. exists a, s1. auto.
Qed.

Lemma db_roundtrip_val s s' :
  db_roundtrip s = (Val tt, s') ->
  current s' = current s /\ committed s' = committed s.
Proof.
  destruct (db_roundtrip_cases s) as (s1 & Hc & Hcu & [E|[msg E]]); rewrite E;
    intros H; [|discriminate]. injection H as <-. auto.
Qed.

(** A returning round of the table loop either skips the table or counts
    one and appends one row. *)
Lemma seed_table_val cs dt created n s c' s' :
  seed_table cs dt created n s = (Val c', s') ->
  (c' = created /\ reservations (current s') = reservations (current s)) \/
  (c' = created + 1 /\
   exists r, reservations (current s') = reservations (current s) ++ [r]).
Proof.
  unfold seed_table, query_reservation_exists. intros H.
  apply bind_val_inv in H. destruct H as (found & s1 & Hq & H).
  apply bind_val_inv in Hq. destruct Hq as ([] & s0 & Hd & Hq).
  apply db_roundtrip_val in Hd. destruct Hd as [Hcu _].
  apply bind_val_inv in Hq. destruct Hq as (t & s0' & Hg & Hq).
  unfold get_current in Hg. injection Hg as <- <-.
  unfold ret in Hq. injection Hq as <- <-.
  destruct (existsb _ _).
  - unfold ret in H. injection H as <- <-. left. now rewrite Hcu.
  - apply bind_val_inv in H. destruct H as (i & s2 & Hi & H).
    unfold lift in Hi. injection Hi as Hi <-.
    apply bind_val_inv in H. destruct H as (c & s2 & Hc & H).
    unfold lift in Hc. injection Hc as Hc <-.
    apply bind_val_inv in H. destruct H as (j & s2 & Hj & H).
    unfold lift in Hj. injection Hj as Hj <-.
    apply bind_val_inv in H. destruct H as (ps & s2 & Hps & H).
    unfold lift in Hps. injection Hps as Hps <-.
    apply bind_val_inv in H. destruct H as ([] & s2 & Ha & H).
    unfold ret in H. injection H as <- <-.
    unfold add_reservation, bind, get_current, set_current in Ha.
    injection Ha as <-. right. split; [reflexivity|].
    cbn [current reservations]. rewrite Hcu. eauto.
Qed.

Lemma tables_loop_val cs dt ns :
  forall created s c' s',
    foldM (seed_table cs dt) ns created s = (Val c', s') ->
    0 <= c' - created /\
    len (reservations (current s'))
    = len (reservations (current s)) + (c' - created).
Proof.
  induction ns as [|n ns IH]; intros created s c' s' H.
  - cbn in H. unfold ret in H. injection H as <- <-. lia.
  - cbn [foldM] in H. apply bind_val_inv in H. destruct H as (c1 & s1 & H1 & H).
    apply IH in H. apply seed_table_val in H1.
    destruct H1 as [[-> E]|[-> [r E]]]; rewrite E in H.
    + lia.
    + unfold len in *. rewrite length_app in H. cbn [List.length] in H. lia.
Qed.

Lemma seed_slot_val cs mode fb idx d acc dt s acc' s' :
  seed_slot cs mode fb idx d acc dt s = (Val acc', s') ->
  0 <= fst acc' - fst acc <= snd acc' - snd acc /\
  fst acc' - fst acc <= 1 /\
  len (reservations (current s'))
  = len (reservations (current s)) + (snd acc' - snd acc).
Proof.
  unfold seed_slot. destruct acc as [a b]. intros H.
  apply bind_val_inv in H. destruct H as (seeded & s1 & H1 & H).
  apply tables_loop_val in H1. destruct H1 as [H0 Hl].
  destruct (Z.gtb_spec seeded 0); unfold ret in H; injection H as <- <-;
    cbn [fst snd]; lia.
Qed.

Lemma seed_slots_val cs mode fb idx d slots :
  forall acc s acc' s',
    foldM (seed_slot cs mode fb idx d) slots acc s = (Val acc', s') ->
    0 <= fst acc' - fst acc <= snd acc' - snd acc /\
    fst acc' - fst acc <= len slots /\
    len (reservations (current s'))
    = len (reservations (current s)) + (snd acc' - snd acc).
Proof.
  induction slots as [|dt slots IH]; intros acc s acc' s' H.
  - cbn in H. unfold ret in H. injection H as <- <-. unfold len. cbn. lia.
  - cbn [foldM] in H. apply bind_val_inv in H. destruct H as (a1 & s1 & H1 & H).
    apply IH in H. apply seed_slot_val in H1.
    unfold len in *. cbn [List.length]. lia.
Qed.

Lemma seed_days_val today fuel cs sh eh step mode fb idx ds :
  forall acc s acc' s',
    foldM (seed_day today fuel cs sh eh step mode fb idx) ds acc s
    = (Val acc', s') ->
    0 <= fst acc' - fst acc <= snd acc' - snd acc /\
    len (reservations (current s'))
    = len (reservations (current s)) + (snd acc' - snd acc).
Proof.
  induction ds as [|d ds IH]; intros acc s acc' s' H.
  - cbn in H. unfold ret in H. injection H as <- <-. lia.
  - cbn [foldM] in H. apply bind_val_inv in H. destruct H as (a1 & s1 & H1 & H).
    apply IH in H. unfold seed_day in H1.
    apply bind_val_inv in H1. destruct H1 as (td & s2 & Ht & H1).
    unfold lift in Ht. injection Ht as _ <-.
    apply bind_val_inv in H1. destruct H1 as (day & s2 & Hd & H1).
    unfold lift in Hd. injection Hd as _ <-.
    apply bind_val_inv in H1. destruct H1 as (slots & s2 & Hs & H1).
    unfold lift in Hs. injection Hs as _ <-.
    apply seed_slots_val in H1. lia.
Qed.

(** X1: whenever the reservation seeder returns, its summary is the pair of
    counters created_slots and created_reservations; created_reservations
    is the number of rows the run has added to the session's reservations,
    and created_slots lies between 0 and created_reservations. *)
Theorem seed_reservations_summary_counts_rows :
  forall today fuel days sh eh step mode fb s out s',
    _seed_reservations today fuel days sh eh step mode fb s = (Val out, s') ->
    exists created_slots created_res,
      out = [("created_slots", JInt created_slots);
             ("created_reservations", JInt created_res)] /\
      len (reservations (current s'))
      = len (reservations (current s)) + created_res /\
      0 <= created_slots <= created_res.
Proof.
  intros today fuel days sh eh step mode fb s out s' H.
  pose proof (ensure_demo_customers_reservations s) as HR.
  unfold _seed_reservations in H. apply bind_val_inv in H.
  destruct H as (cs & s0 & E0 & H). rewrite E0 in HR. cbn [snd] in HR.
  destruct cs as [|c cs].
  - unfold ret in H. injection H as <- <-. exists 0, 0. rewrite HR.
    split; [reflexivity|]. lia.
  - apply bind_val_inv in H. destruct H as (acc & s1 & H1 & H).
    unfold ret in H. injection H as <- <-.
    apply seed_days_val in H1. cbn [fst snd] in H1.
    exists (fst acc), (snd acc). rewrite <- HR.
    split; [reflexivity|]. lia.
Qed.

Lemma seed_reservations_summary_counts_rows_witness :
  exists created_slots created_res,
    [("created_slots", JInt 13); ("created_reservations", JInt 39)]
    = [("created_slots", JInt created_slots);
       ("created_reservations", JInt created_res)] /\
    len (reservations (current
           (snd (_seed_reservations a_day 14 1 17 23 30 "small" false
                                    quiet_session))))
    = len (reservations (current quiet_session)) + created_res /\
    0 <= created_slots <= created_res.
Proof.
  apply (seed_reservations_summary_counts_rows a_day 14 1 17 23 30 "small" false
           quiet_session _ _).
  vm_compute. reflexivity.
Defined.

(** ** The plan of the seeder, for any window *)

Lemma tables_in_free s slots dt :
  free s slots -> In dt slots -> tables_at s dt = [].
Proof.
  intros Hfree Hin. unfold tables_at. apply tables_in_other.
  intros [t n] Hk E. cbn [fst] in E. subst t. exact (Hfree dt n Hin Hk).
Qed.

Lemma dt_hour_minute day x :
  0 <= x < 1440 ->
  dt_hour (combine day x) = x / 60 /\ dt_minute (combine day x) = x mod 60.
Proof.
  intros Hx. unfold dt_hour, dt_minute, combine. split.
  - Z.div_mod_to_equations. lia.
  - Z.div_mod_to_equations. lia.
Qed.

(** A slot of day-index [d] is the 19:00 slot of day-index [i] exactly when
    [d = i] and its clock reads 19:00. *)
Lemma slot_is_seven_pm today sh eh step d i dt :
  0 <= sh -> sh <= eh -> eh <= 23 -> 0 < step ->
  In dt (slots_of today sh eh step d) ->
  (d =? i) && (dt_hour dt =? 19) && (dt_minute dt =? 0)
  = (dt =? combine (today + i) (19 * 60)).
Proof.
  intros H0 Hle H23 Hs Hin.
  pose proof (slots_of_day today sh eh step (conj H0 (conj Hle H23)) Hs d dt Hin)
    as Hday.
  assert (Hx : dt = combine (today + d) (dt - (today + d) * 1440))
    by (unfold combine; lia).
  destruct (dt_hour_minute (today + d) (dt - (today + d) * 1440)) as [Hh Hm];
    [lia|]. rewrite <- Hx in Hh, Hm. rewrite Hh, Hm.
  unfold combine.
  destruct (Z.eqb_spec d i) as [->|Hd]; cbn [andb].
  - destruct (Z.eqb_spec dt ((today + i) * 1440 + 19 * 60)) as [E|E].
    + rewrite E.
      replace ((today + i) * 1440 + 19 * 60 - (today + i) * 1440) with 1140 by lia.
      reflexivity.
    + destruct (Z.eqb_spec ((dt - (today + i) * 1440) / 60) 19) as [E1|E1];
        [|reflexivity].
      destruct (Z.eqb_spec ((dt - (today + i) * 1440) mod 60) 0) as [E2|E2];
        [|reflexivity].
      exfalso. apply E. revert E1 E2. Z.div_mod_to_equations. lia.
  - destruct (Z.eqb_spec dt ((today + i) * 1440 + 19 * 60)) as [E|E];
      [|reflexivity].
    exfalso. lia.
Qed.

(** The run of the seeder on free slots, with what each time slot holds
    afterwards. *)
Lemma seed_plan_run today fuel days sh eh step mode fb s :
  0 <= sh -> sh <= eh -> eh <= 23 -> 0 < step -> step <= 1440 ->
  valid_date today -> today + days <= MAXORD ->
  (Z.to_nat ((eh - sh) * 60 / step + 1) < fuel)%nat ->
  faults s = [] ->
  (forall d, 0 <= d < days -> free s (slots_of today sh eh step d)) ->
  exists out s',
    _seed_reservations today fuel days sh eh step mode fb s = (Val out, s') /\
    faults s' = [] /\ committed s' = committed s /\
    customers (current s') = customers (provisioned (current s)) /\
    keys (current s')
    = keys (current s) ++ planned today days sh eh step mode fb (range 0 days) /\
    (forall d dt,
        0 <= d < days -> In dt (slots_of today sh eh step d) ->
        tables_at s' dt
        = range 1 (slot_target mode fb (Z.min 2 (Z.max 0 (days - 1))) d dt + 1)) /\
    (forall dt,
        (forall d, 0 <= d < days -> ~ In dt (slots_of today sh eh step d)) ->
        tables_at s' dt = tables_at s dt).
Proof.
  intros H0 Hle H23 Hs Hs' Hd Hdays Hfuel Hf Hfree.
  assert (Hwin : 0 <= sh /\ sh <= eh <= 23) by lia.
  assert (Hfit : forall d, 0 <= d < days ->
                           combine (today + d) (sh * 60)
                           + ((eh - sh) * 60 / step + 1) * step <= MAXDT).
  { intros d Hr.
    assert (step * ((eh - sh) * 60 / step) <= (eh - sh) * 60)
      by (apply Z.mul_div_le; lia).
    unfold combine, MAXDT, MAXORD in *. nia. }
  destruct (seed_reservations_run today fuel days sh eh step mode fb Hwin Hs Hd)
    with (s := s) as (out & s' & E & Hf' & Hc & Hcu & Hk); try assumption; try lia.
  exists out, s'. repeat (split; [assumption|]). split.
  - intros d dt Hr Hin. unfold tables_at. rewrite Hk, tables_in_app.
    fold (tables_at s dt). rewrite (tables_in_free s _ dt (Hfree d Hr) Hin).
    cbn [app].
    apply (tables_in_planned today days sh eh step mode fb Hwin Hs (range 0 days) d);
      [apply range_NoDup | apply range_In; lia | assumption].
  - intros dt Hout. unfold tables_at. rewrite Hk, tables_in_app.
    rewrite tables_in_planned_none; [now rewrite app_nil_r|].
    intros d Hr. apply range_In in Hr. apply Hout. lia.
Qed.


Lemma free_of_empty s slots : reservations (current s) = [] -> free s slots.
Proof. intros H dt n _. unfold keys. rewrite H. intros []. Qed.


(** X3: small-mode seeding, for any window, step from 1 to 1440 minutes and
    number of days that fit the calendar, on slots that hold no reservation
    yet and without database errors: every generated slot holds exactly the
    tables 1, 2, 3, whatever the fully_book_demo flag; the other time slots
    are as before. *)
Theorem small_seed_three_tables :
  forall today fuel days sh eh step fb s,
    0 <= sh -> sh <= eh -> eh <= 23 -> 0 < step -> step <= 1440 ->
    valid_date today -> today + days <= MAXORD ->
    (Z.to_nat ((eh - sh) * 60 / step + 1) < fuel)%nat ->
    faults s = [] ->
    (forall d, 0 <= d < days -> free s (slots_of today sh eh step d)) ->
    exists out s',
      _seed_reservations today fuel days sh eh step "small" fb s
      = (Val out, s') /\
      (forall d dt,
          0 <= d < days -> In dt (slots_of today sh eh step d) ->
          tables_at s' dt = [1; 2; 3]) /\
      (forall dt,
          (forall d, 0 <= d < days -> ~ In dt (slots_of today sh eh step d)) ->
          tables_at s' dt = tables_at s dt).
Proof.
  intros today fuel days sh eh step fb s H0 Hle H23 Hs Hs' Hd Hdays Hfuel Hf Hfree.
  destruct (seed_plan_run today fuel days sh eh step "small" fb s)
    as (out & s' & E & _ & _ & _ & _ & Hin & Hout); try assumption.
  exists out, s'. split; [exact E|]. split; [|exact Hout].
  intros d dt Hr Hdt. rewrite (Hin d dt Hr Hdt). reflexivity.
Qed.

Lemma small_seed_three_tables_witness :
  exists out s',
    _seed_reservations a_day 14 1 17 23 30 "small" true quiet_session
    = (Val out, s') /\
    (forall d dt,
        0 <= d < 1 -> In dt (slots_of a_day 17 23 30 d) ->
        tables_at s' dt = [1; 2; 3]) /\
    (forall dt,
        (forall d, 0 <= d < 1 -> ~ In dt (slots_of a_day 17 23 30 d)) ->
        tables_at s' dt = tables_at quiet_session dt).
Proof.
  apply (small_seed_three_tables a_day 14 1 17 23 30 true quiet_session);
    try lia; try reflexivity.
  - unfold valid_date, a_day, MINORD, MAXORD. lia.
  - unfold a_day, MAXORD. lia.
  - vm_compute. lia.
  - intros d _. now apply free_of_empty.
Defined.

(** ** Seeding again *)

(** The table loop on a slot whose listed tables are all taken: nothing is
    created and the session is left as it is. *)
Lemma fill_saturated cs dt ns :
  forall created s,
    faults s = [] ->
    (forall n, In n ns -> In (dt, n) (keys (current s))) ->
    foldM (seed_table cs dt) ns created s = (Val created, s).
Proof.
  induction ns as [|n ns IH]; intros created s Hf Hall; [reflexivity|].
  cbn [foldM].
  assert (Hn : has_reservation (current s) dt n = true)
    by (apply has_reservation_In, Hall; now left).
  assert (E : seed_table cs dt created n s = (Val created, s)).
  { unfold seed_table.
    rewrite (bind_val _ _ _ _ _ (query_reservation_exists_ok s dt n Hf)).
    now rewrite Hn. }
  rewrite (bind_val _ _ _ _ _ E). apply IH; [assumption|].
  intros m Hm. apply Hall. now right.
Qed.

Lemma seed_slot_saturated cs mode fb idx d acc dt s :
  faults s = [] ->
  (forall n, 1 <= n <= slot_target mode fb idx d dt ->
             In (dt, n) (keys (current s))) ->
  seed_slot cs mode fb idx d acc dt s = (Val acc, s).
Proof.
  intros Hf Hall. destruct acc as [a b]. unfold seed_slot.
  assert (Hns : forall n,
             In n (range 1 (Z.min (slot_target mode fb idx d dt) MAX_PER_SLOT + 1)) ->
             In (dt, n) (keys (current s))).
  { intros n Hn. apply Hall. apply range_In in Hn. lia. }
  rewrite (bind_val _ _ _ _ _ (fill_saturated cs dt _ 0 s Hf Hns)).
  cbn. unfold ret. now rewrite Z.add_0_r.
Qed.

Lemma seed_slots_saturated cs mode fb idx d slots :
  forall acc s,
    faults s = [] ->
    (forall dt n, In dt slots -> 1 <= n <= slot_target mode fb idx d dt ->
                  In (dt, n) (keys (current s))) ->
    foldM (seed_slot cs mode fb idx d) slots acc s = (Val acc, s).
Proof.
  induction slots as [|dt slots IH]; intros acc s Hf Hall; [reflexivity|].
  cbn [foldM].
  rewrite (bind_val _ _ _ _ _
             (seed_slot_saturated cs mode fb idx d acc dt s Hf
                (fun n Hn => Hall dt n (or_introl eq_refl) Hn))).
  apply IH; [assumption|]. intros dt' n Hin. apply Hall. now right.
Qed.

Lemma planned_In today days sh eh step mode fb ds d dt n :
  In d ds -> In dt (slots_of today sh eh step d) ->
  1 <= n <= slot_target mode fb (Z.min 2 (Z.max 0 (days - 1))) d dt ->
  In (dt, n) (planned today days sh eh step mode fb ds).
Proof.
  intros Hd Hdt Hn. unfold planned. apply in_flat_map. exists d.
  split; [assumption|]. unfold slots_block. apply in_flat_map. exists dt.
  split; [assumption|]. unfold slot_block. apply in_map, range_In. lia.
Qed.

Lemma missing_demo_same_customers t t' :
  customers t = customers t' -> missing_demo t = missing_demo t'.
Proof. intros H. unfold missing_demo, demo_rows. now rewrite H. Qed.

(** X4: after a run of the seeder on free slots (valid window, step from 1
    to 1440 minutes, days that fit the calendar, no database error), a
    second run with the same parameters in the same session finds every
    planned table taken: it reports created_slots = 0 and
    created_reservations = 0 and leaves the session exactly as it was. *)
Theorem second_seed_creates_nothing :
  forall today fuel days sh eh step mode fb s,
    0 <= sh -> sh <= eh -> eh <= 23 -> 0 < step -> step <= 1440 ->
    valid_date today -> today + days <= MAXORD ->
    (Z.to_nat ((eh - sh) * 60 / step + 1) < fuel)%nat ->
    faults s = [] ->
    (forall d, 0 <= d < days -> free s (slots_of today sh eh step d)) ->
    exists out s1,
      _seed_reservations today fuel days sh eh step mode fb s = (Val out, s1) /\
      _seed_reservations today fuel days sh eh step mode fb s1
      = (Val [("created_slots", JInt 0); ("created_reservations", JInt 0)], s1).
Proof.
  intros today fuel days sh eh step mode fb s H0 Hle H23 Hs Hs' Hd Hdays Hfuel Hf Hfree.
  destruct (seed_plan_run today fuel days sh eh step mode fb s)
    as (out & s1 & E & Hf1 & _ & Hcu & Hk & _ & _); try assumption.
  exists out, s1. split; [exact E|].
  assert (Hwin : 0 <= sh /\ sh <= eh <= 23) by lia.
  assert (Hfit : forall d, 0 <= d < days ->
                           combine (today + d) (sh * 60)
                           + ((eh - sh) * 60 / step + 1) * step <= MAXDT).
  { intros d Hr.
    assert (step * ((eh - sh) * 60 / step) <= (eh - sh) * 60)
      by (apply Z.mul_div_le; lia).
    unfold combine, MAXDT, MAXORD in *. nia. }
  assert (Hprov : provisioned (current s1) = current s1).
  { unfold provisioned.
    rewrite (missing_demo_same_customers _ (provisioned (current s)) Hcu).
    now rewrite missing_demo_provisioned. }
  unfold _seed_reservations.
  rewrite (bind_val _ _ _ _ _ (ensure_demo_customers_run s1 Hf1)).
  rewrite Hprov, with_current_same.
  pose proof (demo_data_provisioned_nonempty (current s1)) as Hcs.
  rewrite Hprov in Hcs.
  destruct (order_by_id (demo_rows (current s1))) as [|c cs] eqn:Ecs;
    [unfold len in Hcs; cbn in Hcs; lia|].
  assert (Hdays_run :
            forall ds acc,
              (forall d, In d ds -> 0 <= d < days) ->
              foldM (seed_day today fuel (c :: cs) sh eh step mode fb
                              (Z.min 2 (Z.max 0 (days - 1)))) ds acc s1
              = (Val acc, s1)).
  { induction ds as [|d ds IH]; intros acc Hds; [reflexivity|].
    cbn [foldM].
    assert (Hr : 0 <= d < days) by (apply Hds; now left).
    pose proof (slots_for_day_of today fuel days sh eh step Hwin Hs Hd
                                 ltac:(lia) Hfit Hfuel d Hr) as Eslots.
    assert (Eday : seed_day today fuel (c :: cs) sh eh step mode fb
                            (Z.min 2 (Z.max 0 (days - 1))) acc d s1
                   = (Val acc, s1)).
    { unfold seed_day, lift, bind at 1 2 3.
      destruct (timedelta d 0) as [td| |]; cbn [rbind] in Eslots; try discriminate.
      destruct (date_add today td) as [day| |]; cbn [rbind] in Eslots;
        try discriminate.
      rewrite Eslots. apply seed_slots_saturated; [assumption|].
      intros dt n Hdt Hn. rewrite Hk. apply in_or_app. right.
      apply (planned_In today days sh eh step mode fb (range 0 days) d);
        [apply range_In; lia|assumption|assumption]. }
    rewrite (bind_val _ _ _ _ _ Eday). apply IH.
    intros d' Hd'. apply Hds. now right. }
  rewrite (bind_val _ _ _ _ _
             (Hdays_run (range 0 days) (0, 0)
                        (fun d Hd' => ltac:(apply range_In in Hd'; lia)))).
  reflexivity.
Qed.

Lemma second_seed_creates_nothing_witness :
  exists out s1,
    _seed_reservations a_day 14 7 17 23 30 "normal" true quiet_session
    = (Val out, s1) /\
    _seed_reservations a_day 14 7 17 23 30 "normal" true s1
    = (Val [("created_slots", JInt 0); ("created_reservations", JInt 0)], s1).
Proof.
  apply (second_seed_creates_nothing a_day 14 7 17 23 30 "normal" true
                                     quiet_session);
    try lia; try reflexivity.
  - unfold valid_date, a_day, MINORD, MAXORD. lia.
  - unfold a_day, MAXORD. lia.
  - vm_compute. lia.
  - intros d _. now apply free_of_empty.
Defined.

(** X5: with days <= 0 the day loop has no round: without database errors
    the seeder returns created_slots = 0 and created_reservations = 0 and
    adds no reservation, whatever the hours, the step (0 and negative
    steps, hours outside 0..23 included), the mode and the fuel; the demo
    customers are provisioned all the same. *)
Theorem seed_without_days :
  forall today fuel days sh eh step mode fb s,
    days <= 0 -> faults s = [] ->
    _seed_reservations today fuel days sh eh step mode fb s
    = (Val [("created_slots", JInt 0); ("created_reservations", JInt 0)],
       with_current s (provisioned (current s))) /\
    reservations (provisioned (current s)) = reservations (current s) /\
    forall d, In d demo_data ->
              In (demo_email d) (emails (provisioned (current s))).
Proof.
  intros today fuel days sh eh step mode fb s Hdays Hf.
  split; [|split; [apply provisioned_reservations|intros d; apply provisioned_has_demo]].
  unfold _seed_reservations.
  rewrite (bind_val _ _ _ _ _ (ensure_demo_customers_run s Hf)).
  destruct (order_by_id (demo_rows (provisioned (current s)))); [reflexivity|].
  unfold range. replace (Z.to_nat (days - 0)) with 0%nat by lia. reflexivity.
Qed.

Lemma seed_without_days_witness :
  _seed_reservations a_day 0 0 99 (-5) 0 "normal" true booked_session
  = (Val [("created_slots", JInt 0); ("created_reservations", JInt 0)],
     with_current booked_session (provisioned (current booked_session))) /\
  reservations (provisioned (current booked_session))
  = reservations (current booked_session) /\
  forall d, In d demo_data ->
            In (demo_email d) (emails (provisioned (current booked_session))).
Proof.
  apply (seed_without_days a_day 0 0 99 (-5) 0 "normal" true booked_session);
    [lia|reflexivity].
Defined.

(** ** The seeding handlers from request to persisted tables *)

Lemma wipe_ok wc s :
  faults s = [] ->
  wipe wc s
  = (Val tt, mkSession (wiped wc (current s)) (wiped wc (current s)) []
                       None None).
Proof.
  intros H. destruct s as [c t fs hc hr]. cbn [faults] in H. subst fs.
  destruct wc; reflexivity.
Qed.

Lemma wiped_reservations wc t : reservations (wiped wc t) = [].
Proof. now destruct wc. Qed.

(** The summary of a run that returns, and the rows it has added. *)
Lemma seed_summary_val today fuel days sh eh step mode fb s out s' :
  _seed_reservations today fuel days sh eh step mode fb s = (Val out, s') ->
  exists n_slots n_res,
    out = [("created_slots", JInt n_slots); ("created_reservations", JInt n_res)] /\
    len (reservations (current s')) = len (reservations (current s)) + n_res /\
    0 <= n_slots <= n_res.
Proof.
  intros H. pose proof (ensure_demo_customers_reservations s) as HR.
  unfold _seed_reservations in H. apply bind_val_inv in H.
  destruct H as (cs & s0 & E0 & H). rewrite E0 in HR. cbn [snd] in HR.
  destruct cs as [|c cs].
  - injection H as <- <-. exists 0, 0. rewrite HR. split; [reflexivity|]. lia.
  - apply bind_val_inv in H. destruct H as (acc & s1 & H1 & H).
    injection H as <- <-. apply seed_days_val in H1. cbn [fst snd] in H1.
    exists (fst acc), (snd acc). rewrite <- HR. split; [reflexivity|]. lia.
Qed.

(** The [try] block of a seeding handler on a healthy database: the wipe,
    the seeding and the two commits. *)
Lemma handler_seeding_run today fuel wc days sh eh step mode fb s :
  0 <= sh -> sh <= eh -> eh <= 23 -> 0 < step -> step <= 1440 ->
  valid_date today -> today + days <= MAXORD ->
  (Z.to_nat ((eh - sh) * 60 / step + 1) < fuel)%nat ->
  faults s = [] ->
  exists n_slots n_res s',
    guarded (wipe wc ;; seeding today fuel wc days sh eh step mode fb)%M (fresh s)
    = (Val (mkResponse [("ok", JBool true); ("wiped_customers", JBool wc);
                        ("created_slots", JInt n_slots);
                        ("created_reservations", JInt n_res)] 200), s') /\
    current s' = committed s' /\
    n_res = len (reservations (committed s')) /\
    0 <= n_slots <= n_res /\
    customers (committed s') = customers (provisioned (wiped wc (rolled_back s))) /\
    keys (committed s') = planned today days sh eh step mode fb (range 0 days) /\
    (forall d dt,
        0 <= d < days -> In dt (slots_of today sh eh step d) ->
        tables_at s' dt
        = range 1 (slot_target mode fb (Z.min 2 (Z.max 0 (days - 1))) d dt + 1)) /\
    (forall dt,
        (forall d, 0 <= d < days -> ~ In dt (slots_of today sh eh step d)) ->
        tables_at s' dt = []).
Proof.
  intros H0 Hle H23 Hs Hs' Hd Hdays Hfuel Hf.
  assert (Hf0 : faults (fresh s) = []) by exact Hf.
  pose proof (wipe_ok wc (fresh s) Hf0) as Ew. cbn [fresh current] in Ew.
  set (s1 := mkSession (wiped wc (rolled_back s)) (wiped wc (rolled_back s)) []
                       None None) in *.
  assert (Hr1 : reservations (current s1) = []) by apply wiped_reservations.
  destruct (seed_plan_run today fuel days sh eh step mode fb s1)
    as (out & s2 & E & Hf2 & _ & Hcu & Hk & Hin & Hout); try assumption;
    [reflexivity | intros d _; now apply free_of_empty |].
  destruct (seed_summary_val _ _ _ _ _ _ _ _ _ _ _ E)
    as (n_slots & n_res & -> & Hlen & Hcnt).
  rewrite Hr1 in Hlen. unfold keys in Hk. rewrite Hr1 in Hk. cbn [map app] in Hk.
  pose proof (commit_ok s2 Hf2) as Ec.
  exists n_slots, n_res, (mkSession (current s2) (current s2) [] None None).
  split.
  - apply guarded_val_committed.
    rewrite (bind_val _ _ _ _ _ Ew). unfold seeding.
    rewrite (bind_val _ _ _ _ _ E). rewrite (bind_val _ _ _ _ _ Ec). reflexivity.
  - cbn [current committed]. split; [reflexivity|].
    split; [unfold len in *; cbn [List.length] in Hlen; lia|].
    split; [assumption|]. split; [exact Hcu|]. split; [exact Hk|].
    split.
    + intros d dt Hr Hdt. exact (Hin d dt Hr Hdt).
    + intros dt Hno. change (tables_at s2 dt = []). rewrite (Hout dt Hno).
      unfold tables_at, keys. now rewrite Hr1.
Qed.

(** The target of a slot of the run in normal mode. *)
Lemma normal_slot_target today days sh eh step fb d dt :
  0 <= sh -> sh <= eh -> eh <= 23 -> 0 < step -> 0 <= d < days ->
  In dt (slots_of today sh eh step d) ->
  slot_target "normal" fb (Z.min 2 (Z.max 0 (days - 1))) d dt
  = if fb && (dt =? combine (today + Z.min 2 (days - 1)) (19 * 60))
    then 30 else curve_target (dt_hour dt).
Proof.
  intros H0 Hle H23 Hs Hr Hdt.
  unfold slot_target, curve_target, MAX_PER_SLOT. cbv zeta.
  change (String.eqb "normal" "small") with false. cbv iota.
  replace (Z.min 2 (Z.max 0 (days - 1))) with (Z.min 2 (days - 1)) by lia.
  rewrite <- !andb_assoc. rewrite (andb_assoc (d =? _)).
  rewrite (slot_is_seven_pm today sh eh step d (Z.min 2 (days - 1)) dt)
    by assumption.
  reflexivity.
Qed.



(** X7: an authorized POST /api/admin/smallseed under the same conditions:
    HTTP 200 with ok, wiped_customers, created_slots and
    created_reservations, the last being the number of persisted
    reservations; whatever was reserved before is gone: every generated
    slot holds exactly the tables 1, 2, 3 and no other time slot holds a
    reservation; the work is committed. *)
Theorem admin_small_seed_three_per_slot :
  forall today TOKEN fuel req s,
    let days := get_int req "days" 1 in
    let sh := get_int req "start_hour" 17 in
    let eh := get_int req "end_hour" 23 in
    let step := get_int req "step" 30 in
    let wc := wipe_customers_of req in
    token_differs TOKEN (x_admin_token req) = false ->
    0 <= sh -> sh <= eh -> eh <= 23 -> 0 < step -> step <= 1440 ->
    valid_date today -> today + days <= MAXORD ->
    (Z.to_nat ((eh - sh) * 60 / step + 1) < fuel)%nat ->
    faults s = [] ->
    exists n_slots n_res s',
      admin_small_seed today TOKEN fuel req s
      = (Val (mkResponse [("ok", JBool true); ("wiped_customers", JBool wc);
                          ("created_slots", JInt n_slots);
                          ("created_reservations", JInt n_res)] 200), s') /\
      current s' = committed s' /\
      n_res = len (reservations (committed s')) /\
      (forall d dt,
          0 <= d < days -> In dt (slots_of today sh eh step d) ->
          tables_at s' dt = [1; 2; 3]) /\
      (forall dt,
          (forall d, 0 <= d < days -> ~ In dt (slots_of today sh eh step d)) ->
          tables_at s' dt = []).
Proof.
  intros today TOKEN fuel req s days sh eh step wc
         Htok H0 Hle H23 Hs Hs' Hd Hdays Hfuel Hf.
  rewrite (admin_small_seed_authorized today TOKEN fuel req s Htok).
  unfold smallseed_seeding. fold days sh eh step wc.
  destruct (handler_seeding_run today fuel wc days sh eh step "small" false s)
    as (n_slots & n_res & s' & E & Hcur & Hn & _ & _ & _ & Hin & Hout);
    try assumption.
  exists n_slots, n_res, s'.
  split; [exact E|]. split; [exact Hcur|]. split; [exact Hn|].
  split; [|exact Hout].
  intros d dt Hr Hdt. rewrite (Hin d dt Hr Hdt). reflexivity.
Qed.

Lemma admin_small_seed_three_per_slot_witness :
  exists n_slots n_res s',
    admin_small_seed a_day "dev-secret-123" 14 admin_request booked_session
    = (Val (mkResponse [("ok", JBool true); ("wiped_customers", JBool false);
                        ("created_slots", JInt n_slots);
                        ("created_reservations", JInt n_res)] 200), s') /\
    current s' = committed s' /\
    n_res = len (reservations (committed s')) /\
    (forall d dt,
        0 <= d < 1 -> In dt (slots_of a_day 17 23 30 d) ->
        tables_at s' dt = [1; 2; 3]) /\
    (forall dt,
        (forall d, 0 <= d < 1 -> ~ In dt (slots_of a_day 17 23 30 d)) ->
        tables_at s' dt = []).
Proof.
  apply (admin_small_seed_three_per_slot a_day "dev-secret-123" 14 admin_request
                                         booked_session);
    try reflexivity; try (cbn; lia).
  - unfold valid_date, a_day, MINORD, MAXORD. lia.
  - unfold a_day, MAXORD. cbn. lia.
Defined.

(** ** The provisioner under any fault schedule *)

(** The rows [session.add_all] builds for the entries [ds] when the identity
    sequence of the customers stands at [q]. *)
Fixpoint demo_rows_from (q : Z) (ds : list (string * string * string * bool))
  : list Customer :=
  match ds with
  | [] => []
  | (n, e, p, ns) :: ds' => mkCustomer q n e p ns :: demo_rows_from (q + 1) ds'
  end.

Lemma insert_customers_rows ds :
  forall t,
    customers (fold_left insert_customer ds t)
    = customers t ++ demo_rows_from (customers_seq t) ds /\
    customers_seq (fold_left insert_customer ds t) = customers_seq t + len ds.
Proof.
  induction ds as [|[[[n e] p] ns] ds IH]; intros t.
  - cbn. rewrite app_nil_r. split; [reflexivity|unfold len; cbn; lia].
  - cbn [fold_left]. destruct (IH (insert_customer t (n, e, p, ns))) as [-> ->].
    cbn [insert_customer customers customers_seq demo_rows_from].
    rewrite <- app_assoc. unfold len. cbn [List.length app]. split; [reflexivity|lia].
Qed.

Lemma insert_customers_reservations_seq ds :
  forall t, reservations_seq (fold_left insert_customer ds t) = reservations_seq t.
Proof.
  induction ds as [|[[[n e] p] ns] ds IH]; intros t; [reflexivity|].
  cbn [fold_left]. now rewrite IH.
Qed.

Lemma query_val {A} (f : tables -> A) s a s' :
  (db_roundtrip ;; t <- get_current ;; ret (f t))%M s = (Val a, s') ->
  a = f (current s) /\ current s' = current s /\ committed s' = committed s.
Proof.
  intros H. apply bind_val_inv in H. destruct H as ([] & s0 & Hd & H).
  apply db_roundtrip_val in Hd. destruct Hd as [Hcu Hc].
  injection H as <- <-. now rewrite Hcu.
Qed.

(** A return of the provisioner, whatever the fault schedule, is the return
    of the run without faults. *)
Lemma ensure_demo_customers_val s cs s' :
  _ensure_demo_customers s = (Val cs, s') ->
  cs = order_by_id (demo_rows (provisioned (current s))) /\
  current s' = provisioned (current s) /\ committed s' = committed s.
Proof.
  unfold _ensure_demo_customers. intros H.
  apply bind_val_inv in H. destruct H as (existing & s1 & Hq & H).
  apply (query_val (fun t => map c_email (demo_rows t))) in Hq.
  destruct Hq as (-> & Hcu1 & Hc1).
  fold (missing_demo (current s)) in H. unfold provisioned.
  apply bind_val_inv in H. destruct H as ([] & s2 & Hadd & H).
  apply (query_val (fun t => order_by_id (demo_rows t))) in H.
  destruct H as (-> & Hcu & Hc).
  destruct (missing_demo (current s)) as [|d ds].
  - injection Hadd as <-. cbn [fold_left]. rewrite Hcu, Hc, Hcu1, Hc1. auto.
  - apply bind_val_inv in Hadd. destruct Hadd as ([] & s3 & Ha & Hfl).
    rewrite add_all_run in Ha. injection Ha as <-.
    apply db_roundtrip_val in Hfl. destruct Hfl as [Hcu2 Hc2].
    cbn [with_current current committed] in Hcu2, Hc2.
    rewrite Hcu, Hc, Hcu2, Hc2, Hcu1, Hc1. auto.
Qed.

(** A session over [booked_tables] whose fourth round trip to the database
    fails: the provisioner needs three. *)
Definition slow_session : session :=
  mkSession booked_tables booked_tables [None; None; None; Some "connection lost"]
            None None.

(** X8: whenever the provisioner returns, under any schedule of database
    errors: the customers of the session are the earlier rows, unchanged and
    in place, followed by one new row for each demo entry whose email no
    @example.com row held, in the order of the demo list, numbered from the
    identity sequence on, with the entry's name, email, phone and
    newsletter flag; reservations and persisted tables are untouched; the
    result is the list of all @example.com rows by id, it is never empty
    and has a row for each of the ten demo emails. *)
Theorem ensure_demo_customers_adds_missing :
  forall s cs s',
    _ensure_demo_customers s = (Val cs, s') ->
    let t := current s in
    customers (current s')
    = customers t ++ demo_rows_from (customers_seq t) (missing_demo t) /\
    customers_seq (current s') = customers_seq t + len (missing_demo t) /\
    reservations (current s') = reservations t /\
    reservations_seq (current s') = reservations_seq t /\
    committed s' = committed s /\
    cs = order_by_id (filter (fun c => is_demo_email (c_email c))
                             (customers (current s'))) /\
    cs <> [] /\
    forall d, In d demo_data -> exists c, In c cs /\ c_email c = demo_email d.
Proof.
  intros s cs s' H. cbv zeta.
  apply ensure_demo_customers_val in H. destruct H as (-> & Hcu & Hc).
  rewrite Hcu. unfold provisioned at 1 2 3 4.
  destruct (insert_customers_rows (missing_demo (current s)) (current s))
    as [-> ->].
  split; [reflexivity|]. split; [reflexivity|].
  split; [apply insert_customers_reservations|].
  split; [apply insert_customers_reservations_seq|].
  split; [exact Hc|]. split; [reflexivity|]. split.
  - pose proof (demo_data_provisioned_nonempty (current s)) as Hn.
    intros E. rewrite E in Hn. unfold len in Hn. cbn in Hn. lia.
  - intros d Hd.
    assert (Hin : In (demo_email d)
                     (map c_email (demo_rows (provisioned (current s))))).
    { rewrite demo_rows_emails. apply filter_In. split.
      - now apply provisioned_has_demo.
      - repeat (destruct Hd as [<-|Hd]; [reflexivity|]). destruct Hd. }
    apply in_map_iff in Hin. destruct Hin as (c & Hc' & Hin).
    exists c. split; [|exact Hc'].
    apply (Permutation_in c (order_by_id_perm _)). exact Hin.
Qed.

Lemma ensure_demo_customers_adds_missing_witness :
  customers (current (snd (_ensure_demo_customers slow_session)))
  = customers booked_tables
      ++ demo_rows_from (customers_seq booked_tables) (missing_demo booked_tables) /\
  customers_seq (current (snd (_ensure_demo_customers slow_session)))
  = customers_seq booked_tables + len (missing_demo booked_tables) /\
  reservations (current (snd (_ensure_demo_customers slow_session)))
  = reservations booked_tables /\
  reservations_seq (current (snd (_ensure_demo_customers slow_session)))
  = reservations_seq booked_tables /\
  committed (snd (_ensure_demo_customers slow_session)) = committed slow_session /\
  order_by_id (demo_rows (provisioned booked_tables))
  = order_by_id (filter (fun c => is_demo_email (c_email c))
                        (customers (current (snd (_ensure_demo_customers
                                                    slow_session))))) /\
  order_by_id (demo_rows (provisioned booked_tables)) <> [] /\
  forall d, In d demo_data ->
            exists c, In c (order_by_id (demo_rows (provisioned booked_tables))) /\
                      c_email c = demo_email d.
Proof.
  apply (ensure_demo_customers_adds_missing slow_session).
  vm_compute. reflexivity.
Defined.

(** ** Requests with hours that no clock shows *)

Lemma range_cons a b : a < b -> range a b = a :: range (a + 1) b.
Proof.
  intros H. unfold range.
  replace (Z.to_nat (b - a)) with (S (Z.to_nat (b - (a + 1)))) by lia.
  cbn [seq map]. f_equal; [lia|].
  rewrite <- seq_shift, map_map. apply map_ext. intros k. lia.
Qed.

Lemma as_c_int_cases (v : Z) :
  as_c_int v = Val v \/ exists e, as_c_int v = Exc e.
Proof.
  unfold as_c_int.
  destruct (_ || _); [right; eauto|].
  destruct (v >? 2147483647); [right; eauto|].
  destruct (v <? -2147483648); [right; eauto|].
  now left.
Qed.

Lemma time_bad (h m : Z) :
  h < 0 \/ 23 < h \/ m < 0 \/ 59 < m -> exists e, time h m = Exc e.
Proof.
  intros H. unfold time.
  destruct (as_c_int_cases h) as [->|[e ->]]; cbn [rbind]; [|eauto].
  destruct (as_c_int_cases m) as [->|[e ->]]; cbn [rbind]; [|eauto].
  destruct (negb ((0 <=? h) && (h <=? 23))) eqn:E1; [eauto|].
  destruct (negb ((0 <=? m) && (m <=? 59))) eqn:E2; [eauto|].
  apply negb_false_iff, andb_prop in E1. apply negb_false_iff, andb_prop in E2.
  destruct E1 as [A1 A2], E2 as [B1 B2].
  apply Z.leb_le in A1, A2, B1, B2. lia.
Qed.

(** The slot generator raises on an hour outside 0..23 before its loop
    starts, whatever the fuel and the step. *)
Lemma slots_for_day_bad_hours fuel day sh eh step :
  sh < 0 \/ 23 < sh \/ eh < 0 \/ 23 < eh ->
  exists e, _slots_for_day fuel day sh eh step = Exc e.
Proof.
  intros H. unfold _slots_for_day.
  assert (Hsh : sh < 0 \/ 23 < sh \/ 0 <= sh <= 23) by lia.
  destruct Hsh as [Hsh|[Hsh|Hsh]];
    try (destruct (time_bad_hour sh) as [e ->]; [lia|]; cbn [rbind]; eauto).
  rewrite (time_ok sh Hsh). cbn [rbind].
  destruct (time_bad_hour eh) as [e ->]; [lia|]. cbn [rbind]. eauto.
Qed.

(** The seeding after the wipe stops at the first day when the window has
    such an hour. *)
Lemma seeding_bad_hours today fuel wc days sh eh step mode fb s :
  valid_date today -> faults s = [] -> 1 <= days ->
  sh < 0 \/ 23 < sh \/ eh < 0 \/ 23 < eh ->
  exists e,
    _slots_for_day fuel today sh eh step = Exc e /\
    fst (seeding today fuel wc days sh eh step mode fb s) = Exc e.
Proof.
  intros Hd Hf Hdays Hbad.
  destruct (slots_for_day_bad_hours fuel today sh eh step Hbad) as [e He].
  exists e. split; [exact He|].
  set (s0 := with_current s (provisioned (current s))).
  assert (Eseed : _seed_reservations today fuel days sh eh step mode fb s
                  = (Exc e, s0)).
  { unfold _seed_reservations.
    rewrite (bind_val _ _ _ _ _ (ensure_demo_customers_run s Hf)). fold s0.
    pose proof (demo_data_provisioned_nonempty (current s)) as Hcs.
    destruct (order_by_id (demo_rows (provisioned (current s)))) as [|c cs];
      [unfold len in Hcs; cbn in Hcs; lia|].
    rewrite range_cons by lia. cbn [foldM].
    assert (E : seed_day today fuel (c :: cs) sh eh step mode fb
                         (Z.min 2 (Z.max 0 (days - 1))) (0, 0) 0 s0
                = (Exc e, s0)).
    { unfold seed_day, lift, bind.
      rewrite timedelta_days_ok by lia.
      rewrite (date_add_ok today 0) by (unfold valid_date in Hd; lia).
      replace (today + 0) with today by lia. now rewrite He. }
    apply bind_exc. apply bind_exc. exact E. }
  unfold seeding. now rewrite (bind_exc _ _ _ _ _ Eseed).
Qed.

(** X9: an authorized request to /api/admin/seed or /api/admin/smallseed on
    a healthy database, for at least one day, whose start_hour or end_hour
    lies outside 0..23: the answer is HTTP 500 with ok = false and the
    message of the exception the slot generator raises on that window, and
    the reservations persisted before the request are gone: no reservation
    row is persisted, and the customer rows are those of before the request
    (none with wipe_customers). *)
Theorem seed_with_bad_hours_wipes :
  forall today TOKEN fuel req s,
    let sh := get_int req "start_hour" 17 in
    let eh := get_int req "end_hour" 23 in
    let step := get_int req "step" 30 in
    let wc := wipe_customers_of req in
    token_differs TOKEN (x_admin_token req) = false ->
    valid_date today -> faults s = [] ->
    sh < 0 \/ 23 < sh \/ eh < 0 \/ 23 < eh ->
    (1 <= get_int req "days" 7 ->
     exists e,
       _slots_for_day fuel today sh eh step = Exc e /\
       fst (admin_seed today TOKEN fuel req s)
       = Val (mkResponse [("ok", JBool false); ("error", JStr (str e))] 500) /\
       reservations (committed (snd (admin_seed today TOKEN fuel req s))) = [] /\
       customers (committed (snd (admin_seed today TOKEN fuel req s)))
       = (if wc then [] else customers (committed s))) /\
    (1 <= get_int req "days" 1 ->
     exists e,
       _slots_for_day fuel today sh eh step = Exc e /\
       fst (admin_small_seed today TOKEN fuel req s)
       = Val (mkResponse [("ok", JBool false); ("error", JStr (str e))] 500) /\
       reservations (committed (snd (admin_small_seed today TOKEN fuel req s)))
       = [] /\
       customers (committed (snd (admin_small_seed today TOKEN fuel req s)))
       = (if wc then [] else customers (committed s))).
Proof.
  intros today TOKEN fuel req s sh eh step wc Htok Hd Hf Hbad.
  assert (Hw : fst (wipe wc (fresh s)) = Val tt)
    by (now rewrite (wipe_ok wc (fresh s) Hf)).
  assert (Hfw : faults (snd (wipe wc (fresh s))) = [])
    by (now rewrite (wipe_ok wc (fresh s) Hf)).
  split; intros Hdays.
  - rewrite (admin_seed_authorized today TOKEN fuel req s Htok).
    unfold seed_seeding. fold sh eh step wc.
    destruct (seeding_bad_hours today fuel wc (get_int req "days" 7) sh eh step
                                "normal" (fully_book_demo_of req)
                                (snd (wipe wc (fresh s))) Hd Hfw Hdays Hbad)
      as (e & He & Hseed).
    exists e. split; [exact He|].
    destruct (guarded_wipe_then_error today fuel wc _ sh eh step "normal"
                                      (fully_book_demo_of req) s e Hw Hseed)
      as (Hr & Hres & Hcust & _).
    auto.
  - rewrite (admin_small_seed_authorized today TOKEN fuel req s Htok).
    unfold smallseed_seeding. fold sh eh step wc.
    destruct (seeding_bad_hours today fuel wc (get_int req "days" 1) sh eh step
                                "small" false
                                (snd (wipe wc (fresh s))) Hd Hfw Hdays Hbad)
      as (e & He & Hseed).
    exists e. split; [exact He|].
    destruct (guarded_wipe_then_error today fuel wc _ sh eh step "small"
                                      false s e Hw Hseed)
      as (Hr & Hres & Hcust & _).
    auto.
Qed.

(** A request with the secret and [start_hour=24]. *)
Definition late_request : request :=
  mkRequest (Some "dev-secret-123")
            (fun name => if String.eqb name "start_hour" then Some 24 else None)
            (fun _ => None).

Lemma seed_with_bad_hours_wipes_witness :
  (1 <= get_int late_request "days" 7 ->
   exists e,
     _slots_for_day 14 a_day 24 23 30 = Exc e /\
     fst (admin_seed a_day "dev-secret-123" 14 late_request booked_session)
     = Val (mkResponse [("ok", JBool false); ("error", JStr (str e))] 500) /\
     reservations (committed (snd (admin_seed a_day "dev-secret-123" 14
                                              late_request booked_session)))
     = [] /\
     customers (committed (snd (admin_seed a_day "dev-secret-123" 14 late_request
                                           booked_session)))
     = customers (committed booked_session)) /\
  (1 <= get_int late_request "days" 1 ->
   exists e,
     _slots_for_day 14 a_day 24 23 30 = Exc e /\
     fst (admin_small_seed a_day "dev-secret-123" 14 late_request booked_session)
     = Val (mkResponse [("ok", JBool false); ("error", JStr (str e))] 500) /\
     reservations (committed (snd (admin_small_seed a_day "dev-secret-123" 14
                                                    late_request booked_session)))
     = [] /\
     customers (committed (snd (admin_small_seed a_day "dev-secret-123" 14
                                                 late_request booked_session)))
     = customers (committed booked_session)).
Proof.
  apply (seed_with_bad_hours_wipes a_day "dev-secret-123" 14 late_request
                                   booked_session).
  - reflexivity.
  - unfold valid_date, a_day, MINORD, MAXORD. lia.
  - reflexivity.
  - right. left. cbn. lia.
Defined.

(** ** What the handlers answer *)

Lemma guarded_cases (blk : M response) (s : session) :
  guarded blk s
  = match blk s with
    | (Val r, s') => (Val r, fresh s')
    | (Exc e, s') => (Val (server_error e), fresh s')
    | (OutOfFuel, s') => (OutOfFuel, s')
    end.
Proof.
  unfold guarded, try_finally, try_except.
  destruct (blk s) as [[r|e|] s']; reflexivity.
Qed.

(** The [try] block of /api/admin/seed_capacity. *)
Definition capacity_block (today : date) (isoformat : datetime -> string)
           (req : request) : M response :=
  (result <- _seed_capacity_scenario today isoformat
                                     (get_int req "day" 0) (get_int req "hour" 19)
                                     (get_int req "minute" 0) (get_int req "step" 30) ;;
   ret (mkResponse result 200))%M.

Lemma admin_seed_capacity_guarded today isoformat req s :
  admin_seed_capacity today isoformat req s
  = guarded (capacity_block today isoformat req) (fresh s).
Proof. reflexivity. Qed.

Ltac bind_inv H :=
  apply bind_val_inv in H;
  let a := fresh "a" in
  let s := fresh "s" in
  let E := fresh "E" in
  destruct H as (a & s & E & H).

(** A summary the scenario returns is never the one of its
    [if not customers] branch. *)
Lemma capacity_scenario_val today isoformat day hour minute step s out s' :
  _seed_capacity_scenario today isoformat day hour minute step s = (Val out, s') ->
  In ("ok", JBool true) out.
Proof.
  unfold _seed_capacity_scenario. intros H. bind_inv H.
  apply ensure_demo_customers_val in E. destruct E as (Ea & _ & _).
  pose proof (demo_data_provisioned_nonempty (current s)) as Hn.
  rewrite <- Ea in Hn. destruct a as [|c cs]; [unfold len in Hn; cbn in Hn; lia|].
  do 10 bind_inv H. injection H as <- _. now left.
Qed.

Lemma capacity_block_val today isoformat req s r s' :
  capacity_block today isoformat req s = (Val r, s') ->
  status r = 200 /\ In ("ok", JBool true) (body r).
Proof.
  unfold capacity_block. intros H. bind_inv H. injection H as <- _.
  split; [reflexivity|]. cbn [body]. eapply capacity_scenario_val; eassumption.
Qed.

Lemma seed_block_val today fuel wc days sh eh step mode fb s r s' :
  (wipe wc ;; seeding today fuel wc days sh eh step mode fb)%M s = (Val r, s') ->
  status r = 200 /\ In ("ok", JBool true) (body r).
Proof.
  intros H. bind_inv H. unfold seeding in H. do 2 bind_inv H.
  injection H as <- _. split; [reflexivity|now left].
Qed.

Lemma dt_add_terminates t td : dt_add t td <> OutOfFuel.
Proof. unfold dt_add. cbv zeta. destruct (valid_datetimeb _); discriminate. Qed.

Lemma terminates_truncate_reservations : terminates truncate_reservations.
Proof. unfold truncate_reservations. repeat terminates_step. Qed.

Lemma terminates_truncate_customers : terminates truncate_customers.
Proof. unfold truncate_customers. repeat terminates_step. Qed.

Lemma terminates_wipe wc : terminates (wipe wc).
Proof.
  unfold wipe.
  apply terminates_bind; [apply terminates_truncate_reservations|]. intros _.
  apply terminates_bind; [|intros _; apply terminates_commit].
  destruct wc; [apply terminates_truncate_customers|apply terminates_ret].
Qed.

Lemma terminates_seed_block today fuel wc days sh eh step mode fb :
  0 < step -> (1382 <= fuel)%nat ->
  terminates (wipe wc ;; seeding today fuel wc days sh eh step mode fb)%M.
Proof.
  intros Hs Hf.
  apply terminates_bind; [apply terminates_wipe|]. intros _. unfold seeding.
  apply terminates_bind; [now apply terminates_seed_reservations|]. intros out.
  apply terminates_bind; [apply terminates_commit|]. intros _.
  apply terminates_ret.
Qed.

Lemma terminates_capacity_block today isoformat req :
  terminates (capacity_block today isoformat req).
Proof.
  unfold capacity_block.
  apply terminates_bind; [|intros out; apply terminates_ret].
  unfold _seed_capacity_scenario.
  apply terminates_bind; [apply terminates_ensure_demo_customers|]. intros cs.
  destruct cs as [|c cs]; [apply terminates_ret|].
  apply terminates_bind; [apply terminates_lift, timedelta_terminates|]. intros td.
  apply terminates_bind; [apply terminates_lift, date_add_terminates|]. intros day.
  apply terminates_bind; [apply terminates_lift, time_terminates|]. intros t.
  apply terminates_bind; [apply terminates_lift, timedelta_terminates|]. intros ts.
  apply terminates_bind; [apply terminates_lift, dt_add_terminates|]. intros dt.
  apply terminates_bind; [apply terminates_truncate_reservations|]. intros _.
  apply terminates_bind; [apply terminates_commit|]. intros _.
  apply terminates_bind;
    [apply terminates_foldM; intros created n; apply terminates_seed_table|].
  intros n1.
  apply terminates_bind;
    [apply terminates_foldM; intros created n; apply terminates_seed_table|].
  intros n2.
  apply terminates_bind; [apply terminates_commit|]. intros _.
  apply terminates_ret.
Qed.

(** The three shapes of an answer of the module. *)
Definition well_formed (r : response) : Prop :=
  status r = 200 /\ In ("ok", JBool true) (body r) \/
  status r = 401 /\ body r = [("error", JStr "unauthorized")] \/
  status r = 500 /\ In ("ok", JBool false) (body r).

(** The outcome is an answer of one of the three shapes; it is no exception;
    it is a loop without end only if [may_hang]. *)
Definition answers (out : res response * session) (may_hang : Prop) : Prop :=
  match fst out with
  | Val r => well_formed r
  | Exc _ => False
  | OutOfFuel => may_hang
  end.

Lemma guarded_answers (blk : M response) (s : session) (may_hang : Prop) :
  (forall r s', blk s = (Val r, s') ->
                status r = 200 /\ In ("ok", JBool true) (body r)) ->
  (fst (blk s) = OutOfFuel -> may_hang) ->
  answers (guarded blk s) may_hang.
Proof.
  intros Hv Ho. unfold answers. rewrite guarded_cases.
  destruct (blk s) as [[r|e|] s'] eqn:E; cbn [fst].
  - left. now apply (Hv r s').
  - right. right. split; [reflexivity|]. now left.
  - now apply Ho.
Qed.

(** Past the conversion of the query parameters no handler lets an
    exception escape. *)
Lemma handlers_answer :
  forall today TOKEN isoformat fuel req s,
    answers (admin_seed_capacity today isoformat req s) False /\
    answers (admin_seed today TOKEN fuel req s)
            (get_int req "step" 30 <= 0 \/ (fuel < 1382)%nat) /\
    answers (admin_small_seed today TOKEN fuel req s)
            (get_int req "step" 30 <= 0 \/ (fuel < 1382)%nat).
Proof.
  intros today TOKEN isoformat fuel req s.
  assert (Hhang : forall wc days mode fb,
             fst ((wipe wc ;;
                   seeding today fuel wc days (get_int req "start_hour" 17)
                           (get_int req "end_hour" 23) (get_int req "step" 30)
                           mode fb)%M (fresh s)) = OutOfFuel ->
             get_int req "step" 30 <= 0 \/ (fuel < 1382)%nat).
  { intros wc days mode fb Ho.
    destruct (Z_le_gt_dec (get_int req "step" 30) 0) as [Hs|Hs]; [now left|].
    destruct (le_lt_dec 1382 fuel) as [Hf|Hf]; [|now right].
    exfalso. revert Ho. apply terminates_seed_block; [lia|assumption]. }
  split; [|split].
  - rewrite admin_seed_capacity_guarded. apply guarded_answers.
    + apply capacity_block_val.
    + apply terminates_capacity_block.
  - destruct (token_differs TOKEN (x_admin_token req)) eqn:Htok.
    + rewrite (admin_seed_unauthorized today TOKEN fuel req s Htok).
      right. left. split; reflexivity.
    + rewrite (admin_seed_authorized today TOKEN fuel req s Htok).
      apply guarded_answers; [apply seed_block_val|apply Hhang].
  - destruct (token_differs TOKEN (x_admin_token req)) eqn:Htok.
    + rewrite (admin_small_seed_unauthorized today TOKEN fuel req s Htok).
      right. left. split; reflexivity.
    + rewrite (admin_small_seed_authorized today TOKEN fuel req s Htok).
      apply guarded_answers; [apply seed_block_val|apply Hhang].
Qed.

(** *** The views with their conversions

    [admin_seed], [admin_small_seed] and [admin_seed_capacity] above take
    the query parameters as [int(request.args.get(...))] has converted
    them.  The conversions come before the [try] block, after the check of
    the token where there is one, and a parameter that is not an integer
    makes the first of them raise. *)

(** A query parameter as [int] sees it: a text that [int] converts to [v],
    or one that it rejects, given by its [repr]. *)
Inductive arg : Type :=
| Integer (v : Z)
| NotInteger (repr : string).

Record raw_request : Type := mkRaw
  { raw_token : option string;
    raw_ints : string -> option arg;
    raw_strs : string -> option string }.

(** [int(request.args.get(name, default))]. *)
Definition py_int (a : option arg) (default : Z) : res Z :=
  match a with
  | None => Val default
  | Some (Integer v) => Val v
  | Some (NotInteger r) =>
      Exc (ValueError ("invalid literal for int() with base 10: " ++ r)%string)
  end.

(** The conversions of a view, in the order of its assignments. *)
Fixpoint conversions (names : list (string * Z)) (raw : raw_request)
  : res unit :=
  match names with
  | [] => Val tt
  | (name, default) :: names' =>
      (_ <~ py_int (raw_ints raw name) default; conversions names' raw)%res
  end.

(** The request once its parameters are converted. *)
Definition converted (raw : raw_request) : request :=
  mkRequest (raw_token raw)
            (fun name => match raw_ints raw name with
                         | Some (Integer v) => Some v
                         | _ => None
                         end)
            (raw_strs raw).

Definition seed_ints : list (string * Z) :=
  [("days", 7); ("start_hour", 17); ("end_hour", 23); ("step", 30)].

Definition small_seed_ints : list (string * Z) :=
  [("days", 1); ("start_hour", 17); ("end_hour", 23); ("step", 30)].

Definition capacity_ints : list (string * Z) :=
  [("day", 0); ("hour", 19); ("minute", 0); ("step", 30)].

Section Views.

Variable today : date.
Variable ADMIN_TOKEN : string.
Variable isoformat : datetime -> string.

Definition admin_seed_view (fuel : nat) (raw : raw_request) : M response :=
  if token_differs ADMIN_TOKEN (raw_token raw) then ret unauthorized
  else (lift (conversions seed_ints raw) ;;
        admin_seed today ADMIN_TOKEN fuel (converted raw))%M.

Definition admin_small_seed_view (fuel : nat) (raw : raw_request) : M response :=
  if token_differs ADMIN_TOKEN (raw_token raw) then ret unauthorized
  else (lift (conversions small_seed_ints raw) ;;
        admin_small_seed today ADMIN_TOKEN fuel (converted raw))%M.

Definition admin_seed_capacity_view (raw : raw_request) : M response :=
  (lift (conversions capacity_ints raw) ;;
   admin_seed_capacity today isoformat (converted raw))%M.

End Views.

Lemma py_int_converted raw name default :
  (exists v, py_int (raw_ints raw name) default = Val v /\
             get_int (converted raw) name default = v) \/
  (exists r, raw_ints raw name = Some (NotInteger r)).
Proof.
  unfold get_int, converted, py_int. cbn [int_args].
  destruct (raw_ints raw name) as [[v|r]|]; eauto.
Qed.

(** The conversions fail exactly when a listed parameter is not an
    integer, with the [ValueError] of the first such parameter. *)
Lemma conversions_cases names raw :
  (conversions names raw = Val tt /\
   forall name default, In (name, default) names ->
                        py_int (raw_ints raw name) default
                        = Val (get_int (converted raw) name default)) \/
  (exists name default r,
      In (name, default) names /\
      raw_ints raw name = Some (NotInteger r) /\
      conversions names raw
      = Exc (ValueError ("invalid literal for int() with base 10: " ++ r)%string)).
Proof.
  induction names as [|[name default] names IH]; [left; split; [reflexivity|]|].
  - intros name default [].
  - cbn [conversions].
    destruct (py_int_converted raw name default) as [(v & E & Hv)|(r & E)].
    + rewrite E. cbn [rbind].
      destruct IH as [[-> Hall]|(n & d & r & Hin & Hr & ->)].
      * left. split; [reflexivity|]. intros n d [H|H].
        -- injection H as <- <-. now rewrite E, Hv.
        -- now apply Hall.
      * right. exists n, d, r. split; [now right|]. auto.
    + right. exists name, default, r. unfold py_int. rewrite E. cbn [rbind].
      split; [now left|]. auto.
Qed.


(** ** A capacity request with a time that no clock shows *)

Lemma capacity_scenario_bad_time today isoformat day hour minute step s :
  hour < 0 \/ 23 < hour \/ minute < 0 \/ 59 < minute ->
  exists e s',
    _seed_capacity_scenario today isoformat day hour minute step s = (Exc e, s') /\
    committed s' = committed s.
Proof.
  intros Hbad. unfold _seed_capacity_scenario.
  pose proof (keepsC_ensure_demo_customers s) as Hc.
  pose proof (terminates_ensure_demo_customers s) as Ht.
  destruct (_ensure_demo_customers s) as [[cs|e|] s1] eqn:E;
    cbn [fst snd] in Hc, Ht; [| |congruence].
  - rewrite (bind_val _ _ _ _ _ E).
    apply ensure_demo_customers_val in E. destruct E as (Ecs & _ & _).
    pose proof (demo_data_provisioned_nonempty (current s)) as Hn.
    rewrite <- Ecs in Hn.
    destruct cs as [|c cs]; [unfold len in Hn; cbn in Hn; lia|].
    unfold lift, bind.
    destruct (timedelta day 0) as [td|e|] eqn:Etd;
      [|eauto|now apply timedelta_terminates in Etd].
    destruct (date_add today td) as [base|e|] eqn:Eda;
      [|eauto|now apply date_add_terminates in Eda].
    destruct (time_bad hour minute Hbad) as [e ->]. eauto.
  - rewrite (bind_exc _ _ _ _ _ E). eauto.
Qed.

(** X11: a request to /api/admin/seed_capacity whose hour lies outside
    0..23 or whose minute lies outside 0..59 is answered HTTP 500 with
    ok = false and changes no row: the scenario builds its time before it
    truncates, so the persisted customers and reservations are those of
    before the request, whatever the other parameters and the schedule of
    database errors; the closed session shows them. *)
Theorem capacity_bad_time_keeps_rows :
  forall today isoformat req s,
    let hour := get_int req "hour" 19 in
    let minute := get_int req "minute" 0 in
    hour < 0 \/ 23 < hour \/ minute < 0 \/ 59 < minute ->
    exists e s',
      admin_seed_capacity today isoformat req s
      = (Val (mkResponse [("ok", JBool false); ("error", JStr (str e))] 500), s') /\
      customers (committed s') = customers (committed s) /\
      reservations (committed s') = reservations (committed s) /\
      customers (current s') = customers (committed s) /\
      reservations (current s') = reservations (committed s).
Proof.
  intros today isoformat req s hour minute Hbad.
  destruct (capacity_scenario_bad_time today isoformat (get_int req "day" 0)
              hour minute (get_int req "step" 30) (fresh s) Hbad)
    as (e & s1 & E & Hc).
  exists e, (fresh s1). split.
  - rewrite admin_seed_capacity_guarded. apply guarded_exc.
    unfold capacity_block. fold hour minute. now rewrite (bind_exc _ _ _ _ _ E).
  - cbn [fresh committed current rolled_back customers reservations].
    rewrite Hc. cbn [fresh committed]. auto.
Qed.

(** A request for 19:60. *)
Definition sixty_request : request :=
  mkRequest None
            (fun name => if String.eqb name "minute" then Some 60 else None)
            (fun _ => None).

Lemma capacity_bad_time_keeps_rows_witness :
  exists e s',
    admin_seed_capacity a_day no_iso sixty_request booked_session
    = (Val (mkResponse [("ok", JBool false); ("error", JStr (str e))] 500), s') /\
    customers (committed s') = customers (committed booked_session) /\
    reservations (committed s') = reservations (committed booked_session) /\
    customers (current s') = customers (committed booked_session) /\
    reservations (current s') = reservations (committed booked_session).
Proof.
  apply (capacity_bad_time_keeps_rows a_day no_iso sixty_request booked_session).
  right. right. right. cbn. lia.
Defined.

(** ** The capacity scenario at any time of any day *)

(** X12: a request to /api/admin/seed_capacity on a healthy database, for a
    day offset that stays in the calendar, an hour in 0..23, a minute in
    0..59 and a step that keeps the second slot in the calendar: the answer
    is HTTP 200 with created_full = 30; the persisted reservations are the
    rows the request has written, numbered from 1: the tables 1..30 for
    slot_full = (today + day) hour:minute, then created_almost rows, the
    tables 1..created_almost, for slot_almost = slot_full + step, where
    created_almost is 29 or 0; with step = 0 the two slots are one, the
    second fill finds every table taken, and the answer reports
    created_almost = 0 under the same note.  The customers are kept, the
    missing demo customers added. *)
Theorem capacity_scenario_any_slot :
  forall today isoformat req s,
    let day := get_int req "day" 0 in
    let hour := get_int req "hour" 19 in
    let minute := get_int req "minute" 0 in
    let step := get_int req "step" 30 in
    let slot_full := combine (today + day) (hour * 60 + minute) in
    let slot_almost := slot_full + step in
    valid_date today -> valid_date (today + day) ->
    0 <= hour <= 23 -> 0 <= minute <= 59 ->
    MINDT <= slot_almost <= MAXDT ->
    faults s = [] ->
    exists created_almost s',
      admin_seed_capacity today isoformat req s
      = (Val (mkResponse
                [("ok", JBool true);
                 ("slot_full", JStr (isoformat slot_full));
                 ("slot_almost", JStr (isoformat slot_almost));
                 ("created_full", JInt 30);
                 ("created_almost", JInt created_almost);
                 ("note", JStr "slot_full has 30 reservations; slot_almost has 29.")]
                200), s') /\
      (created_almost = 29 \/ created_almost = 0) /\
      (step = 0 -> created_almost = 0) /\
      current s' = committed s' /\
      customers (committed s') = customers (provisioned (rolled_back s)) /\
      keys (committed s')
      = map (pair slot_full) (range 1 31)
          ++ map (pair slot_almost) (range 1 (created_almost + 1)) /\
      map r_id (reservations (committed s')) = range 1 (31 + created_almost).
Proof.
  intros today isoformat req s day hour minute step slot_full slot_almost
         Hd Hday Hh Hm Halmost Hf.
  rewrite admin_seed_capacity_guarded.
  assert (Hf' : faults (fresh s) = []) by exact Hf.
  pose proof (ensure_demo_customers_run (fresh s) Hf') as E0.
  cbn [fresh current] in E0.
  pose proof (demo_data_provisioned_nonempty (rolled_back s)) as Hcs.
  set (cs := order_by_id (demo_rows (provisioned (rolled_back s)))) in *.
  fold (fresh s) in E0.
  set (s0 := with_current (fresh s) (provisioned (rolled_back s))) in *.
  assert (Hf0 : faults s0 = []) by exact Hf.
  pose proof (truncate_reservations_ok s0 Hf0) as E1.
  set (s1 := truncated_reservations s0) in *.
  assert (Hf1 : faults s1 = []) by exact Hf.
  pose proof (commit_ok s1 Hf1) as E2.
  set (s2 := mkSession (current s1) (current s1) [] None None) in *.
  destruct (fill_run_rows cs slot_full Hcs (range 1 31) 0 s2)
    as (s3 & E3 & Hf3 & Hc3 & Hcu3 & Hcq3 & Hrq3 & Hr3);
    [reflexivity | apply range_NoDup | intros n _ [] |].
  cbn [s2 current reservations reservations_seq s1 truncated_reservations app]
    in Hr3, Hrq3.
  assert (Hk3 : keys (current s3) = map (pair slot_full) (range 1 31))
    by (unfold keys; now rewrite Hr3, rows_for_keys).
  assert (Hfill2 :
            exists c s4,
              foldM (seed_table cs slot_almost) (range 1 30) 0 s3 = (Val c, s4) /\
              (c = 29 \/ c = 0) /\ (step = 0 -> c = 0) /\
              faults s4 = [] /\
              customers (current s4) = customers (current s3) /\
              reservations (current s4)
              = reservations (current s3)
                  ++ rows_for cs slot_almost 31 (range 1 (c + 1))).
  { destruct (Z.eqb_spec step 0) as [E|E].
    - exists 0, s3. cbn [rows_for]. rewrite app_nil_r. split; [|auto 6].
      apply fill_saturated; [assumption|].
      intros n Hn. rewrite Hk3. unfold slot_almost. rewrite E, Z.add_0_r.
      apply in_map. apply range_In in Hn. apply range_In. lia.
    - destruct (fill_run_rows cs slot_almost Hcs (range 1 30) 0 s3)
        as (s4 & E4 & Hf4 & _ & Hcu4 & _ & _ & Hr4);
        [assumption | apply range_NoDup | |].
      { intros n _ Hin. rewrite Hk3 in Hin. apply in_map_iff in Hin.
        destruct Hin as (m & Hm' & _). injection Hm' as Hm' _.
        unfold slot_almost in Hm'. lia. }
      exists 29, s4. split; [exact E4|]. split; [now left|].
      split; [intros E'; contradiction|]. split; [exact Hf4|].
      split; [exact Hcu4|]. rewrite Hr4, Hrq3. reflexivity. }
  destruct Hfill2 as (c & s4 & E4 & Hc & Hc0 & Hf4 & Hcu4 & Hr4).
  pose proof (commit_ok s4 Hf4) as E5.
  exists c, (mkSession (current s4) (current s4) [] None None).
  split.
  - apply guarded_val_committed.
    unfold capacity_block. fold day hour minute step.
    erewrite bind_val; [reflexivity|].
    unfold _seed_capacity_scenario.
    rewrite (bind_val _ _ _ _ _ E0).
    destruct cs as [|c0 cs']; [unfold len in Hcs; cbn in Hcs; lia|].
    unfold lift, bind at 1 2 3 4 5.
    unfold valid_date, MINORD, MAXORD in Hd, Hday.
    rewrite timedelta_days_ok by lia. cbn [rbind].
    rewrite (date_add_ok today day) by (unfold MINORD, MAXORD; lia).
    rewrite time_hm_ok by lia.
    rewrite timedelta_minutes_ok
      by (unfold slot_almost, slot_full, combine, MINDT, MAXDT, MINORD, MAXORD in *;
          lia).
    fold slot_full.
    rewrite dt_add_ok by exact Halmost. fold slot_almost.
    rewrite (bind_val _ _ _ _ _ E1).
    rewrite (bind_val _ _ _ _ _ E2).
    unfold _fill_slot.
    change (30 + 1) with 31. change (29 + 1) with 30.
    rewrite (bind_val _ _ _ _ _ E3).
    rewrite (bind_val _ _ _ _ _ E4).
    rewrite (bind_val _ _ _ _ _ E5).
    reflexivity.
  - cbn [current committed]. split; [exact Hc|]. split; [exact Hc0|].
    split; [reflexivity|].
    split; [rewrite Hcu4, Hcu3; reflexivity|].
    rewrite Hr4, Hr3. split.
    + unfold keys. rewrite Hr4, Hr3, map_app, !rows_for_keys. reflexivity.
    + rewrite map_app, !rows_for_ids.
      destruct Hc as [-> | ->]; reflexivity.
Qed.

(** A request for twice the same slot. *)
Definition same_slot_request : request :=
  mkRequest None
            (fun name => if String.eqb name "step" then Some 0 else None)
            (fun _ => None).

Lemma capacity_scenario_any_slot_witness :
  exists created_almost s',
    admin_seed_capacity a_day no_iso same_slot_request booked_session
    = (Val (mkResponse
              [("ok", JBool true);
               ("slot_full", JStr (no_iso (combine (a_day + 0) (19 * 60 + 0))));
               ("slot_almost", JStr (no_iso (combine (a_day + 0) (19 * 60 + 0) + 0)));
               ("created_full", JInt 30);
               ("created_almost", JInt created_almost);
               ("note", JStr "slot_full has 30 reservations; slot_almost has 29.")]
              200), s') /\
    (created_almost = 29 \/ created_almost = 0) /\
    (0 = 0 -> created_almost = 0) /\
    current s' = committed s' /\
    customers (committed s') = customers (provisioned (rolled_back booked_session)) /\
    keys (committed s')
    = map (pair (combine (a_day + 0) (19 * 60 + 0))) (range 1 31)
        ++ map (pair (combine (a_day + 0) (19 * 60 + 0) + 0))
               (range 1 (created_almost + 1)) /\
    map r_id (reservations (committed s')) = range 1 (31 + created_almost).
Proof.
  apply (capacity_scenario_any_slot a_day no_iso same_slot_request booked_session);
    try reflexivity; cbn; unfold valid_date, a_day, MINORD, MAXORD, MINDT, MAXDT,
                          combine; lia.
Defined.

(** ** What a return of the slot generator tells *)

Lemma time_val (h t : Z) : time h 0 = Val t -> 0 <= h <= 23 /\ t = h * 60.
Proof.
  intros E. unfold time in E.
  destruct (as_c_int_cases h) as [Eh|[e Eh]]; rewrite Eh in E;
    cbn [rbind] in E; [|discriminate].
  change (as_c_int 0) with (Val 0) in E. cbn [rbind] in E.
  destruct (negb ((0 <=? h) && (h <=? 23))) eqn:E1; [discriminate|].
  cbn in E. injection E as <-.
  apply negb_false_iff, andb_prop in E1. destruct E1 as [A1 A2].
  apply Z.leb_le in A1, A2. lia.
Qed.

Lemma dt_add_val (t td r : Z) : dt_add t td = Val r -> r = t + td.
Proof.
  unfold dt_add. cbv zeta. destruct (valid_datetimeb (t + td)); [|discriminate].
  intros E. now injection E.
Qed.

(** The loop returns only when it was past the end at once, or with a
    positive step and the instants from the cursor up to the end. *)
Lemma slots_loop_val fuel :
  forall end_ step cur acc l,
    slots_loop fuel end_ step cur acc = Val l ->
    (end_ < cur /\ l = acc) \/
    (cur <= end_ /\ 0 < step /\
     l = acc ++ stepped cur step (Z.to_nat ((end_ - cur) / step + 1))).
Proof.
  induction fuel as [|fuel IH]; intros end_ step cur acc l H; [discriminate|].
  cbn [slots_loop] in H. destruct (Z.leb_spec cur end_) as [Hle|Hgt].
  - right. split; [assumption|].
    destruct (timedelta 0 step) as [td| |] eqn:Etd; cbn [rbind] in H;
      try discriminate.
    apply timedelta_minutes_val in Etd. subst td.
    destruct (dt_add cur step) as [cur'| |] eqn:Ead; cbn [rbind] in H;
      try discriminate.
    apply dt_add_val in Ead. subst cur'.
    apply IH in H. destruct H as [[Hpast ->]|(Hin & Hs & ->)].
    + assert (Hs : 0 < step) by lia. split; [assumption|].
      rewrite Z.div_small by lia.
      change (Z.to_nat (0 + 1)) with 1%nat. now rewrite stepped_S.
    + split; [assumption|]. rewrite <- app_assoc. cbn [app].
      replace (end_ - cur) with (end_ - (cur + step) + 1 * step) by lia.
      rewrite Z.div_add by lia.
      assert (0 <= (end_ - (cur + step)) / step) by (apply Z.div_pos; lia).
      replace (Z.to_nat ((end_ - (cur + step)) / step + 1 + 1))
        with (S (Z.to_nat ((end_ - (cur + step)) / step + 1))) by lia.
      now rewrite stepped_S.
  - left. injection H as <-. split; [assumption|reflexivity].
Qed.

(** X13: the slot generator returns a list only in two cases, for any day,
    hours, step and fuel: with hours in 0..23 and end_hour < start_hour the
    list is empty; with hours in 0..23, start_hour <= end_hour and a
    positive step it is the list of the floor((end_hour - start_hour) * 60
    / step) + 1 instants start, start + step, ... that do not pass
    end_hour:00.  So a returned list is never partial, and a zero or
    negative step never yields a list on a window that is not empty. *)
Theorem slots_for_day_returns_only :
  forall fuel day sh eh step slots,
    _slots_for_day fuel day sh eh step = Val slots ->
    0 <= sh <= 23 /\ 0 <= eh <= 23 /\
    ((eh < sh /\ slots = []) \/
     (sh <= eh /\ 0 < step /\
      slots = stepped (combine day (sh * 60)) step
                      (Z.to_nat ((eh - sh) * 60 / step + 1)) /\
      Forall (fun dt => combine day (sh * 60) <= dt <= combine day (eh * 60))
             slots)).
Proof.
  intros fuel day sh eh step slots H. unfold _slots_for_day in H.
  destruct (time sh 0) as [ts| |] eqn:Es; cbn [rbind] in H; try discriminate.
  destruct (time eh 0) as [te| |] eqn:Ee; cbn [rbind] in H; try discriminate.
  apply time_val in Es, Ee. destruct Es as [Hsh ->], Ee as [Heh ->].
  split; [assumption|]. split; [assumption|].
  apply slots_loop_val in H. unfold combine in *.
  destruct H as [[Hpast ->]|(Hin & Hs & ->)]; [left; split; [lia|reflexivity]|].
  right. split; [lia|]. split; [assumption|]. cbn [app].
  replace (day * 1440 + eh * 60 - (day * 1440 + sh * 60)) with ((eh - sh) * 60)
    by lia.
  split; [reflexivity|].
  apply Forall_forall. intros dt Hdt. apply stepped_In in Hdt.
  destruct Hdt as (k & Hk & ->).
  assert (Hq0 : 0 <= (eh - sh) * 60 / step) by (apply Z.div_pos; lia).
  assert (Hq1 : step * ((eh - sh) * 60 / step) <= (eh - sh) * 60)
    by (apply Z.mul_div_le; lia).
  nia.
Qed.

Lemma slots_for_day_returns_only_witness :
  0 <= 17 <= 23 /\ 0 <= 18 <= 23 /\
  ((18 < 17 /\
    [combine a_day (17 * 60); combine a_day (17 * 60) + 45] = []) \/
   (17 <= 18 /\ 0 < 45 /\
    [combine a_day (17 * 60); combine a_day (17 * 60) + 45]
    = stepped (combine a_day (17 * 60)) 45 (Z.to_nat ((18 - 17) * 60 / 45 + 1)) /\
    Forall (fun dt => combine a_day (17 * 60) <= dt <= combine a_day (18 * 60))
           [combine a_day (17 * 60); combine a_day (17 * 60) + 45])).
Proof.
  apply (slots_for_day_returns_only 5 a_day 17 18 45).
  vm_compute. reflexivity.
Defined.

(** ** What reaches the persisted tables *)

Lemma bind_exc_inv {A B} (m : M A) (k : A -> M B) s e s' :
  bind m k s = (Exc e, s') ->
  m s = (Exc e, s') \/ exists a s1, m s = (Val a, s1) /\ k a s1 = (Exc e, s').
Proof.
  unfold bind. destruct (m s) as [[a|e0|] s1]; try discriminate.
  - intros H. right. exists a, s1. auto.
  - intros H. injection H as <- <-. now left.
Qed.

Lemma commit_val s s' :
  commit s = (Val tt, s') -> committed s' = current s /\ current s' = current s.
Proof.
  unfold commit. intros H. apply bind_val_inv in H.
  destruct H as ([] & s1 & Hd & H). apply db_roundtrip_val in Hd.
  destruct Hd as [Hcu _]. injection H as <-. cbn. now rewrite Hcu.
Qed.

Lemma truncate_reservations_val s s' :
  truncate_reservations s = (Val tt, s') ->
  committed s' = committed s /\
  current s' = mkTables (customers (current s)) [] (customers_seq (current s)) 1.
Proof.
  unfold truncate_reservations. intros H. apply bind_val_inv in H.
  destruct H as ([] & s1 & Hd & H). apply db_roundtrip_val in Hd.
  destruct Hd as [Hcu Hc]. injection H as <-. cbn. now rewrite Hcu, Hc.
Qed.

Lemma keepsC_truncate_reservations : keepsC truncate_reservations.
Proof. unfold truncate_reservations. repeat keepsC_step. Qed.

Lemma keepsC_fill_slot cs dt n : keepsC (_fill_slot cs dt n).
Proof.
  unfold _fill_slot. apply keepsC_foldM. intros created k.
  apply keepsC_seed_table.
Qed.

Ltac fill_keeps H :=
  lazymatch type of H with
  | _fill_slot ?cs ?dt ?n ?s = _ =>
      let K := fresh "K" in
      pose proof (keepsC_fill_slot cs dt n s) as K;
      rewrite H in K; cbn [snd] in K
  end.

(** The tables the capacity scenario commits after its wipe. *)
Definition capacity_wiped (t : tables) : tables :=
  mkTables (customers (provisioned t)) [] (customers_seq (provisioned t)) 1.

(** An exception of the scenario leaves persisted the tables of before, or
    the wiped ones. *)
Lemma capacity_scenario_exc today isoformat day hour minute step s e s' :
  _seed_capacity_scenario today isoformat day hour minute step s = (Exc e, s') ->
  committed s' = committed s \/ committed s' = capacity_wiped (current s).
Proof.
  unfold _seed_capacity_scenario. intros H.
  apply bind_exc_inv in H. destruct H as [H|(cs & s0 & E0 & H)].
  { left. pose proof (keepsC_ensure_demo_customers s) as K.
    now rewrite H in K. }
  apply ensure_demo_customers_val in E0. destruct E0 as (_ & Hcu0 & Hc0).
  destruct cs as [|c cs]; [discriminate|].
  do 5 (apply bind_exc_inv in H;
        destruct H as [H|(? & ? & E & H)];
        [unfold lift in H; injection H as _ <-; now left
        |unfold lift in E; injection E as _ <-]).
  apply bind_exc_inv in H. destruct H as [H|([] & s1 & E1 & H)].
  { left. pose proof (keepsC_truncate_reservations s0) as K.
    rewrite H in K. cbn [snd] in K. congruence. }
  apply truncate_reservations_val in E1. destruct E1 as [Hc1 Hcu1].
  apply bind_exc_inv in H. destruct H as [H|([] & s2 & E2 & H)].
  { left. apply commit_exc in H. congruence. }
  apply commit_val in E2. destruct E2 as [Hc2 _].
  right.
  assert (Hw : committed s2 = capacity_wiped (current s)).
  { rewrite Hc2, Hcu1, Hcu0. reflexivity. }
  apply bind_exc_inv in H. destruct H as [H|(n1 & s3 & E3 & H)].
  { fill_keeps H. congruence. }
  fill_keeps E3.
  apply bind_exc_inv in H. destruct H as [H|(n2 & s4 & E4 & H)].
  { fill_keeps H. congruence. }
  fill_keeps E4.
  apply bind_exc_inv in H. destruct H as [H|([] & s5 & E5 & H)];
    [|discriminate].
  apply commit_exc in H. congruence.
Qed.

Lemma seed_block_exc today fuel wc days sh eh step mode fb s e s' :
  (wipe wc ;; seeding today fuel wc days sh eh step mode fb)%M (fresh s)
  = (Exc e, s') ->
  committed s' = committed s \/ committed s' = wiped wc (rolled_back s).
Proof.
  intros H. apply bind_exc_inv in H. destruct H as [H|([] & s0 & Ew & H)].
  - left. now apply wipe_exc in H.
  - right. apply wipe_val in Ew. destruct Ew as [Ew _].
    apply seeding_exc in H. rewrite H, Ew. reflexivity.
Qed.

Lemma guarded_not_ok (blk : M response) (wiped_tables : tables) s r s' :
  (forall r0 s0, blk (fresh s) = (Val r0, s0) -> status r0 = 200) ->
  (forall e s0, blk (fresh s) = (Exc e, s0) ->
                committed s0 = committed s \/ committed s0 = wiped_tables) ->
  guarded blk (fresh s) = (Val r, s') -> status r <> 200 ->
  (committed s' = committed s \/ committed s' = wiped_tables) /\
  customers (current s') = customers (committed s') /\
  reservations (current s') = reservations (committed s').
Proof.
  intros Hv He H Hr. rewrite guarded_cases in H.
  destruct (blk (fresh s)) as [[r0|e|] s0] eqn:E; [| |discriminate].
  - injection H as <- <-. exfalso. apply Hr. now apply (Hv r0 s0).
  - injection H as _ <-. split; [|split; reflexivity]. now apply (He e s0).
Qed.

(** The persisted rows are those of [t]. *)
Definition same_rows (t' t : tables) : Prop :=
  customers t' = customers t /\ reservations t' = reservations t.

(** X14: no handler persists a half-seeded state.  Whenever
    /api/admin/seed, /api/admin/smallseed or /api/admin/seed_capacity
    answers with a status other than 200 (under any schedule of database
    errors), the persisted rows are those of before the request or the
    wiped ones: no reservation, and the customers of before (none with
    wipe_customers; for seed_capacity with the missing demo customers
    added); after seed_capacity the closed session shows the persisted
    rows.  The statement is about rows, not about identity values. *)
Theorem failed_request_persists_no_seeding :
  forall today TOKEN isoformat fuel req s,
    (forall r s',
        admin_seed today TOKEN fuel req s = (Val r, s') -> status r <> 200 ->
        same_rows (committed s') (committed s) \/
        reservations (committed s') = [] /\
        customers (committed s')
        = (if wipe_customers_of req then [] else customers (committed s))) /\
    (forall r s',
        admin_small_seed today TOKEN fuel req s = (Val r, s') -> status r <> 200 ->
        same_rows (committed s') (committed s) \/
        reservations (committed s') = [] /\
        customers (committed s')
        = (if wipe_customers_of req then [] else customers (committed s))) /\
    (forall r s',
        admin_seed_capacity today isoformat req s = (Val r, s') ->
        status r <> 200 ->
        (same_rows (committed s') (committed s) \/
         reservations (committed s') = [] /\
         customers (committed s') = customers (provisioned (rolled_back s))) /\
        same_rows (current s') (committed s')).
Proof.
  intros today TOKEN isoformat fuel req s.
  assert (Hseed : forall days mode fb r s',
             guarded (wipe (wipe_customers_of req) ;;
                      seeding today fuel (wipe_customers_of req) days
                              (get_int req "start_hour" 17)
                              (get_int req "end_hour" 23) (get_int req "step" 30)
                              mode fb)%M (fresh s) = (Val r, s') ->
             status r <> 200 ->
             same_rows (committed s') (committed s) \/
             reservations (committed s') = [] /\
             customers (committed s')
             = (if wipe_customers_of req then [] else customers (committed s))).
  { intros days mode fb r s' H Hr.
    match type of H with
    | guarded ?b _ = _ =>
        destruct (guarded_not_ok b (wiped (wipe_customers_of req) (rolled_back s))
                                 s r s') as [[E|E] _]; [| |exact H|exact Hr| |]
    end.
    - intros r0 s0 E. now apply seed_block_val in E.
    - intros e s0 E. now apply seed_block_exc in E.
    - left. rewrite E. split; reflexivity.
    - right. rewrite E.
      destruct (wiped_rows (wipe_customers_of req) (rolled_back s)) as [-> ->].
      split; reflexivity. }
  split; [|split]; intros r s' H Hr.
  - destruct (token_differs TOKEN (x_admin_token req)) eqn:Htok.
    + rewrite (admin_seed_unauthorized today TOKEN fuel req s Htok) in H.
      injection H as _ <-. left. split; reflexivity.
    + rewrite (admin_seed_authorized today TOKEN fuel req s Htok) in H.
      exact (Hseed _ _ _ r s' H Hr).
  - destruct (token_differs TOKEN (x_admin_token req)) eqn:Htok.
    + rewrite (admin_small_seed_unauthorized today TOKEN fuel req s Htok) in H.
      injection H as _ <-. left. split; reflexivity.
    + rewrite (admin_small_seed_authorized today TOKEN fuel req s Htok) in H.
      exact (Hseed _ _ _ r s' H Hr).
  - rewrite admin_seed_capacity_guarded in H.
    match type of H with
    | guarded ?b _ = _ =>
        destruct (guarded_not_ok b (capacity_wiped (rolled_back s)) s r s')
          as [[E|E] [Hcu Hre]]; [| |exact H|exact Hr| |]
    end.
    + intros r0 s0 E. now apply capacity_block_val in E.
    + intros e s0 E. unfold capacity_block in E.
      apply bind_exc_inv in E. destruct E as [E|(out & s1 & _ & E)];
        [|discriminate].
      apply capacity_scenario_exc in E. exact E.
    + split; [|split; assumption]. left. rewrite E. split; reflexivity.
    + split; [|split; assumption]. right. rewrite E. split; reflexivity.
Qed.

(** X15: the provisioner and the reservation seeder never commit: whatever
    their parameters, the schedule of database errors and their outcome
    (return, exception, loop cut short), the persisted tables are those of
    before the call; what they add lives in the session until the caller
    commits. *)
Theorem seeder_never_commits :
  forall today fuel days sh eh step mode fb s,
    committed (snd (_ensure_demo_customers s)) = committed s /\
    committed (snd (_seed_reservations today fuel days sh eh step mode fb s))
    = committed s.
Proof.
  intros today fuel days sh eh step mode fb s. split.
  - apply keepsC_ensure_demo_customers.
  - apply keepsC_seed_reservations.
Qed.
